(** * The temperature project API: a shallow embedding of [app.py]

    The service is a Flask application over a MySQL driver.  The embedding
    follows the file top-down: the Python values that travel through the
    handlers, the builtins the handlers call ([int], [float], [in],
    subscripting, [str.replace], [datetime.fromisoformat]), the [DB] helper
    class over an abstract driver, the utilities ([as_json], [bad_request],
    [require_json]) and the route handlers.

    A handler is a computation in a state-and-exception monad: the state holds
    the driver's world, the [conn] attribute of every [DB] object created so
    far and the trace of driver calls; an exception that leaves a handler is
    the outcome [Raise e] (Flask answers it with a 500). *)

From Stdlib Require Import ZArith List String Ascii Bool Lia.
From Stdlib Require Import SpecFloat DecimalString Sorted.
Import ListNotations.

Set Warnings "-register-all".
Open Scope string_scope.
Open Scope Z_scope.

(** ** Exceptions *)

(** The classes of [pymysql.err] below [pymysql.Error]. *)
Inductive pymysql_class : Type :=
| InterfaceError
| DataError
| OperationalError
| IntegrityError
| InternalError
| ProgrammingError
| NotSupportedError.

(** Every exception here derives from [Exception].  A driver exception
    carries [args = (errno, errval)]. *)
Inductive exn : Type :=
| ValueError
| TypeError
| KeyError
| AttributeError
| OverflowError
| PyMySQL (c : pymysql_class) (errno : Z) (errval : string)
| OtherException (name : string).

Definition pymysql_class_name (c : pymysql_class) : string :=
  match c with
  | InterfaceError => "InterfaceError"
  | DataError => "DataError"
  | OperationalError => "OperationalError"
  | IntegrityError => "IntegrityError"
  | InternalError => "InternalError"
  | ProgrammingError => "ProgrammingError"
  | NotSupportedError => "NotSupportedError"
  end.

(** [type(e).__name__] *)
Definition exn_name (e : exn) : string :=
  match e with
  | ValueError => "ValueError"
  | TypeError => "TypeError"
  | KeyError => "KeyError"
  | AttributeError => "AttributeError"
  | OverflowError => "OverflowError"
  | PyMySQL c _ _ => pymysql_class_name c
  | OtherException n => n
  end.

(** [isinstance(e, pymysql.Error)] *)
Definition is_pymysql_Error (e : exn) : bool :=
  match e with PyMySQL _ _ _ => true | _ => false end.

(** [isinstance(e, pymysql.err.IntegrityError)] *)
Definition is_IntegrityError (e : exn) : bool :=
  match e with PyMySQL IntegrityError _ _ => true | _ => false end.

(** [isinstance(e, ValueError)] *)
Definition is_ValueError (e : exn) : bool :=
  match e with ValueError => true | _ => false end.

Inductive result (A : Type) : Type :=
| Ok (a : A)
| Raise (e : exn).
Arguments Ok {A} a.
Arguments Raise {A} e.

(** ** Values *)

(** [decimal.Decimal], finite: (-1)^sign * coefficient * 10^exponent.  The
    driver builds one from the text of a DECIMAL column, which is finite. *)
Record decimal : Type := mkDecimal {
  dec_sign : bool;
  dec_coeff : N;
  dec_exp : Z
}.

(** [datetime.datetime]; [tzoffset] is the UTC offset of an aware value, in
    microseconds, [None] for a naive one. *)
Record datetime : Type := mkDatetime {
  year : Z;
  month : Z;
  day : Z;
  hour : Z;
  minute : Z;
  second : Z;
  microsecond : Z;
  tzoffset : option Z
}.

(** A Python float is an IEEE binary64 number. *)
Definition pyfloat : Type := spec_float.
Definition prec64 : Z := 53.
Definition emax64 : Z := 1024.

Inductive value : Type :=
| VNone
| VBool (b : bool)
| VInt (z : Z)
| VFloat (f : pyfloat)
| VStr (s : string)
| VDecimal (d : decimal)
| VDatetime (dt : datetime)
| VList (l : list value)
| VDict (d : list (string * value)).

(** A row of a [DictCursor]: column name to value, in column order. *)
Definition row : Type := list (string * value).

(** [d.get(k)] on an association list; the first binding wins. *)
Fixpoint assoc (k : string) (d : list (string * value)) : option value :=
  match d with
  | [] => None
  | (k', v) :: d' => if String.eqb k k' then Some v else assoc k d'
  end.

Definition has_key (k : string) (d : list (string * value)) : bool :=
  match assoc k d with Some _ => true | None => false end.

(** ** Strings *)

Definition ascii_of_Z (z : Z) : ascii := ascii_of_N (Z.to_N z).
Definition Z_of_ascii (c : ascii) : Z := Z.of_N (N_of_ascii c).

(** ASCII white space, as [str.strip()] and the numeric parsers see it. *)
Definition is_space (c : ascii) : bool :=
  let n := Z_of_ascii c in
  ((9 <=? n) && (n <=? 13)) || (n =? 32) || ((28 <=? n) && (n <=? 31)).

Definition is_digit (c : ascii) : bool :=
  let n := Z_of_ascii c in (48 <=? n) && (n <=? 57).

Definition digit_val (c : ascii) : Z := Z_of_ascii c - 48.

Fixpoint lstrip (s : list ascii) : list ascii :=
  match s with
  | c :: s' => if is_space c then lstrip s' else s
  | [] => []
  end.

Definition strip (s : list ascii) : list ascii :=
  rev (lstrip (rev (lstrip s))).

(** ASCII lower case of one character. *)
Definition lower (c : ascii) : ascii :=
  let n := Z_of_ascii c in
  if (65 <=? n) && (n <=? 90) then ascii_of_Z (n + 32) else c.

(** [s.replace(a, b)] for one-character [a] and [b]. *)
Fixpoint str_replace (a b : ascii) (s : string) : string :=
  match s with
  | EmptyString => EmptyString
  | String c s' =>
      String (if Ascii.eqb c a then b else c) (str_replace a b s')
  end.

(** [k in s] for strings: [k] occurs in [s]. *)
Definition is_substring (k s : string) : bool :=
  match String.index 0 k s with Some _ => true | None => false end.

(** [str(n)] for an integer. *)
Definition str_of_Z (z : Z) : string := NilZero.string_of_int (Z.to_int z).

(** A digit part, [digit (["_"] digit)*]: the digits read so far are in
    [acc], [n] counts them, [prev_digit] says whether the last character was
    a digit.  Returns the value, the number of digits and the rest. *)
Fixpoint digitpart (s : list ascii) (acc : Z) (n : Z) (prev_digit : bool)
  : option (Z * Z * list ascii) :=
  match s with
  | c :: s' =>
      if is_digit c then digitpart s' (10 * acc + digit_val c) (n + 1) true
      else if Ascii.eqb c "_" then
        match s' with
        | c' :: _ =>
            if prev_digit && is_digit c' then digitpart s' acc n false
            else if prev_digit then Some (acc, n, s) else None
        | [] => if prev_digit then Some (acc, n, s) else None
        end
      else if prev_digit then Some (acc, n, s) else None
  | [] => if prev_digit then Some (acc, n, s) else None
  end.

(** An optional sign: [true] for minus. *)
Definition sign_of (s : list ascii) : bool * list ascii :=
  match s with
  | c :: s' =>
      if Ascii.eqb c "-" then (true, s')
      else if Ascii.eqb c "+" then (false, s')
      else (false, s)
  | [] => (false, s)
  end.

(** [int(s)] for a string, base ten: optional white space, sign, digits
    with single underscores between them (ASCII only).  [None] stands for
    [ValueError]. *)
Definition int_of_string (s : string) : option Z :=
  let (neg, body) := sign_of (strip (list_ascii_of_string s)) in
  match digitpart body 0 0 false with
  | Some (v, _, []) => Some (if neg then - v else v)
  | _ => None
  end.


(** ** Floats *)

(** The binary64 number nearest to [(-1)^neg * m * 10^e] (ties to even), for
    [0 <= m]: what [float()] makes of a decimal numeral. *)
Definition float_of_scaled (neg : bool) (m e : Z) : pyfloat :=
  match m with
  | Zpos _ =>
      if 0 <=? e then
        binary_normalize prec64 emax64
          (if neg then - (m * 10 ^ e) else m * 10 ^ e) 0 neg
      else
        let '(q, e', l) :=
          SFdiv_core_binary prec64 emax64 m 0 (10 ^ (- e)) 0 in
        binary_round_aux prec64 emax64 neg q e' l
  | _ => S754_zero neg
  end.

(** [float(d)] for a [Decimal]. *)
Definition float_of_decimal (d : decimal) : pyfloat :=
  float_of_scaled (dec_sign d) (Z.of_N (dec_coeff d)) (dec_exp d).

(** [float(n)] for an [int]: [OverflowError] past the binary64 range. *)
Definition float_of_Z (z : Z) : result pyfloat :=
  match binary_normalize prec64 emax64 z 0 false with
  | S754_infinity _ => Raise OverflowError
  | f => Ok f
  end.

(** [int(f)] for a float: truncation toward zero. *)
Definition Z_of_float (f : pyfloat) : result Z :=
  match f with
  | S754_zero _ => Ok 0
  | S754_finite s m e =>
      let a := if 0 <=? e then Z.pos m * 2 ^ e else Z.pos m / 2 ^ (- e) in
      Ok (if s then - a else a)
  | S754_infinity _ => Raise OverflowError
  | S754_nan => Raise ValueError
  end.

(** [int(d)] for a [Decimal]: truncation toward zero. *)
Definition Z_of_decimal (d : decimal) : Z :=
  let m := Z.of_N (dec_coeff d) in
  let a := if 0 <=? dec_exp d then m * 10 ^ dec_exp d
           else m / 10 ^ (- dec_exp d) in
  if dec_sign d then - a else a.

Definition lower_all (s : list ascii) : list ascii := map lower s.

Definition list_ascii_eqb (a b : list ascii) : bool :=
  String.eqb (string_of_list_ascii a) (string_of_list_ascii b).

(** The exponent part of a float numeral, [("e"|"E") ["+"|"-"] digitpart],
    when there is one. *)
Definition exponent_part (s : list ascii) : option (Z * list ascii) :=
  match s with
  | c :: s' =>
      if Ascii.eqb (lower c) "e" then
        let (neg, s'') := sign_of s' in
        match digitpart s'' 0 0 false with
        | Some (v, _, rest) => Some (if neg then - v else v, rest)
        | None => None
        end
      else Some (0, s)
  | [] => Some (0, s)
  end.

(** A float numeral without sign: coefficient and decimal exponent. *)
Definition float_numeral (s : list ascii) : option (Z * Z) :=
  let ipart :=
    match s with
    | c :: _ => if Ascii.eqb c "." then Some (0, 0, s) else digitpart s 0 0 false
    | [] => None
    end in
  match ipart with
  | None => None
  | Some (iv, ndig, rest) =>
      let fpart :=
        match rest with
        | c :: rest' =>
            if Ascii.eqb c "." then
              match rest' with
              | c' :: _ =>
                  if is_digit c' then digitpart rest' iv 0 false
                  else if 0 <? ndig then Some (iv, 0, rest') else None
              | [] => if 0 <? ndig then Some (iv, 0, rest') else None
              end
            else Some (iv, 0, rest)
        | [] => Some (iv, 0, rest)
        end in
      match fpart with
      | None => None
      | Some (m, nfrac, rest2) =>
          match exponent_part rest2 with
          | Some (ex, []) => Some (m, ex - nfrac)
          | _ => None
          end
      end
  end.

(** [float(s)] for a string: optional white space and sign, then [inf],
    [infinity], [nan] in any case or a decimal numeral (ASCII only).  [None]
    stands for [ValueError]. *)
Definition float_of_string (s : string) : option pyfloat :=
  let (neg, body) := sign_of (strip (list_ascii_of_string s)) in
  let low := lower_all body in
  if list_ascii_eqb low (list_ascii_of_string "inf")
     || list_ascii_eqb low (list_ascii_of_string "infinity")
  then Some (S754_infinity neg)
  else if list_ascii_eqb low (list_ascii_of_string "nan") then Some S754_nan
  else match float_numeral body with
       | Some (m, e) => Some (float_of_scaled neg m e)
       | None => None
       end.

(** ** Builtins on values *)

Definition of_option {A : Type} (e : exn) (o : option A) : result A :=
  match o with Some a => Ok a | None => Raise e end.

(** [int(v)] *)
Definition py_int (v : value) : result Z :=
  match v with
  | VInt z => Ok z
  | VBool b => Ok (if b then 1 else 0)
  | VFloat f => Z_of_float f
  | VStr s => of_option ValueError (int_of_string s)
  | VDecimal d => Ok (Z_of_decimal d)
  | VNone | VDatetime _ | VList _ | VDict _ => Raise TypeError
  end.

(** [float(v)] *)
Definition py_float (v : value) : result pyfloat :=
  match v with
  | VFloat f => Ok f
  | VInt z => float_of_Z z
  | VBool b => float_of_Z (if b then 1 else 0)
  | VStr s => of_option ValueError (float_of_string s)
  | VDecimal d => Ok (float_of_decimal d)
  | VNone | VDatetime _ | VList _ | VDict _ => Raise TypeError
  end.

(** [bool(v)] *)
Definition truthy (v : value) : bool :=
  match v with
  | VNone => false
  | VBool b => b
  | VInt z => negb (z =? 0)
  | VFloat (S754_zero _) => false
  | VFloat _ => true
  | VStr s => negb (String.eqb s "")
  | VDecimal d => negb (N.eqb (dec_coeff d) 0)
  | VDatetime _ => true
  | VList l => match l with [] => false | _ => true end
  | VDict d => match d with [] => false | _ => true end
  end.

(** [a or b] *)
Definition py_or (a b : value) : value := if truthy a then a else b.

(** [k in v] for a string [k]: key of a dict, element of a list, substring
    of a string; the other values are not containers. *)
Definition py_contains (k : string) (v : value) : result bool :=
  match v with
  | VDict d => Ok (has_key k d)
  | VList l =>
      Ok (existsb (fun x => match x with
                            | VStr s => String.eqb s k
                            | _ => false
                            end) l)
  | VStr s => Ok (is_substring k s)
  | _ => Raise TypeError
  end.

(** [v[k]] for a string [k] *)
Definition py_getitem (v : value) (k : string) : result value :=
  match v with
  | VDict d => of_option KeyError (assoc k d)
  | _ => Raise TypeError
  end.

(** [v.get(k)] *)
Definition py_get (v : value) (k : string) : result value :=
  match v with
  | VDict d => Ok match assoc k d with Some x => x | None => VNone end
  | _ => Raise AttributeError
  end.

(** [v.replace(a, b)] *)
Definition py_replace (v : value) (a b : ascii) : result string :=
  match v with
  | VStr s => Ok (str_replace a b s)
  | _ => Raise AttributeError
  end.

(** ** [datetime] *)

Definition is_leap (y : Z) : bool :=
  ((y mod 4 =? 0) && negb (y mod 100 =? 0)) || (y mod 400 =? 0).

Definition days_in_month (y m : Z) : Z :=
  if m =? 2 then (if is_leap y then 29 else 28)
  else if (m =? 4) || (m =? 6) || (m =? 9) || (m =? 11) then 30
  else 31.

Definition usec_per_day : Z := 86400 * 1000000.

(** The checks of the [datetime] constructor. *)
Definition valid_datetime (dt : datetime) : bool :=
  (1 <=? year dt) && (year dt <=? 9999)
  && (1 <=? month dt) && (month dt <=? 12)
  && (1 <=? day dt) && (day dt <=? days_in_month (year dt) (month dt))
  && (0 <=? hour dt) && (hour dt <=? 23)
  && (0 <=? minute dt) && (minute dt <=? 59)
  && (0 <=? second dt) && (second dt <=? 59)
  && (0 <=? microsecond dt) && (microsecond dt <=? 999999)
  && match tzoffset dt with
     | Some off => (- usec_per_day <? off) && (off <? usec_per_day)
     | None => true
     end.

(** Exactly [n] decimal digits. *)
Fixpoint n_digits (n : nat) (s : list ascii) (acc : Z)
  : option (Z * list ascii) :=
  match n with
  | O => Some (acc, s)
  | S n' =>
      match s with
      | c :: s' =>
          if is_digit c then n_digits n' s' (10 * acc + digit_val c)
          else None
      | [] => None
      end
  end.

(** [.fff] or [.ffffff], the whole of [s]: microseconds. *)
Definition parse_fraction (s : list ascii) : option Z :=
  match List.length s with
  | 3%nat => match n_digits 3 s 0 with
             | Some (v, _) => Some (v * 1000)
             | None => None
             end
  | 6%nat => match n_digits 6 s 0 with
             | Some (v, _) => Some v
             | None => None
             end
  | _ => None
  end.

(** [HH[:MM[:SS[.fff[fff]]]]], the whole of [s]. *)
Definition parse_hh_mm_ss_ff (s : list ascii) : option (Z * Z * Z * Z) :=
  match n_digits 2 s 0 with
  | Some (h, []) => Some (h, 0, 0, 0)
  | Some (h, c1 :: r1) =>
      if negb (Ascii.eqb c1 ":") then None else
      match n_digits 2 r1 0 with
      | Some (m, []) => Some (h, m, 0, 0)
      | Some (m, c2 :: r2) =>
          if negb (Ascii.eqb c2 ":") then None else
          match n_digits 2 r2 0 with
          | Some (sec, []) => Some (h, m, sec, 0)
          | Some (sec, c3 :: r3) =>
              if negb (Ascii.eqb c3 ".") then None else
              match parse_fraction r3 with
              | Some us => Some (h, m, sec, us)
              | None => None
              end
          | None => None
          end
      | None => None
      end
  | None => None
  end.

(** Splits a time string before its first ["+"] or ["-"]. *)
Fixpoint split_tz (s : list ascii) : list ascii * list ascii :=
  match s with
  | c :: s' =>
      if Ascii.eqb c "+" || Ascii.eqb c "-" then ([], s)
      else let (a, b) := split_tz s' in (c :: a, b)
  | [] => ([], [])
  end.

(** [+HH:MM[:SS[.ffffff]]]: the offset in microseconds. *)
Definition parse_tz (s : list ascii) : option Z :=
  match s with
  | c :: s' =>
      let n := List.length s in
      if negb (Nat.eqb n 6 || Nat.eqb n 9 || Nat.eqb n 16) then None else
      match parse_hh_mm_ss_ff s' with
      | Some (h, m, sec, us) =>
          let off := ((h * 3600 + m * 60 + sec) * 1000000 + us) in
          Some (if Ascii.eqb c "-" then - off else off)
      | None => None
      end
  | [] => None
  end.

(** The time part of an ISO string: [(hour, minute, second, microsecond,
    tzoffset)]. *)
Definition parse_isoformat_time (s : list ascii)
  : option (Z * Z * Z * Z * option Z) :=
  let (t, tz) := split_tz s in
  match parse_hh_mm_ss_ff t with
  | Some (h, m, sec, us) =>
      match tz with
      | [] => Some (h, m, sec, us, None)
      | _ => match parse_tz tz with
             | Some off => Some (h, m, sec, us, Some off)
             | None => None
             end
      end
  | None => None
  end.

(** [YYYY-MM-DD] at the head of [s]. *)
Definition parse_isoformat_date (s : list ascii)
  : option (Z * Z * Z * list ascii) :=
  match n_digits 4 s 0 with
  | Some (y, c1 :: r1) =>
      if negb (Ascii.eqb c1 "-") then None else
      match n_digits 2 r1 0 with
      | Some (m, c2 :: r2) =>
          if negb (Ascii.eqb c2 "-") then None else
          match n_digits 2 r2 0 with
          | Some (d, rest) => Some (y, m, d, rest)
          | None => None
          end
      | _ => None
      end
  | _ => None
  end.

(** [datetime.fromisoformat(s)], for the format [isoformat] writes:
    [YYYY-MM-DD[*HH[:MM[:SS[.fff[fff]]]][+HH:MM[:SS[.ffffff]]]]], [*] any one
    character.  [None] stands for [ValueError]. *)
Definition fromisoformat (s : string) : option datetime :=
  match parse_isoformat_date (list_ascii_of_string s) with
  | Some (y, m, d, rest) =>
      let time :=
        match rest with
        | [] => Some (0, 0, 0, 0, None)
        | _ :: tstr => parse_isoformat_time tstr
        end in
      match time with
      | Some (h, mi, sec, us, tz) =>
          let dt := mkDatetime y m d h mi sec us tz in
          if valid_datetime dt then Some dt else None
      | None => None
      end
  | None => None
  end.

(** [n] as [w] decimal digits, zero-padded ([n] below [10^w]). *)
Fixpoint pad (w : nat) (n : Z) : string :=
  match w with
  | O => ""
  | S w' => pad w' (n / 10) ++ String (ascii_of_Z (48 + n mod 10)) ""
  end.

(** The UTC offset as [isoformat] appends it. *)
Definition format_offset (off : Z) : string :=
  let a := Z.abs off in
  let hh := a / (3600 * 1000000) in
  let mm := (a / (60 * 1000000)) mod 60 in
  let ss := (a / 1000000) mod 60 in
  let us := a mod 1000000 in
  (if off <? 0 then "-" else "+") ++ pad 2 hh ++ ":" ++ pad 2 mm
  ++ (if (ss =? 0) && (us =? 0) then ""
      else ":" ++ pad 2 ss ++ (if us =? 0 then "" else "." ++ pad 6 us)).

(** [dt.isoformat(sep=" ", timespec="seconds")] *)
Definition isoformat_seconds (dt : datetime) : string :=
  pad 4 (year dt) ++ "-" ++ pad 2 (month dt) ++ "-" ++ pad 2 (day dt)
  ++ " " ++ pad 2 (hour dt) ++ ":" ++ pad 2 (minute dt)
  ++ ":" ++ pad 2 (second dt)
  ++ match tzoffset dt with Some off => format_offset off | None => "" end.

(** ** The driver *)

(** What a buffered cursor holds after [cur.execute]: [cur.rowcount],
    [cur.lastrowid] and the rows [fetchall] and [fetchone] read. *)
Record cursor : Type := mkCursor {
  rowcount : Z;
  lastrowid : Z;
  fetched : list row
}.

(** The MySQL driver and the server behind it.  Every call that reaches the
    server may raise; [world] is whatever the outcome of the calls depends
    on. *)
Record Driver : Type := mkDriver {
  world : Type;
  connection : Type;
  drv_connect : world -> result connection * world;
  drv_open : connection -> world -> bool;
  drv_ping : connection -> world -> result unit * world;
  drv_execute :
    connection -> string -> list value -> world -> result cursor * world;
  drv_commit : connection -> world -> result unit * world;
  drv_rollback : connection -> world -> result unit * world;
  drv_close : connection -> world -> result unit * world
}.

(** The driver calls, as the trace records them. *)
Inductive call : Type :=
| CConnect
| CPing
| CExecute (q : string) (params : list value)
| CCommit
| CRollback
| CClose.

Record event : Type := mkEvent {
  ev_call : call;
  ev_raised : option exn
}.

Definition returned (c : call) : event := mkEvent c None.

(** The exception a call ended with, if any. *)
Definition raised {A : Type} (r : result A) : option exn :=
  match r with Raise e => Some e | Ok _ => None end.

Section Monad.

Context {D : Driver}.

(** [st_conn] is the [conn] attribute of the [DB] objects, by creation
    order; [st_trace] lists the driver calls made, oldest first. *)
Record state : Type := mkState {
  st_world : world D;
  st_conn : list (option (connection D));
  st_trace : list event
}.

Definition M (A : Type) : Type := state -> result A * state.

Definition ret {A : Type} (a : A) : M A := fun st => (Ok a, st).

Definition raise {A : Type} (e : exn) : M A := fun st => (Raise e, st).

Definition bind {A B : Type} (c : M A) (k : A -> M B) : M B :=
  fun st =>
    match c st with
    | (Ok a, st') => k a st'
    | (Raise e, st') => (Raise e, st')
    end.

Definition lift {A : Type} (r : result A) : M A := fun st => (r, st).

(** [try: body / except ...: handler]: [handler e] is [None] when no
    [except] clause matches [e]. *)
Definition try_except {A : Type} (body : M A) (handler : exn -> option (M A))
  : M A :=
  fun st =>
    match body st with
    | (Ok a, st') => (Ok a, st')
    | (Raise e, st') =>
        match handler e with
        | Some h => h st'
        | None => (Raise e, st')
        end
    end.

(** [try: body / finally: fin]: an exception of [fin] replaces the outcome
    of [body]. *)
Definition try_finally {A : Type} (body : M A) (fin : M unit) : M A :=
  fun st =>
    match body st with
    | (r, st') =>
        match fin st' with
        | (Ok _, st'') => (r, st'')
        | (Raise e, st'') => (Raise e, st'')
        end
    end.

(** One driver call, recorded in the trace with its outcome. *)
Definition driver_call {A : Type} (c : call)
  (f : world D -> result A * world D) : M A :=
  fun st =>
    match f (st_world st) with
    | (r, w) =>
        (r, mkState w (st_conn st) (st_trace st ++ [mkEvent c (raised r)]))
    end.

End Monad.

Arguments state D : clear implicits.
Arguments M D A : clear implicits.

Declare Scope monad_scope.
Delimit Scope monad_scope with monad.
Notation "x <- c ;; k" := (bind c (fun x => k))
  (at level 61, c at next level, right associativity) : monad_scope.
Notation "c ;;; k" := (bind c (fun _ => k))
  (at level 61, right associativity) : monad_scope.
Open Scope monad_scope.

(** ** The [DB] helper *)

Section DB.

Context {D : Driver}.

(** A [DB] object is its position in [st_conn]. *)
Definition db : Type := nat.

(** [self.conn] *)
Definition get_conn (self : db) : M D (option (connection D)) :=
  fun st => (Ok (nth self (st_conn st) None), st).

Fixpoint set_nth {A : Type} (n : nat) (a : A) (l : list A) : list A :=
  match n, l with
  | O, _ :: l' => a :: l'
  | S n', x :: l' => x :: set_nth n' a l'
  | _, [] => []
  end.

(** [self.conn = c] *)
Definition set_conn (self : db) (c : option (connection D)) : M D unit :=
  fun st =>
    (Ok tt, mkState (st_world st) (set_nth self c (st_conn st)) (st_trace st)).

(** [get_db()]: a new object, [conn] is [None]. *)
Definition get_db : M D db :=
  fun st =>
    (Ok (List.length (st_conn st)),
     mkState (st_world st) (st_conn st ++ [None]) (st_trace st)).

(** [self.conn.m(...)]: an attribute of [None] is an [AttributeError]. *)
Definition with_conn {A : Type} (self : db) (k : connection D -> M D A)
  : M D A :=
  c <- get_conn self ;;
  match c with
  | Some c => k c
  | None => raise AttributeError
  end.

Definition DB_connect (self : db) : M D unit :=
  try_except
    (c <- get_conn self ;;
     let fresh :=
       c' <- driver_call CConnect (drv_connect D) ;;
       set_conn self (Some c') in
     match c with
     | None => fresh
     | Some c =>
         fun st =>
           if negb (drv_open D c (st_world st)) then fresh st
           else driver_call CPing (drv_ping D c) st
     end)
    (fun e => if is_pymysql_Error e then Some (raise e) else None).

Definition DB_disconnect (self : db) : M D unit :=
  try_finally
    (c <- get_conn self ;;
     match c with
     | Some c => driver_call CClose (drv_close D c)
     | None => ret tt
     end)
    (set_conn self None).

(** [cur.execute(query, params or ())] on a new cursor of [self.conn]. *)
Definition cur_execute (self : db) (query : string) (params : list value)
  : M D cursor :=
  with_conn self (fun c =>
    driver_call (CExecute query params) (drv_execute D c query params)).

Definition DB_fetch_all (self : db) (query : string) (params : list value)
  : M D (list row) :=
  DB_connect self ;;;
  try_finally
    (cur <- cur_execute self query params ;;
     ret (fetched cur))
    (DB_disconnect self).

Definition DB_fetch_one (self : db) (query : string) (params : list value)
  : M D (option row) :=
  DB_connect self ;;;
  try_finally
    (cur <- cur_execute self query params ;;
     ret (hd_error (fetched cur)))
    (DB_disconnect self).

Definition DB_execute (self : db) (query : string) (params : list value)
  : M D (Z * Z) :=
  DB_connect self ;;;
  try_finally
    (try_except
       (cur <- cur_execute self query params ;;
        with_conn self (fun c => driver_call CCommit (drv_commit D c)) ;;;
        ret (rowcount cur, lastrowid cur))
       (fun e =>
          Some (with_conn self (fun c =>
                  driver_call CRollback (drv_rollback D c)) ;;;
                raise e)))
    (DB_disconnect self).

End DB.

(** ** Utilities *)

Definition convert_value (v : value) : value :=
  match v with
  | VDecimal d => VFloat (float_of_decimal d)
  | VDatetime dt => VStr (isoformat_seconds dt)
  | _ => v
  end.

(** [{k: convert_value(v) for k, v in r.items()}] *)
Definition convert_row (r : value) : result value :=
  match r with
  | VDict d => Ok (VDict (map (fun kv => (fst kv, convert_value (snd kv))) d))
  | _ => Raise AttributeError
  end.

Fixpoint convert_rows (l : list value) : result (list value) :=
  match l with
  | [] => Ok []
  | r :: l' =>
      match convert_row r with
      | Ok r' =>
          match convert_rows l' with
          | Ok l'' => Ok (r' :: l'')
          | Raise e => Raise e
          end
      | Raise e => Raise e
      end
  end.

Definition as_json (row_or_rows : value) : result value :=
  match row_or_rows with
  | VNone => Ok VNone
  | VList l =>
      match convert_rows l with
      | Ok l' => Ok (VList l')
      | Raise e => Raise e
      end
  | _ => convert_row row_or_rows
  end.

(** What [fetch_one] and [fetch_all] hand to [as_json]. *)
Definition value_of_row (r : option row) : value :=
  match r with Some r => VDict r | None => VNone end.

Definition value_of_rows (l : list row) : value := VList (map VDict l).

(** A response: the JSON document given to [jsonify] and the status. *)
Record response : Type := mkResponse {
  body : value;
  status : Z
}.

Definition jsonify (v : value) : response := mkResponse v 200.

Definition error_body (code : Z) (message : string) : value :=
  VDict [("error", VDict [("code", VInt code); ("message", VStr message)])].

Definition bad_request (message : string) (code : Z) : response :=
  mkResponse (error_body code message) code.

(** The request: [request.is_json], [request.get_json(silent=True)] ([None]
    for an empty or unparseable body) and [request.args]. *)
Record request : Type := mkRequest {
  is_json : bool;
  get_json : value;
  args : list (string * string)
}.

Definition require_json (req : request) : value * option response :=
  if negb (is_json req)
  then (VNone, Some (bad_request "Content-Type must be application/json" 415))
  else (py_or (get_json req) (VDict []), None).

(** [request.args.get(k, default)] handed to [int]. *)
Fixpoint args_get (k : string) (l : list (string * string)) : option string :=
  match l with
  | [] => None
  | (k', v) :: l' => if String.eqb k k' then Some v else args_get k l'
  end.

Definition int_arg (req : request) (k : string) (default : Z) : result Z :=
  match args_get k (args req) with
  | Some s => py_int (VStr s)
  | None => py_int (VInt default)
  end.

(** [[k for k in required if k not in data]] *)
Fixpoint missing_fields (required : list string) (data : value)
  : result (list string) :=
  match required with
  | [] => Ok []
  | k :: ks =>
      match py_contains k data with
      | Ok present =>
          match missing_fields ks data with
          | Ok m => Ok (if present then m else k :: m)
          | Raise e => Raise e
          end
      | Raise e => Raise e
      end
  end.

Definition missing_message (missing : list string) : string :=
  "Missing fields: " ++ String.concat ", " missing.

(** The [except] clauses the write handlers share:
    [except pymysql.err.IntegrityError as e] answers with [e.args[1]],
    [except Exception] with [failed]. *)
Definition on_integrity_error {D : Driver} (e : exn) : option (M D response) :=
  match e with
  | PyMySQL IntegrityError _ errval =>
      Some (ret (bad_request ("Integrity error: " ++ errval) 400))
  | _ => None
  end.

Definition on_exception {D : Driver} (failed : string) (e : exn)
  : option (M D response) :=
  Some (ret (bad_request failed 400)).

Definition first_of {A : Type} (h1 h2 : exn -> option A) (e : exn) : option A :=
  match h1 e with Some a => Some a | None => h2 e end.

(** ** Route handlers *)

Section Handlers.

Context {D : Driver}.

Definition q_health : string := "SELECT 1 as ok".
Definition q_list_sensors : string :=
  "SELECT sensor_id, mac_addr, device_id, device_location FROM sensors ORDER BY sensor_id ASC".
Definition q_get_sensor : string :=
  "SELECT sensor_id, mac_addr, device_id, device_location FROM sensors WHERE sensor_id=%s".
Definition q_insert_sensor : string :=
  "
            INSERT INTO sensors (sensor_id, mac_addr, device_id, device_location)
            VALUES (%s, %s, %s, %s)
        ".
Definition q_insert_log : string :=
  "
            INSERT INTO temperature_log (read_time, sensor_id, temperature_f, humidity, pressure)
            VALUES (%s, %s, %s, %s, %s)
        ".
Definition q_get_log : string := "SELECT * FROM temperature_log WHERE log_id=%s".
Definition q_list_logs : string :=
  "SELECT * FROM temperature_log ORDER BY log_id DESC LIMIT %s OFFSET %s".
Definition q_delete_log : string := "DELETE FROM temperature_log WHERE log_id=%s".
Definition q_update (table : string) (sets : list string) (key : string)
  : string :=
  "UPDATE " ++ table ++ " SET " ++ String.concat ", " sets
  ++ " WHERE " ++ key ++ "=%s".

Definition read_time_message : string :=
  "read_time must be ISO-like (e.g., '2025-09-24 13:05:00')".

(** [not row] for the outcome of [fetch_one] *)
Definition no_row (r : option row) : bool := negb (truthy (value_of_row r)).

Definition home : M D response :=
  ret (jsonify (VDict [("message", VStr "Temperature Logger API")])).

Definition health : M D response :=
  try_except
    (db <- get_db ;;
     DB_fetch_one db q_health [] ;;;
     ret (jsonify (VDict [("status", VStr "ok")])))
    (fun _ =>
       Some (ret (mkResponse (VDict [("status", VStr "degraded")]) 503))).

Definition list_sensors : M D response :=
  db <- get_db ;;
  rows <- DB_fetch_all db q_list_sensors [] ;;
  j <- lift (as_json (value_of_rows rows)) ;;
  ret (jsonify j).

Definition get_sensor (sensor_id : Z) : M D response :=
  db <- get_db ;;
  r <- DB_fetch_one db q_get_sensor [VInt sensor_id] ;;
  if no_row r
  then ret (bad_request ("Sensor " ++ str_of_Z sensor_id ++ " not found") 404)
  else j <- lift (as_json (value_of_row r)) ;; ret (jsonify j).

Definition sensor_required : list string :=
  ["sensor_id"; "mac_addr"; "device_id"; "device_location"].

Definition create_sensor (req : request) : M D response :=
  match require_json req with
  | (_, Some err) => ret err
  | (data, None) =>
      missing <- lift (missing_fields sensor_required data) ;;
      match missing with
      | _ :: _ => ret (bad_request (missing_message missing) 400)
      | [] =>
          try_except
            (db <- get_db ;;
             v <- lift (py_getitem data "sensor_id") ;;
             sid <- lift (py_int v) ;;
             mac <- lift (py_getitem data "mac_addr") ;;
             dev <- lift (py_getitem data "device_id") ;;
             loc <- lift (py_getitem data "device_location") ;;
             DB_execute db q_insert_sensor [VInt sid; mac; dev; loc] ;;;
             db' <- get_db ;;
             v' <- lift (py_getitem data "sensor_id") ;;
             sid' <- lift (py_int v') ;;
             created <- DB_fetch_one db' q_get_sensor [VInt sid'] ;;
             j <- lift (as_json (value_of_row created)) ;;
             ret (mkResponse
                    (VDict [("message", VStr "sensor created"); ("sensor", j)])
                    201))
            (first_of on_integrity_error
               (on_exception "Failed to create sensor"))
      end
  end.

(** The loop of [update_sensor] over the updatable keys: the [SET] items
    and their parameters. *)
Fixpoint collect_fields (keys : list string) (data : value)
  : result (list string * list value) :=
  match keys with
  | [] => Ok ([], [])
  | k :: ks =>
      match py_contains k data with
      | Raise e => Raise e
      | Ok false => collect_fields ks data
      | Ok true =>
          match py_getitem data k with
          | Raise e => Raise e
          | Ok v =>
              match collect_fields ks data with
              | Ok (fields, params) => Ok ((k ++ "=%s") :: fields, v :: params)
              | Raise e => Raise e
              end
          end
      end
  end.

Definition sensor_updatable : list string :=
  ["mac_addr"; "device_id"; "device_location"].

Definition update_sensor (sensor_id : Z) (req : request) : M D response :=
  match require_json req with
  | (_, Some err) => ret err
  | (data, None) =>
      fp <- lift (collect_fields sensor_updatable data) ;;
      match fp with
      | ([], _) => ret (bad_request "No updatable fields provided" 400)
      | (fields, params) =>
          try_except
            (db <- get_db ;;
             rc <- DB_execute db (q_update "sensors" fields "sensor_id")
                     (params ++ [VInt sensor_id]) ;;
             if fst rc =? 0
             then ret (bad_request
                         ("Sensor " ++ str_of_Z sensor_id ++ " not found") 404)
             else
               db' <- get_db ;;
               updated <- DB_fetch_one db' q_get_sensor [VInt sensor_id] ;;
               j <- lift (as_json (value_of_row updated)) ;;
               ret (jsonify
                      (VDict [("message", VStr "sensor updated");
                              ("sensor", j)])))
            (on_exception "Failed to update sensor")
      end
  end.

Definition log_required : list string :=
  ["sensor_id"; "temperature_f"; "humidity"; "pressure"].

Definition float_value (v : value) : result value :=
  match py_float v with Ok f => Ok (VFloat f) | Raise e => Raise e end.

Definition int_value (v : value) : result value :=
  match py_int v with Ok z => Ok (VInt z) | Raise e => Raise e end.

(** [read_time.replace("T", " ")] then [datetime.fromisoformat]. *)
Definition parse_read_time (v : value) : result datetime :=
  match py_replace v "T" " " with
  | Ok rt => of_option ValueError (fromisoformat rt)
  | Raise e => Raise e
  end.

(** [utcnow] is the reading of [datetime.utcnow()] during the request. *)
Definition create_temperature (utcnow : datetime) (req : request)
  : M D response :=
  match require_json req with
  | (_, Some err) => ret err
  | (data, None) =>
      missing <- lift (missing_fields log_required data) ;;
      match missing with
      | _ :: _ => ret (bad_request (missing_message missing) 400)
      | [] =>
          read_time <- lift (py_get data "read_time") ;;
          let insert (dt : datetime) : M D response :=
            try_except
              (db <- get_db ;;
               v1 <- lift (py_getitem data "sensor_id") ;;
               sid <- lift (int_value v1) ;;
               v2 <- lift (py_getitem data "temperature_f") ;;
               t <- lift (float_value v2) ;;
               v3 <- lift (py_getitem data "humidity") ;;
               h <- lift (float_value v3) ;;
               v4 <- lift (py_getitem data "pressure") ;;
               p <- lift (float_value v4) ;;
               rc <- DB_execute db q_insert_log [VDatetime dt; sid; t; h; p] ;;
               db' <- get_db ;;
               created <- DB_fetch_one db' q_get_log [VInt (snd rc)] ;;
               j <- lift (as_json (value_of_row created)) ;;
               ret (mkResponse
                      (VDict [("message", VStr "log created"); ("log", j)])
                      201))
              (first_of on_integrity_error
                 (on_exception "Failed to create log")) in
          if truthy read_time then
            match parse_read_time read_time with
            | Ok dt => insert dt
            | Raise _ => ret (bad_request read_time_message 400)
            end
          else insert utcnow
      end
  end.

Definition list_temperatures (req : request) : M D response :=
  let parsed :=
    match int_arg req "limit" 100 with
    | Ok l =>
        match int_arg req "offset" 0 with
        | Ok o => Ok (Z.min l 1000, o)
        | Raise e => Raise e
        end
    | Raise e => Raise e
    end in
  match parsed with
  | Raise e =>
      if is_ValueError e
      then ret (bad_request "limit and offset must be integers" 400)
      else raise e
  | Ok (limit, offset) =>
      db <- get_db ;;
      rows <- DB_fetch_all db q_list_logs [VInt limit; VInt offset] ;;
      j <- lift (as_json (value_of_rows rows)) ;;
      ret (jsonify j)
  end.

Definition get_log (log_id : Z) : M D response :=
  db <- get_db ;;
  r <- DB_fetch_one db q_get_log [VInt log_id] ;;
  if no_row r
  then ret (bad_request ("log " ++ str_of_Z log_id ++ " not found") 404)
  else j <- lift (as_json (value_of_row r)) ;; ret (jsonify j).

(** The validation blocks of [update_log] either leave the handler with a
    response or go on with the [SET] items and parameters gathered so far. *)
Definition gathered : Type := (list string * list value)%type.

Definition read_time_field (data : value) (acc : gathered)
  : M D (response + gathered) :=
  present <- lift (py_contains "read_time" data) ;;
  if present : bool then
    try_except
      (v <- lift (py_getitem data "read_time") ;;
       dt <- lift (parse_read_time v) ;;
       ret (inr ((fst acc ++ ["read_time=%s"])%list,
                 (snd acc ++ [VDatetime dt])%list)))
      (fun _ => Some (ret (inl (bad_request read_time_message 400))))
  else ret (inr acc).

(** [if k in data: sets.append(...); try: params.append(conv(data[k]))
    except ValueError: return bad_request(message)] *)
Definition number_field (k : string) (conv : value -> result value)
  (message : string) (data : value) (acc : gathered)
  : M D (response + gathered) :=
  present <- lift (py_contains k data) ;;
  if present : bool then
    try_except
      (v <- lift (py_getitem data k) ;;
       x <- lift (conv v) ;;
       ret (inr ((fst acc ++ [(k ++ "=%s")%string])%list,
                 (snd acc ++ [x])%list)))
      (fun e =>
         if is_ValueError e then Some (ret (inl (bad_request message 400)))
         else None)
  else ret (inr acc).

Definition and_then {X Y : Type} (c : M D (response + X))
  (k : X -> M D (response + Y)) : M D (response + Y) :=
  r <- c ;;
  match r with
  | inl resp => ret (inl resp)
  | inr x => k x
  end.

(** The validation of [update_log], from the first [if] to the last. *)
Definition validate_log (data : value) : M D (response + gathered) :=
  and_then (read_time_field data ([], []))
    (fun acc =>
  and_then (number_field "sensor_id" int_value
              "sensor_id must be an integer" data acc)
    (fun acc =>
  and_then (number_field "temperature_f" float_value
              "temperature_f must be a number" data acc)
    (fun acc =>
  and_then (number_field "humidity" float_value
              "humidity must be a number" data acc)
    (fun acc =>
  number_field "pressure" float_value
    "pressure must be a number" data acc)))).

Definition update_log (log_id : Z) (req : request) : M D response :=
  match require_json req with
  | (_, Some err) => ret err
  | (data, None) =>
      v <- validate_log data ;;
      match v with
      | inl resp => ret resp
      | inr ([], _) => ret (bad_request "No updatable fields provided" 400)
      | inr (sets, params) =>
          try_except
            (db <- get_db ;;
             rc <- DB_execute db (q_update "temperature_log" sets "log_id")
                     (params ++ [VInt log_id]) ;;
             if fst rc =? 0
             then ret (bad_request
                         ("log " ++ str_of_Z log_id ++ " not found") 404)
             else
               db' <- get_db ;;
               updated <- DB_fetch_one db' q_get_log [VInt log_id] ;;
               j <- lift (as_json (value_of_row updated)) ;;
               ret (jsonify
                      (VDict [("message", VStr "log updated"); ("log", j)])))
            (first_of on_integrity_error
               (on_exception "Failed to update log"))
      end
  end.

Definition delete_log (log_id : Z) : M D response :=
  try_except
    (db <- get_db ;;
     rc <- DB_execute db q_delete_log [VInt log_id] ;;
     if fst rc =? 0
     then ret (bad_request ("log " ++ str_of_Z log_id ++ " not found") 404)
     else ret (jsonify (VDict [("message", VStr "log deleted");
                               ("log_id", VInt log_id)])))
    (on_exception "Failed to delete log").

End Handlers.

(** ** A scripted driver

    A test double: every call answers what the script says.  [on_execute]
    lists the outcomes of the successive [cur.execute] calls; past its end a
    statement returns an empty result. *)

Record script : Type := mkScript {
  on_connect : option exn;
  on_execute : list (result cursor);
  on_commit : option exn;
  on_rollback : option exn;
  on_close : option exn
}.

Definition outcome (o : option exn) : result unit :=
  match o with Some e => Raise e | None => Ok tt end.

Definition scripted : Driver := {|
  world := script;
  connection := unit;
  drv_connect w := (outcome (on_connect w), w);
  drv_open _ _ := true;
  drv_ping _ w := (Ok tt, w);
  drv_execute _ _ _ w :=
    match on_execute w with
    | r :: rs =>
        (r, mkScript (on_connect w) rs (on_commit w) (on_rollback w)
              (on_close w))
    | [] => (Ok (mkCursor 0 0 []), w)
    end;
  drv_commit _ w := (outcome (on_commit w), w);
  drv_rollback _ w := (outcome (on_rollback w), w);
  drv_close _ w := (outcome (on_close w), w)
|}.

(** The state a request starts in: no [DB] object yet, an empty trace. *)
Definition initial {D : Driver} (w : world D) : state D := mkState w [] [].

(** ** A reference server for [temperature_log]

    Modelled from the spec: the database and its schema are external to the
    repository; section 6 of the specification gives the table
    [temperature_log(log_id PK auto-increment, read_time, sensor_id FK ->
    sensors, temperature_f, humidity, pressure)].  The server below answers
    the four statements the handlers send against that table, inside a
    transaction that only [commit] makes durable. *)

Record log_entry : Type := mkLog {
  log_id : Z;
  read_time : datetime;
  log_sensor : Z;
  temperature_f : pyfloat;
  humidity : pyfloat;
  pressure : pyfloat
}.

(** [sensors] holds the keys of the sensors table. *)
Record tables : Type := mkTables {
  sensors : list Z;
  temperature_log : list log_entry;
  next_log_id : Z
}.

(** [session] is the view of the open connection's transaction. *)
Record memdb_world : Type := mkMem {
  committed : tables;
  session : option tables
}.

Definition row_of_log (e : log_entry) : row :=
  [("log_id", VInt (log_id e));
   ("read_time", VDatetime (read_time e));
   ("sensor_id", VInt (log_sensor e));
   ("temperature_f", VFloat (temperature_f e));
   ("humidity", VFloat (humidity e));
   ("pressure", VFloat (pressure e))].

(** [ORDER BY log_id DESC] *)
Fixpoint insert_desc (e : log_entry) (l : list log_entry) : list log_entry :=
  match l with
  | [] => [e]
  | x :: l' =>
      if log_id x <=? log_id e then e :: l else x :: insert_desc e l'
  end.

Definition sort_desc (l : list log_entry) : list log_entry :=
  fold_right insert_desc [] l.

Definition is_finite (f : pyfloat) : bool :=
  match f with
  | S754_zero _ | S754_finite _ _ _ => true
  | S754_infinity _ | S754_nan => false
  end.

(** A stored DATETIME has no zone. *)
Definition naive (dt : datetime) : datetime :=
  mkDatetime (year dt) (month dt) (day dt) (hour dt) (minute dt) (second dt)
    (microsecond dt) None.

Definition syntax_error : exn :=
  PyMySQL ProgrammingError 1064 "You have an error in your SQL syntax".

Definition fk_error : exn :=
  PyMySQL IntegrityError 1452
    "Cannot add or update a child row: a foreign key constraint fails".

Definition select_cursor (l : list log_entry) : cursor :=
  mkCursor (Z.of_nat (List.length l)) 0 (map row_of_log l).

(** The rows [WHERE log_id = id] selects. *)
Definition select_log (id : Z) (t : tables) : list log_entry :=
  filter (fun e => log_id e =? id) (temperature_log t).

(** The rows [ORDER BY log_id DESC LIMIT limit OFFSET offset] selects. *)
Definition page (limit offset : Z) (t : tables) : list log_entry :=
  firstn (Z.to_nat limit)
    (skipn (Z.to_nat offset) (sort_desc (temperature_log t))).

(** The row an INSERT adds: the next id, the timestamp without zone. *)
Definition inserted (dt : datetime) (sid : Z) (tf h p : pyfloat) (t : tables)
  : log_entry :=
  mkLog (next_log_id t) (naive dt) sid tf h p.

Definition insert_into (e : log_entry) (t : tables) : tables :=
  mkTables (sensors t) (temperature_log t ++ [e])%list (next_log_id t + 1).

(** [DELETE ... WHERE log_id = id]: the row count and the tables left. *)
Definition deleted (id : Z) (t : tables) : Z :=
  Z.of_nat (List.length (select_log id t)).

Definition delete_from (id : Z) (t : tables) : tables :=
  mkTables (sensors t)
    (filter (fun e => negb (log_id e =? id)) (temperature_log t))
    (next_log_id t).

(** Modelled from the spec: one statement against the tables of the
    transaction; a negative LIMIT or OFFSET is a syntax error, a float that
    is no number is refused, a sensor that does not exist violates the
    foreign key. *)
Definition run_statement (q : string) (params : list value) (t : tables)
  : result cursor * tables :=
  if String.eqb q q_insert_log then
    match params with
    | [VDatetime dt; VInt sid; VFloat tf; VFloat h; VFloat p] =>
        if negb (is_finite tf && is_finite h && is_finite p)
        then (Raise (PyMySQL ProgrammingError 0 "can not be used with MySQL"),
              t)
        else if negb (existsb (Z.eqb sid) (sensors t))
        then (Raise fk_error, t)
        else
          (Ok (mkCursor 1 (next_log_id t) []),
           insert_into (inserted dt sid tf h p t) t)
    | _ => (Raise syntax_error, t)
    end
  else if String.eqb q q_get_log then
    match params with
    | [VInt id] => (Ok (select_cursor (select_log id t)), t)
    | _ => (Raise syntax_error, t)
    end
  else if String.eqb q q_list_logs then
    match params with
    | [VInt limit; VInt offset] =>
        if (limit <? 0) || (offset <? 0) then (Raise syntax_error, t)
        else (Ok (select_cursor (page limit offset t)), t)
    | _ => (Raise syntax_error, t)
    end
  else if String.eqb q q_delete_log then
    match params with
    | [VInt id] => (Ok (mkCursor (deleted id t) 0 []), delete_from id t)
    | _ => (Raise syntax_error, t)
    end
  else (Raise (PyMySQL NotSupportedError 0 "statement outside the model"), t).

Definition not_connected : exn := PyMySQL InterfaceError 0 "".

Definition in_session (w : memdb_world)
  (k : tables -> result unit * memdb_world) : result unit * memdb_world :=
  match session w with
  | Some t => k t
  | None => (Raise not_connected, w)
  end.

(** Modelled from the spec: the server behind the driver, for the table
    [temperature_log] of section 6.  [connect] opens a transaction on the
    committed tables, [commit] makes it durable, [rollback] and [close]
    drop it. *)
Definition memdb : Driver := {|
  world := memdb_world;
  connection := unit;
  drv_connect w := (Ok tt, mkMem (committed w) (Some (committed w)));
  drv_open _ w := match session w with Some _ => true | None => false end;
  drv_ping _ w := in_session w (fun _ => (Ok tt, w));
  drv_execute _ q params w :=
    match session w with
    | Some t =>
        let (r, t') := run_statement q params t in
        (r, mkMem (committed w) (Some t'))
    | None => (Raise not_connected, w)
    end;
  drv_commit _ w := in_session w (fun t => (Ok tt, mkMem t (Some t)));
  drv_rollback _ w :=
    in_session w (fun _ => (Ok tt, mkMem (committed w) (Some (committed w))));
  drv_close _ w := (Ok tt, mkMem (committed w) None)
|}.

(** The server between two requests: no connection is open. *)
Definition at_rest (t : tables) : memdb_world := mkMem t None.

(** * Vocabulary of the properties *)

(** ** The [DB] objects of a request *)

(** A [DB] object between two calls: it exists and holds no connection.
    [get_db] creates it so, and every method leaves it so. *)
Definition idle {D : Driver} (self : db) (st : state D) : Prop :=
  nth self (st_conn st) None = None /\ (self < List.length (st_conn st))%nat.

(** [get_db()]: the new object and the state it leaves. *)
Definition new_db {D : Driver} (st : state D) : db := List.length (st_conn st).

Definition after_get_db {D : Driver} (st : state D) : state D :=
  mkState (st_world st) (st_conn st ++ [None])%list (st_trace st).

(** The state of a request right after its first [get_db()]. *)
Definition one_db {D : Driver} (w : world D) : state D := mkState w [None] [].

(** A request arriving at the scripted driver, and at the reference server
    with tables [t]. *)
Definition on_script (w : script) : state scripted := initial (D:=scripted) w.

Definition on_tables (t : tables) : state memdb :=
  initial (D:=memdb) (at_rest t).

(** ** Exceptions through [try], [except] and [finally] *)

(** The exception that leaves a [try/except/finally] whose body raised [e],
    whose handler ended with [rb] before re-raising and whose [finally]
    ended with [cl]: the latest one. *)
Definition surviving {A B : Type} (e : exn) (rb : result A) (cl : result B)
  : exn :=
  match cl, rb with
  | Raise e3, _ => e3
  | Ok _, Raise e2 => e2
  | Ok _, Ok _ => e
  end.

(** The exception [surviving], read off the trace. *)
Definition survivor (e : exn) (rb cl : option exn) : exn :=
  match cl, rb with
  | Some e3, _ => e3
  | None, Some e2 => e2
  | None, None => e
  end.

(** A trace that opened a connection ends on the call of [close]. *)
Definition closes (evs : list event) : Prop :=
  In (returned CConnect) evs ->
  exists evs' cl, evs = (evs' ++ [mkEvent CClose cl])%list.

(** The outcome of a body that returned [a], after a [finally] that ended
    with [cl]. *)
Definition after_finally {A B : Type} (a : A) (cl : result B) : result A :=
  match cl with Ok _ => Ok a | Raise e => Raise e end.

(** ** Answers *)

(** [as_json] on what a fetch returns. *)
Definition json_row (r : row) : value :=
  VDict (map (fun kv => (fst kv, convert_value (snd kv))) r).

Definition json_of_row (r : option row) : value :=
  match r with Some r => json_row r | None => VNone end.

(** The row a log reads back as, after [as_json]. *)
Definition json_log (e : log_entry) : value := json_row (row_of_log e).

Definition not_found (what : string) (id : Z) : response :=
  bad_request (what ++ " " ++ str_of_Z id ++ " not found")%string 404.

(** The answer of [except IntegrityError as e: ... except Exception: ...]. *)
Definition write_failure (failed : string) (e : exn) : response :=
  match e with
  | PyMySQL IntegrityError _ errval =>
      bad_request ("Integrity error: " ++ errval)%string 400
  | _ => bad_request failed 400
  end.

(** The answer of a lone [except Exception: ...]. *)
Definition any_failure (failed : string) (e : exn) : response :=
  bad_request failed 400.

(** The read-back of the update handlers, inside their [try]. *)
Definition read_back {D : Driver} (q : string) (id : Z)
  (message key : string) (failure : exn -> response) (st : state D)
  : result response * state D :=
  match DB_fetch_one (new_db st) q [VInt id] (after_get_db st) with
  | (Ok r, st') =>
      (Ok (jsonify (VDict [("message", VStr message); (key, json_of_row r)])),
       st')
  | (Raise e, st') => (Ok (failure e), st')
  end.

(** ** Tables and timestamps *)

(** [ORDER BY log_id DESC]: every row is followed by rows of no greater id. *)
Definition newest_first (l : list log_entry) : Prop :=
  StronglySorted (fun a b => log_id b <= log_id a) l.

(** Ids are handed out in increasing order: every stored id is below the
    next one. *)
Definition ids_below_next (t : tables) : Prop :=
  Forall (fun e => log_id e < next_log_id t) (temperature_log t).

(** The fixed format [YYYY-MM-DD HH:MM:SS]. *)
Definition is_timestamp (s : string) : bool :=
  match list_ascii_of_string s with
  | [y1; y2; y3; y4; a; m1; m2; b; d1; d2; sp; h1; h2; c; n1; n2; c'; s1; s2] =>
      is_digit y1 && is_digit y2 && is_digit y3 && is_digit y4
      && Ascii.eqb a "-" && is_digit m1 && is_digit m2
      && Ascii.eqb b "-" && is_digit d1 && is_digit d2
      && Ascii.eqb sp " " && is_digit h1 && is_digit h2
      && Ascii.eqb c ":" && is_digit n1 && is_digit n2
      && Ascii.eqb c' ":" && is_digit s1 && is_digit s2
  | _ => false
  end.

(** The decimal digit of [k]'s last place, as a character. *)
Definition digit_char (k : Z) : ascii := ascii_of_Z (48 + k mod 10).

(** The seconds of a timestamp, without its microseconds. *)
Definition to_seconds (dt : datetime) : datetime :=
  mkDatetime (year dt) (month dt) (day dt) (hour dt) (minute dt) (second dt)
    0 (tzoffset dt).

(** ** Drivers, tables and requests of the examples *)

Definition always_ok : script := mkScript None [] None None None.

(** The first statement raises [e]. *)
Definition rejects (e : exn) : script :=
  mkScript None [Raise e] None None None.

Definition lost_connection : exn :=
  PyMySQL OperationalError 2013 "Lost connection to MySQL server during query".

(** The server goes away during the statement; the driver then refuses
    [rollback] on the dead connection. *)
Definition connection_lost : script :=
  mkScript None [Raise lost_connection] None (Some not_connected) None.

Definition cannot_connect : exn :=
  PyMySQL OperationalError 2003 "Can't connect to MySQL server".

Definition server_down : script :=
  mkScript (Some cannot_connect) [] None None None.

Definition duplicate_entry : exn :=
  PyMySQL IntegrityError 1062 "Duplicate entry '1' for key 'PRIMARY'".

Definition null_column : exn :=
  PyMySQL IntegrityError 1048 "Column 'mac_addr' cannot be null".

Definition noon : datetime := mkDatetime 2025 9 24 13 5 0 0 None.

Definition one_log : tables :=
  mkTables [1]
    [mkLog 7 noon 1 (S754_zero false) (S754_zero false) (S754_zero false)] 8.

Definition post_mac_only : request :=
  mkRequest true (VDict [("mac_addr", VStr "AA:BB:CC:DD:EE:FF")]) [].

Definition post_noon : list (string * value) :=
  [("sensor_id", VInt 1); ("temperature_f", VStr "72.5");
   ("humidity", VStr "44.3"); ("pressure", VInt 995);
   ("read_time", VStr "2025-09-24T13:05:00")].

Definition limit_5000 : request := mkRequest false VNone [("limit", "5000")].

(** * The service as a whole *)

(** ** Routing *)

(** The routes the decorators of [app.py] declare, each with what the
    handler receives: the id of the URL and the request. *)
Inductive route : Type :=
| GetHome
| GetHealth
| GetSensors
| GetSensor (sensor_id : Z)
| PostSensor (req : request)
| PutSensor (sensor_id : Z) (req : request)
| PostTemperature (req : request)
| GetTemperatures (req : request)
| GetTemperature (log_id : Z)
| PutTemperature (log_id : Z) (req : request)
| DeleteTemperature (log_id : Z).

(** The handler of a route; [utcnow] is the clock during the request. *)
Definition handle {D : Driver} (utcnow : datetime) (r : route)
  : M D response :=
  match r with
  | GetHome => home
  | GetHealth => health
  | GetSensors => list_sensors
  | GetSensor sensor_id => get_sensor sensor_id
  | PostSensor req => create_sensor req
  | PutSensor sensor_id req => update_sensor sensor_id req
  | PostTemperature req => create_temperature utcnow req
  | GetTemperatures req => list_temperatures req
  | GetTemperature log_id => get_log log_id
  | PutTemperature log_id req => update_log log_id req
  | DeleteTemperature log_id => delete_log log_id
  end.

(** The state after a sequence of requests, one after the other; a request
    whose handler raises leaves its state behind like any other. *)
Fixpoint serve {D : Driver} (requests : list (datetime * route))
  (st : state D) : state D :=
  match requests with
  | [] => st
  | (utcnow, r) :: requests' => serve requests' (snd (handle utcnow r st))
  end.

(** ** The discipline of a connection *)

(** Reads a trace against the life of a connection: [connect] only while
    none is open, statements, [commit] and [rollback] only on the open one,
    [close] only on the open one, [ping] never.  The result says whether a
    connection is open at the end; [None] is a breach. *)
Fixpoint follows (open : bool) (evs : list event) : option bool :=
  match evs with
  | [] => Some open
  | ev :: evs' =>
      match ev_call ev, open with
      | CConnect, false =>
          follows match ev_raised ev with None => true | Some _ => false end
            evs'
      | (CExecute _ _ | CCommit | CRollback), true => follows true evs'
      | CClose, true => follows false evs'
      | _, _ => None
      end
  end.

(** No [DB] object holds a connection. *)
Definition all_idle {D : Driver} (st : state D) : Prop :=
  Forall (fun c => c = None) (st_conn st).

(** Between two requests: no object holds a connection, and the trace so
    far followed the discipline and ended closed. *)
Definition at_peace {D : Driver} (st : state D) : Prop :=
  all_idle st /\ follows false (st_trace st) = Some false.

(** ** The shapes of an answer *)

Definition degraded : response :=
  mkResponse (VDict [("status", VStr "degraded")]) 503.

(** An error answer: the body [{"error": {"code": c, "message": m}}] under
    the status [c], one of 400, 404 and 415. *)
Definition is_error_answer (resp : response) : Prop :=
  exists message code,
    resp = bad_request message code
    /\ (code = 400 \/ code = 404 \/ code = 415).

Definition is_answer (resp : response) : Prop :=
  status resp = 200 \/ status resp = 201
  \/ is_error_answer resp \/ resp = degraded.

(** The calls of a trace. *)
Definition calls (evs : list event) : list call := map ev_call evs.

(** What [require_json] hands to the handler is a JSON object: the body was
    one, or was absent, unparseable or falsy and stands for the empty one. *)
Definition object_body (req : request) : Prop :=
  exists d, py_or (get_json req) (VDict []) = VDict d.

(** The [SET] item of a column. *)
Definition set_item (k : string) : string := (k ++ "=%s")%string.

(** The value of a key of an object, [None] when it has none. *)
Definition field (d : list (string * value)) (k : string) : value :=
  match assoc k d with Some v => v | None => VNone end.

Definition log_updatable : list string :=
  ["read_time"; "sensor_id"; "temperature_f"; "humidity"; "pressure"].

(** ** What a computation keeps *)

(** Between two statements of a handler: at peace, with [n] [DB] objects
    made or more. *)
Definition settled {D : Driver} (n : nat) (st : state D) : Prop :=
  at_peace st /\ (n <= List.length (st_conn st))%nat.

(** [c] ends with an outcome in [R], and settled when it started so. *)
Definition keeps {D : Driver} {A : Type} (n : nat) (c : M D A)
  (R : result A -> Prop) : Prop :=
  forall st, (settled n st -> settled n (snd (c st))) /\ R (fst (c st)).

Definition anything {A : Type} (r : result A) : Prop := True.

(** What is returned is an answer. *)
Definition answers (r : result response) : Prop :=
  match r with
  | Ok resp => is_answer resp
  | Raise _ => True
  end.

(** An answer is returned: nothing is raised. *)
Definition returns (r : result response) : Prop :=
  exists resp, r = Ok resp /\ is_answer resp.

(** The outcome of a validation block of [update_log]: a response it
    leaves the handler with is an error answer. *)
Definition validates {X : Type} (r : result (response + X)) : Prop :=
  match r with
  | Ok (inl resp) => is_error_answer resp
  | _ => True
  end.

(** ** What a request adds to the trace *)

(** No call of [evs] raised. *)
Definition all_returned (evs : list event) : bool :=
  forallb (fun ev => match ev_raised ev with None => true | Some _ => false end)
    evs.

(** The driver calls of one read of [q]: a [connect] that raises, or
    [connect], the statement and [close]. *)
Definition one_read (q : string) (params : list value) (evs : list event)
  : Prop :=
  (calls evs = [CConnect] /\ all_returned evs = false)
  \/ calls evs = [CConnect; CExecute q params; CClose].

(** The driver calls of one write of [q]: a [connect] that raises;
    [connect], the statement, [commit] and [close]; or, the statement or
    the [commit] having raised, a [rollback] before the [close]. *)
Definition one_write (q : string) (params : list value) (evs : list event)
  : Prop :=
  (calls evs = [CConnect] /\ all_returned evs = false)
  \/ calls evs = [CConnect; CExecute q params; CCommit; CClose]
  \/ (calls evs = [CConnect; CExecute q params; CRollback; CClose]
      /\ all_returned evs = false)
  \/ (calls evs = [CConnect; CExecute q params; CCommit; CRollback; CClose]
      /\ all_returned evs = false).

(** [out] is the outcome of a computation that, started in [st], made the
    driver calls [shape] allows and no other: it returns when every call
    did, and raises an exception that one of the calls raised. *)
Definition did {D : Driver} {A : Type} (shape : list event -> Prop)
  (st : state D) (out : result A * state D) : Prop :=
  exists evs,
    st_trace (snd out) = (st_trace st ++ evs)%list
    /\ shape evs
    /\ (forall e, fst out = Raise e -> In (Some e) (map ev_raised evs))
    /\ ((exists a, fst out = Ok a) <-> all_returned evs = true).

Definition reads {D : Driver} {A : Type} (q : string) (params : list value)
  : state D -> result A * state D -> Prop :=
  did (one_read q params).

Definition writes {D : Driver} {A : Type} (q : string) (params : list value)
  : state D -> result A * state D -> Prop :=
  did (one_write q params).

(** A write of [q] and, when it went through, at most one read of [q']. *)
Definition write_then_read (q : string) (params : list value)
  (q' : string) (params' : list value) (evs : list event) : Prop :=
  exists w r,
    evs = (w ++ r)%list
    /\ one_write q params w
    /\ (r = [] \/ (all_returned w = true /\ one_read q' params' r)).

(** The write of [q] was committed and the read of [q'] followed, every
    call returning. *)
Definition committed_and_read (q : string) (params : list value)
  (q' : string) (params' : list value) (evs : list event) : Prop :=
  calls evs = [CConnect; CExecute q params; CCommit; CClose;
               CConnect; CExecute q' params'; CClose]
  /\ all_returned evs = true.

(** The outcome of a handler that answers [resp] after the calls [evs]. *)
Definition answered {D : Driver} (st : state D)
  (out : result response * state D) (resp : response) (evs : list event)
  : Prop :=
  fst out = Ok resp /\ st_trace (snd out) = (st_trace st ++ evs)%list.

(** The conversion [update_log] applies to the field [k]: [read_time] is
    parsed, [sensor_id] goes through [int], the others through [float]. *)
Definition convert_log_field (k : string) (v : value) : result value :=
  if String.eqb k "read_time" then
    match parse_read_time v with
    | Ok dt => Ok (VDatetime dt)
    | Raise e => Raise e
    end
  else if String.eqb k "sensor_id" then int_value v
  else float_value v.

(** The time [create_temperature] stores for the object [d] when the clock
    shows [utcnow]: the [read_time] of the body when it is truthy, the
    clock otherwise. *)
Definition log_time (utcnow : datetime) (d : list (string * value))
  : result datetime :=
  if truthy (field d "read_time") then parse_read_time (field d "read_time")
  else Ok utcnow.

(** The values [create_temperature] stores for the object [d], converted
    in the order of the tuple. *)
Definition log_values (d : list (string * value)) : result (list value) :=
  match int_value (field d "sensor_id") with
  | Raise e => Raise e
  | Ok sid =>
      match float_value (field d "temperature_f") with
      | Raise e => Raise e
      | Ok t =>
          match float_value (field d "humidity") with
          | Raise e => Raise e
          | Ok h =>
              match float_value (field d "pressure") with
              | Raise e => Raise e
              | Ok p => Ok [sid; t; h; p]
              end
          end
      end
  end.

(** Every name of [required] is a key of [d]. *)
Definition has_all (required : list string) (d : list (string * value))
  : bool :=
  forallb (fun k => has_key k d) required.

(** A reading without [read_time]. *)
Definition post_zero : list (string * value) :=
  [("sensor_id", VInt 1); ("temperature_f", VFloat (S754_zero false));
   ("humidity", VFloat (S754_zero false)); ("pressure", VInt 0)].

(** ** Converted rows *)

(** A value [jsonify] takes as it is: no [Decimal], no [datetime]. *)
Definition json_ready (v : value) : bool :=
  match v with
  | VDecimal _ | VDatetime _ => false
  | _ => true
  end.

Definition ready_row (r : value) : bool :=
  match r with
  | VDict d => forallb (fun kv => json_ready (snd kv)) d
  | _ => false
  end.

(** [None], a row or a list of rows whose values are all ready. *)
Definition ready (v : value) : bool :=
  match v with
  | VNone => true
  | VList l => forallb ready_row l
  | _ => ready_row v
  end.

(** ** A connection that is held *)

(** [out] is the outcome of a method that, started in [st] on an object
    holding a connection, pinged it, ran the statement [q] on it and closed
    it, with nothing but [commit] and [rollback] in between and no
    [connect]; the object ends idle. *)
Definition on_held_connection {D : Driver} {A : Type} (q : string)
  (params : list value) (self : db) (st : state D)
  (out : result A * state D) : Prop :=
  exists r evs cl,
    st_trace (snd out)
    = (st_trace st
       ++ [returned CPing; mkEvent (CExecute q params) r]
       ++ evs ++ [mkEvent CClose cl])%list
    /\ Forall (fun c => c = CCommit \/ c = CRollback) (calls evs)
    /\ idle self (snd out).

(** A [DB] object of the scripted driver that was left holding a
    connection. *)
Definition holding (w : script) : state scripted :=
  mkState (D:=scripted) w [Some tt] [].

(** A sensor whose id is a list. *)
Definition post_list_id : list (string * value) :=
  [("sensor_id", VList []); ("mac_addr", VStr "aa:bb");
   ("device_id", VStr "pi"); ("device_location", VStr "attic")].

(** * Properties *)

Open Scope list_scope.

(** ** Lists of attributes *)

Lemma nth_set_nth {A : Type} (n : nat) (a d : A) (l : list A) :
  (n < List.length l)%nat -> nth n (set_nth n a l) d = a.
Proof.
  revert n; induction l as [|x l IH]; intros [|n] H; simpl in *; try lia.
  - reflexivity.
  - apply IH; lia.
Qed.

Lemma set_nth_twice {A : Type} (n : nat) (a b : A) (l : list A) :
  set_nth n b (set_nth n a l) = set_nth n b l.
Proof.
  revert n; induction l as [|x l IH]; intros [|n]; simpl; auto.
  now rewrite IH.
Qed.

Lemma set_nth_same {A : Type} (n : nat) (d : A) (l : list A) :
  nth n l d = d -> set_nth n d l = l.
Proof.
  revert n; induction l as [|x l IH]; intros [|n] H; simpl in *; auto.
  - now subst.
  - now rewrite IH.
Qed.

Lemma nth_length_app {A : Type} (l : list A) (a d : A) :
  nth (List.length l) (l ++ [a]) d = a.
Proof. induction l; simpl; auto. Qed.

(** ** The [DB] helper, call by call *)

Section DBFacts.

Context {D : Driver}.

Lemma get_db_idle (st : state D) :
  exists st1,
    get_db st = (Ok (List.length (st_conn st)), st1)
    /\ idle (List.length (st_conn st)) st1
    /\ st_world st1 = st_world st /\ st_trace st1 = st_trace st.
Proof.
  eexists; split; [reflexivity|]; unfold idle; simpl.
  rewrite nth_length_app, length_app; simpl; repeat split; lia.
Qed.

Lemma DB_connect_idle (self : db) (st : state D) :
  idle self st ->
  DB_connect self st =
  match drv_connect D (st_world st) with
  | (Ok c, w) =>
      (Ok tt, mkState w (set_nth self (Some c) (st_conn st))
                (st_trace st ++ [returned CConnect]))
  | (Raise e, w) =>
      (Raise e, mkState w (st_conn st)
                  (st_trace st ++ [mkEvent CConnect (Some e)]))
  end.
Proof.
  intros [Hnone _].
  unfold DB_connect, try_except, bind, get_conn, driver_call, set_conn.
  rewrite Hnone.
  destruct (drv_connect D (st_world st)) as [[c|e] w]; simpl; auto.
  destruct (is_pymysql_Error e); reflexivity.
Qed.

Lemma DB_disconnect_open (self : db) (st : state D) (c : connection D) :
  nth self (st_conn st) None = Some c ->
  DB_disconnect self st =
  let (r, w) := drv_close D c (st_world st) in
  (r, mkState w (set_nth self None (st_conn st))
        (st_trace st ++ [mkEvent CClose (raised r)])).
Proof.
  intros Hc.
  unfold DB_disconnect, try_finally, bind, get_conn, driver_call, set_conn.
  rewrite Hc.
  destruct (drv_close D c (st_world st)) as [[[]|e] w]; reflexivity.
Qed.

Ltac open_connection Hidle Hconnect :=
  let Hnone := fresh "Hnone" in
  let Hlt := fresh "Hlt" in
  pose proof Hidle as [Hnone Hlt];
  unfold bind; rewrite (DB_connect_idle _ _ Hidle), Hconnect.

Ltac driver_step Hlt H :=
  rewrite (nth_set_nth _ _ _ _ Hlt); simpl; rewrite H; simpl.

Ltac close_connection Hclose Hnone :=
  erewrite DB_disconnect_open by (simpl; apply nth_set_nth; assumption);
  simpl; rewrite Hclose, set_nth_twice, (set_nth_same _ _ _ Hnone).

Lemma DB_execute_connect_raises self q params (st : state D) e w1 :
  idle self st ->
  drv_connect D (st_world st) = (Raise e, w1) ->
  DB_execute self q params st =
  (Raise e, mkState w1 (st_conn st)
              (st_trace st ++ [mkEvent CConnect (Some e)])).
Proof.
  intros Hidle Hconnect. unfold DB_execute.
  open_connection Hidle Hconnect. reflexivity.
Qed.

Lemma DB_execute_returns self q params (st : state D) c w1 cur w2 w3 cl w4 :
  idle self st ->
  drv_connect D (st_world st) = (Ok c, w1) ->
  drv_execute D c q params w1 = (Ok cur, w2) ->
  drv_commit D c w2 = (Ok tt, w3) ->
  drv_close D c w3 = (cl, w4) ->
  DB_execute self q params st =
  (after_finally (rowcount cur, lastrowid cur) cl,
   mkState w4 (st_conn st)
     (st_trace st ++
      [returned CConnect; returned (CExecute q params); returned CCommit;
       mkEvent CClose (raised cl)])).
Proof.
  intros Hidle Hconnect Hexec Hcommit Hclose. unfold DB_execute.
  open_connection Hidle Hconnect.
  unfold try_finally, try_except, cur_execute, with_conn, bind, get_conn,
    driver_call, ret; simpl.
  driver_step Hlt Hexec.
  driver_step Hlt Hcommit.
  close_connection Hclose Hnone.
  rewrite <- !app_assoc; simpl.
  destruct cl as [[]|e3]; reflexivity.
Qed.

Lemma DB_execute_statement_raises self q params (st : state D)
  c w1 e w2 rb w3 cl w4 :
  idle self st ->
  drv_connect D (st_world st) = (Ok c, w1) ->
  drv_execute D c q params w1 = (Raise e, w2) ->
  drv_rollback D c w2 = (rb, w3) ->
  drv_close D c w3 = (cl, w4) ->
  DB_execute self q params st =
  (Raise (surviving e rb cl),
   mkState w4 (st_conn st)
     (st_trace st ++
      [returned CConnect; mkEvent (CExecute q params) (Some e);
       mkEvent CRollback (raised rb); mkEvent CClose (raised cl)])).
Proof.
  intros Hidle Hconnect Hexec Hrollback Hclose. unfold DB_execute.
  open_connection Hidle Hconnect.
  unfold try_finally, try_except, cur_execute, with_conn, bind, get_conn,
    driver_call, raise; simpl.
  driver_step Hlt Hexec.
  driver_step Hlt Hrollback.
  destruct rb as [[]|e2]; simpl;
    close_connection Hclose Hnone;
    rewrite <- !app_assoc; simpl;
    destruct cl as [[]|e3]; reflexivity.
Qed.

Lemma DB_execute_commit_raises self q params (st : state D)
  c w1 cur w2 e w3 rb w4 cl w5 :
  idle self st ->
  drv_connect D (st_world st) = (Ok c, w1) ->
  drv_execute D c q params w1 = (Ok cur, w2) ->
  drv_commit D c w2 = (Raise e, w3) ->
  drv_rollback D c w3 = (rb, w4) ->
  drv_close D c w4 = (cl, w5) ->
  DB_execute self q params st =
  (Raise (surviving e rb cl),
   mkState w5 (st_conn st)
     (st_trace st ++
      [returned CConnect; returned (CExecute q params);
       mkEvent CCommit (Some e);
       mkEvent CRollback (raised rb); mkEvent CClose (raised cl)])).
Proof.
  intros Hidle Hconnect Hexec Hcommit Hrollback Hclose. unfold DB_execute.
  open_connection Hidle Hconnect.
  unfold try_finally, try_except, cur_execute, with_conn, bind, get_conn,
    driver_call, raise; simpl.
  driver_step Hlt Hexec.
  driver_step Hlt Hcommit.
  driver_step Hlt Hrollback.
  destruct rb as [[]|e2]; simpl;
    close_connection Hclose Hnone;
    rewrite <- !app_assoc; simpl;
    destruct cl as [[]|e3]; reflexivity.
Qed.

Lemma DB_fetch_one_connect_raises self q params (st : state D) e w1 :
  idle self st ->
  drv_connect D (st_world st) = (Raise e, w1) ->
  DB_fetch_one self q params st =
  (Raise e, mkState w1 (st_conn st)
              (st_trace st ++ [mkEvent CConnect (Some e)])).
Proof.
  intros Hidle Hconnect. unfold DB_fetch_one.
  open_connection Hidle Hconnect. reflexivity.
Qed.

Lemma DB_fetch_one_returns self q params (st : state D) c w1 cur w2 cl w3 :
  idle self st ->
  drv_connect D (st_world st) = (Ok c, w1) ->
  drv_execute D c q params w1 = (Ok cur, w2) ->
  drv_close D c w2 = (cl, w3) ->
  DB_fetch_one self q params st =
  (after_finally (hd_error (fetched cur)) cl,
   mkState w3 (st_conn st)
     (st_trace st ++
      [returned CConnect; returned (CExecute q params);
       mkEvent CClose (raised cl)])).
Proof.
  intros Hidle Hconnect Hexec Hclose. unfold DB_fetch_one.
  open_connection Hidle Hconnect.
  unfold try_finally, cur_execute, with_conn, bind, get_conn,
    driver_call, ret; simpl.
  driver_step Hlt Hexec.
  close_connection Hclose Hnone.
  rewrite <- !app_assoc; simpl.
  destruct cl as [[]|e3]; reflexivity.
Qed.

Lemma DB_fetch_one_statement_raises self q params (st : state D)
  c w1 e w2 cl w3 :
  idle self st ->
  drv_connect D (st_world st) = (Ok c, w1) ->
  drv_execute D c q params w1 = (Raise e, w2) ->
  drv_close D c w2 = (cl, w3) ->
  DB_fetch_one self q params st =
  (Raise (surviving e (Ok tt) cl),
   mkState w3 (st_conn st)
     (st_trace st ++
      [returned CConnect; mkEvent (CExecute q params) (Some e);
       mkEvent CClose (raised cl)])).
Proof.
  intros Hidle Hconnect Hexec Hclose. unfold DB_fetch_one.
  open_connection Hidle Hconnect.
  unfold try_finally, cur_execute, with_conn, bind, get_conn,
    driver_call; simpl.
  driver_step Hlt Hexec.
  close_connection Hclose Hnone.
  rewrite <- !app_assoc; simpl.
  destruct cl as [[]|e3]; reflexivity.
Qed.

Lemma DB_fetch_all_connect_raises self q params (st : state D) e w1 :
  idle self st ->
  drv_connect D (st_world st) = (Raise e, w1) ->
  DB_fetch_all self q params st =
  (Raise e, mkState w1 (st_conn st)
              (st_trace st ++ [mkEvent CConnect (Some e)])).
Proof.
  intros Hidle Hconnect. unfold DB_fetch_all.
  open_connection Hidle Hconnect. reflexivity.
Qed.

Lemma DB_fetch_all_returns self q params (st : state D) c w1 cur w2 cl w3 :
  idle self st ->
  drv_connect D (st_world st) = (Ok c, w1) ->
  drv_execute D c q params w1 = (Ok cur, w2) ->
  drv_close D c w2 = (cl, w3) ->
  DB_fetch_all self q params st =
  (after_finally (fetched cur) cl,
   mkState w3 (st_conn st)
     (st_trace st ++
      [returned CConnect; returned (CExecute q params);
       mkEvent CClose (raised cl)])).
Proof.
  intros Hidle Hconnect Hexec Hclose. unfold DB_fetch_all.
  open_connection Hidle Hconnect.
  unfold try_finally, cur_execute, with_conn, bind, get_conn,
    driver_call, ret; simpl.
  driver_step Hlt Hexec.
  close_connection Hclose Hnone.
  rewrite <- !app_assoc; simpl.
  destruct cl as [[]|e3]; reflexivity.
Qed.

Lemma DB_fetch_all_statement_raises self q params (st : state D)
  c w1 e w2 cl w3 :
  idle self st ->
  drv_connect D (st_world st) = (Ok c, w1) ->
  drv_execute D c q params w1 = (Raise e, w2) ->
  drv_close D c w2 = (cl, w3) ->
  DB_fetch_all self q params st =
  (Raise (surviving e (Ok tt) cl),
   mkState w3 (st_conn st)
     (st_trace st ++
      [returned CConnect; mkEvent (CExecute q params) (Some e);
       mkEvent CClose (raised cl)])).
Proof.
  intros Hidle Hconnect Hexec Hclose. unfold DB_fetch_all.
  open_connection Hidle Hconnect.
  unfold try_finally, cur_execute, with_conn, bind, get_conn,
    driver_call; simpl.
  driver_step Hlt Hexec.
  close_connection Hclose Hnone.
  rewrite <- !app_assoc; simpl.
  destruct cl as [[]|e3]; reflexivity.
Qed.

Lemma surviving_survivor {A B : Type} e (rb : result A) (cl : result B) :
  surviving e rb cl = survivor e (raised rb) (raised cl).
Proof. destruct rb, cl; reflexivity. Qed.

Ltac in_trace H :=
  unfold returned in H; simpl in H;
  repeat (destruct H as [H|H]; [try discriminate H|]);
  try contradiction.

(** The conjuncts of the trace lemmas, each by inspection of the events. *)
Ltac trace_facts :=
  repeat match goal with
    | |- _ /\ _ => split
    | |- forall _ _, Raise _ = Ok _ -> _ => intros ? ? ?; discriminate
    | |- forall _, In _ _ -> _ =>
        let e := fresh "e" in
        let Hin := fresh "Hin" in
        intros e Hin; in_trace Hin;
        try (inversion Hin; subst; repeat eexists;
             now rewrite surviving_survivor)
    | |- closes _ =>
        let Hin := fresh "Hin" in
        intros Hin;
        first [ solve [in_trace Hin]
              | eexists [_; _], _; reflexivity
              | eexists [_; _; _], _; reflexivity
              | eexists [_; _; _; _], _; reflexivity ]
    end.

Lemma DB_execute_trace self q params (st : state D) r st' :
  idle self st ->
  DB_execute self q params st = (r, st') ->
  idle self st' /\
  exists evs, st_trace st' = st_trace st ++ evs /\
    (forall rc id, r = Ok (rc, id) ->
       evs = [returned CConnect; returned (CExecute q params);
              returned CCommit; returned CClose]
       /\ exists c w cur w',
            drv_execute D c q params w = (Ok cur, w')
            /\ rc = rowcount cur /\ id = lastrowid cur) /\
    (forall e, In (mkEvent (CExecute q params) (Some e)) evs ->
       exists rb cl,
         evs = [returned CConnect; mkEvent (CExecute q params) (Some e);
                mkEvent CRollback rb; mkEvent CClose cl]
         /\ r = Raise (survivor e rb cl)) /\
    (forall e, In (mkEvent CCommit (Some e)) evs ->
       exists rb cl,
         evs = [returned CConnect; returned (CExecute q params);
                mkEvent CCommit (Some e);
                mkEvent CRollback rb; mkEvent CClose cl]
         /\ r = Raise (survivor e rb cl)) /\
    closes evs.
Proof.
  intros Hidle H.
  destruct (drv_connect D (st_world st)) as [[c|e0] w1] eqn:Hconnect.
  2:{ rewrite (DB_execute_connect_raises _ _ _ _ _ _ Hidle Hconnect) in H.
      inversion H; subst; clear H. split; [exact Hidle|].
      eexists; split; [reflexivity|]. trace_facts. }
  destruct (drv_execute D c q params w1) as [[cur|e] w2] eqn:Hexec.
  - destruct (drv_commit D c w2) as [[[]|e] w3] eqn:Hcommit.
    + destruct (drv_close D c w3) as [cl w4] eqn:Hclose.
      rewrite (DB_execute_returns _ _ _ _ _ _ _ _ _ _ _
                 Hidle Hconnect Hexec Hcommit Hclose) in H.
      inversion H; subst; clear H. split; [exact Hidle|].
      eexists; split; [reflexivity|]. split; [|trace_facts].
      intros rc id H. destruct cl as [[]|e3]; [|discriminate].
      inversion H; subst. split; [reflexivity|].
      exists c, w1, cur, w2; auto.
    + destruct (drv_rollback D c w3) as [rb w4] eqn:Hrollback.
      destruct (drv_close D c w4) as [cl w5] eqn:Hclose.
      rewrite (DB_execute_commit_raises _ _ _ _ _ _ _ _ _ _ _ _ _ _
                 Hidle Hconnect Hexec Hcommit Hrollback Hclose) in H.
      inversion H; subst; clear H. split; [exact Hidle|].
      eexists; split; [reflexivity|]. trace_facts.
  - destruct (drv_rollback D c w2) as [rb w3] eqn:Hrollback.
    destruct (drv_close D c w3) as [cl w4] eqn:Hclose.
    rewrite (DB_execute_statement_raises _ _ _ _ _ _ _ _ _ _ _ _
               Hidle Hconnect Hexec Hrollback Hclose) in H.
    inversion H; subst; clear H. split; [exact Hidle|].
    eexists; split; [reflexivity|]. trace_facts.
Qed.

Lemma DB_fetch_all_trace self q params (st : state D) r st' :
  idle self st ->
  DB_fetch_all self q params st = (r, st') ->
  idle self st' /\
  exists evs, st_trace st' = st_trace st ++ evs /\
    (forall e, In (mkEvent (CExecute q params) (Some e)) evs ->
       exists cl,
         evs = [returned CConnect; mkEvent (CExecute q params) (Some e);
                mkEvent CClose cl]
         /\ r = Raise (survivor e None cl)) /\
    closes evs.
Proof.
  intros Hidle H.
  destruct (drv_connect D (st_world st)) as [[c|e0] w1] eqn:Hconnect.
  2:{ rewrite (DB_fetch_all_connect_raises _ _ _ _ _ _ Hidle Hconnect) in H.
      inversion H; subst; clear H. split; [exact Hidle|].
      eexists; split; [reflexivity|]. trace_facts. }
  destruct (drv_execute D c q params w1) as [[cur|e] w2] eqn:Hexec;
    destruct (drv_close D c w2) as [cl w3] eqn:Hclose.
  - rewrite (DB_fetch_all_returns _ _ _ _ _ _ _ _ _ _
               Hidle Hconnect Hexec Hclose) in H.
    inversion H; subst; clear H. split; [exact Hidle|].
    eexists; split; [reflexivity|]. trace_facts.
  - rewrite (DB_fetch_all_statement_raises _ _ _ _ _ _ _ _ _ _
               Hidle Hconnect Hexec Hclose) in H.
    inversion H; subst; clear H. split; [exact Hidle|].
    eexists; split; [reflexivity|]. trace_facts.
Qed.

Lemma DB_fetch_one_trace self q params (st : state D) r st' :
  idle self st ->
  DB_fetch_one self q params st = (r, st') ->
  idle self st' /\
  exists evs, st_trace st' = st_trace st ++ evs /\
    (forall e, In (mkEvent (CExecute q params) (Some e)) evs ->
       exists cl,
         evs = [returned CConnect; mkEvent (CExecute q params) (Some e);
                mkEvent CClose cl]
         /\ r = Raise (survivor e None cl)) /\
    closes evs.
Proof.
  intros Hidle H.
  destruct (drv_connect D (st_world st)) as [[c|e0] w1] eqn:Hconnect.
  2:{ rewrite (DB_fetch_one_connect_raises _ _ _ _ _ _ Hidle Hconnect) in H.
      inversion H; subst; clear H. split; [exact Hidle|].
      eexists; split; [reflexivity|]. trace_facts. }
  destruct (drv_execute D c q params w1) as [[cur|e] w2] eqn:Hexec;
    destruct (drv_close D c w2) as [cl w3] eqn:Hclose.
  - rewrite (DB_fetch_one_returns _ _ _ _ _ _ _ _ _ _
               Hidle Hconnect Hexec Hclose) in H.
    inversion H; subst; clear H. split; [exact Hidle|].
    eexists; split; [reflexivity|]. trace_facts.
  - rewrite (DB_fetch_one_statement_raises _ _ _ _ _ _ _ _ _ _
               Hidle Hconnect Hexec Hclose) in H.
    inversion H; subst; clear H. split; [exact Hidle|].
    eexists; split; [reflexivity|]. trace_facts.
Qed.

(** C1, as amended.  [DB.execute] on an idle [DB] object: when it returns
    a pair, the connection was opened, the statement ran, the transaction was
    committed and the connection closed, each call returning, and the pair is
    the cursor's row count and generated id; when the statement (or the
    commit) raises [e], rollback and then close are called, and the call
    raises [e] if both return, else the exception of the later of the two
    that raised; in every case the object is idle again and a connection that
    was opened has [close] as the last driver call.  [DB.fetch_all] and
    [DB.fetch_one] leave the object idle and end on [close] likewise, also
    when the query raises. *)
Theorem DB_execute_commits_or_rolls_back_then_closes
  (self : db) (q : string) (params : list value) (st : state D) :
  idle self st ->
  (forall r st', DB_execute self q params st = (r, st') ->
     idle self st' /\
     exists evs, st_trace st' = st_trace st ++ evs /\
       (forall rc id, r = Ok (rc, id) ->
          evs = [returned CConnect; returned (CExecute q params);
                 returned CCommit; returned CClose]
          /\ exists c w cur w',
               drv_execute D c q params w = (Ok cur, w')
               /\ rc = rowcount cur /\ id = lastrowid cur) /\
       (forall e, In (mkEvent (CExecute q params) (Some e)) evs ->
          exists rb cl,
            evs = [returned CConnect; mkEvent (CExecute q params) (Some e);
                   mkEvent CRollback rb; mkEvent CClose cl]
            /\ r = Raise (survivor e rb cl)) /\
       (forall e, In (mkEvent CCommit (Some e)) evs ->
          exists rb cl,
            evs = [returned CConnect; returned (CExecute q params);
                   mkEvent CCommit (Some e);
                   mkEvent CRollback rb; mkEvent CClose cl]
            /\ r = Raise (survivor e rb cl)) /\
       closes evs)
  /\
  (forall r st', DB_fetch_all self q params st = (r, st') ->
     idle self st' /\
     exists evs, st_trace st' = st_trace st ++ evs /\
       (forall e, In (mkEvent (CExecute q params) (Some e)) evs ->
          exists cl,
            evs = [returned CConnect; mkEvent (CExecute q params) (Some e);
                   mkEvent CClose cl]
            /\ r = Raise (survivor e None cl)) /\
       closes evs)
  /\
  (forall r st', DB_fetch_one self q params st = (r, st') ->
     idle self st' /\
     exists evs, st_trace st' = st_trace st ++ evs /\
       (forall e, In (mkEvent (CExecute q params) (Some e)) evs ->
          exists cl,
            evs = [returned CConnect; mkEvent (CExecute q params) (Some e);
                   mkEvent CClose cl]
            /\ r = Raise (survivor e None cl)) /\
       closes evs).
Proof.
  intros Hidle. split; [|split]; intros r st' H.
  - exact (DB_execute_trace _ _ _ _ _ _ Hidle H).
  - exact (DB_fetch_all_trace _ _ _ _ _ _ Hidle H).
  - exact (DB_fetch_one_trace _ _ _ _ _ _ Hidle H).
Qed.

End DBFacts.

(** ** [DB.execute] at concrete drivers *)

Lemma one_db_idle {D : Driver} (w : world D) : idle 0%nat (one_db w).
Proof. split; [reflexivity | simpl; lia]. Qed.

(** C1 at the driver whose every call returns. *)
Lemma DB_execute_at_always_ok :
  idle 0%nat (one_db (D:=scripted) always_ok)
  /\ idle 0%nat (snd (DB_execute 0%nat q_delete_log [VInt 1]
                    (one_db (D:=scripted) always_ok))).
Proof.
  split; [apply one_db_idle|].
  destruct (DB_execute_commits_or_rolls_back_then_closes (D:=scripted)
              0%nat q_delete_log [VInt 1] (one_db (D:=scripted) always_ok)
              (one_db_idle (D:=scripted) always_ok)) as [H _].
  destruct (DB_execute 0%nat q_delete_log [VInt 1]
              (one_db (D:=scripted) always_ok))
    as [r st'] eqn:E.
  exact (proj1 (H r st' eq_refl)).
Defined.

(** C1 as stated fails when [rollback] itself raises: the statement raised
    [lost_connection], and [DB.execute] raises the exception of
    [rollback]. *)
Lemma DB_execute_rollback_raises :
  fst (DB_execute 0%nat q_delete_log [VInt 1]
         (one_db (D:=scripted) connection_lost))
  = Raise not_connected
  /\ st_trace (snd (DB_execute 0%nat q_delete_log [VInt 1]
                      (one_db (D:=scripted) connection_lost)))
     = [returned CConnect;
        mkEvent (CExecute q_delete_log [VInt 1]) (Some lost_connection);
        mkEvent CRollback (Some not_connected);
        returned CClose]
  /\ not_connected <> lost_connection.
Proof. split; [reflexivity|split; [reflexivity|discriminate]]. Qed.

(** ** No classification of failures *)

Section Failures.

Context {D : Driver}.

(** C9, as amended.  The helper does not classify failures: on an idle
    object the exception the driver raised from [connect] leaves each of the
    three methods unchanged, and so does the exception of the statement when
    rollback (for [execute]) and close return; a constraint violation
    therefore reaches the caller as the driver's own [IntegrityError], with
    its error number and message. *)
Theorem DB_methods_raise_the_driver_exception
  (self : db) (q : string) (params : list value) (st : state D) :
  idle self st ->
  (forall e w1,
     drv_connect D (st_world st) = (Raise e, w1) ->
     fst (DB_execute self q params st) = Raise e
     /\ fst (DB_fetch_all self q params st) = Raise e
     /\ fst (DB_fetch_one self q params st) = Raise e)
  /\
  (forall c w1 e w2 w3 w4,
     drv_connect D (st_world st) = (Ok c, w1) ->
     drv_execute D c q params w1 = (Raise e, w2) ->
     drv_rollback D c w2 = (Ok tt, w3) ->
     drv_close D c w3 = (Ok tt, w4) ->
     fst (DB_execute self q params st) = Raise e)
  /\
  (forall c w1 e w2 w3,
     drv_connect D (st_world st) = (Ok c, w1) ->
     drv_execute D c q params w1 = (Raise e, w2) ->
     drv_close D c w2 = (Ok tt, w3) ->
     fst (DB_fetch_all self q params st) = Raise e
     /\ fst (DB_fetch_one self q params st) = Raise e).
Proof.
  intros Hidle; split; [|split].
  - intros e w1 Hconnect.
    rewrite (DB_execute_connect_raises _ _ _ _ _ _ Hidle Hconnect),
      (DB_fetch_all_connect_raises _ _ _ _ _ _ Hidle Hconnect),
      (DB_fetch_one_connect_raises _ _ _ _ _ _ Hidle Hconnect).
    auto.
  - intros c w1 e w2 w3 w4 Hconnect Hexec Hrollback Hclose.
    now rewrite (DB_execute_statement_raises _ _ _ _ _ _ _ _ _ _ _ _
                   Hidle Hconnect Hexec Hrollback Hclose).
  - intros c w1 e w2 w3 Hconnect Hexec Hclose.
    now rewrite (DB_fetch_all_statement_raises _ _ _ _ _ _ _ _ _ _
                   Hidle Hconnect Hexec Hclose),
      (DB_fetch_one_statement_raises _ _ _ _ _ _ _ _ _ _
         Hidle Hconnect Hexec Hclose).
Qed.

End Failures.

(** C9 at a driver whose statement violates a unique key. *)
Lemma DB_execute_at_duplicate_entry :
  idle 0%nat (one_db (D:=scripted) (rejects duplicate_entry))
  /\ fst (DB_execute 0%nat q_insert_sensor [VInt 1]
            (one_db (D:=scripted) (rejects duplicate_entry)))
     = Raise duplicate_entry.
Proof.
  split; [apply one_db_idle|].
  destruct (DB_methods_raise_the_driver_exception (D:=scripted)
              0%nat q_insert_sensor [VInt 1]
              (one_db (D:=scripted) (rejects duplicate_entry))
              (one_db_idle (D:=scripted) (rejects duplicate_entry)))
    as [_ [H _]].
  exact (H tt _ _ _ _ _ eq_refl eq_refl eq_refl eq_refl).
Defined.

(** C9 as stated fails: a refused connection leaves the helper as the
    driver's [OperationalError], no [ConnectionError]; a syntax error leaves
    it as the driver's [ProgrammingError], no [QueryError]. *)
Lemma DB_execute_signals_no_ConnectionError_or_QueryError :
  fst (DB_execute 0%nat q_delete_log [VInt 1]
         (one_db (D:=scripted) server_down))
  = Raise cannot_connect
  /\ exn_name cannot_connect <> "ConnectionError"
  /\ fst (DB_execute 0%nat q_delete_log [VInt 1]
            (one_db (D:=scripted) (rejects syntax_error)))
     = Raise syntax_error
  /\ exn_name syntax_error <> "QueryError".
Proof.
  split; [reflexivity|]. split; [discriminate|].
  split; [reflexivity|discriminate].
Qed.

(** ** The handlers, by the outcome of their [DB] calls *)

Lemma as_json_row (r : option row) :
  as_json (value_of_row r) = Ok (json_of_row r).
Proof. destruct r; reflexivity. Qed.

Lemma convert_rows_dicts (l : list row) :
  convert_rows (map VDict l) = Ok (map json_row l).
Proof.
  induction l as [|r l IH]; simpl; [reflexivity|].
  now rewrite IH.
Qed.

Lemma as_json_rows (l : list row) :
  as_json (value_of_rows l) = Ok (VList (map json_row l)).
Proof. unfold value_of_rows; simpl. now rewrite convert_rows_dicts. Qed.

Section HandlerFacts.

Context {D : Driver}.

Lemma new_db_idle (st : state D) : idle (new_db st) (after_get_db st).
Proof.
  unfold idle, new_db, after_get_db; simpl.
  rewrite nth_length_app, length_app; simpl; split; [reflexivity|lia].
Qed.

Lemma delete_log_outcome (log_id : Z) (st : state D) :
  delete_log log_id st =
  match DB_execute (new_db st) q_delete_log [VInt log_id] (after_get_db st) with
  | (Ok rc, st2) =>
      if fst rc =? 0 then (Ok (not_found "log" log_id), st2)
      else (Ok (jsonify (VDict [("message", VStr "log deleted");
                                ("log_id", VInt log_id)])), st2)
  | (Raise e, st2) => (Ok (any_failure "Failed to delete log" e), st2)
  end.
Proof.
  unfold delete_log, try_except, bind, get_db.
  fold (new_db st) (after_get_db st).
  destruct (DB_execute _ _ _ _) as [[rc|e] st2]; simpl; [|reflexivity].
  destruct (fst rc =? 0); reflexivity.
Qed.

Lemma update_sensor_outcome (sensor_id : Z) (req : request) (data : value)
  (f : string) (fields : list string) (params : list value) (st : state D) :
  require_json req = (data, None) ->
  collect_fields sensor_updatable data = Ok (f :: fields, params) ->
  update_sensor sensor_id req st =
  match DB_execute (new_db st) (q_update "sensors" (f :: fields) "sensor_id")
          (params ++ [VInt sensor_id]) (after_get_db st) with
  | (Ok rc, st2) =>
      if fst rc =? 0 then (Ok (not_found "Sensor" sensor_id), st2)
      else read_back q_get_sensor sensor_id "sensor updated" "sensor"
             (any_failure "Failed to update sensor") st2
  | (Raise e, st2) => (Ok (any_failure "Failed to update sensor" e), st2)
  end.
Proof.
  intros Hreq Hfields.
  unfold update_sensor; rewrite Hreq.
  unfold bind at 1, lift at 1; rewrite Hfields.
  unfold try_except, bind, get_db; fold (new_db st) (after_get_db st).
  destruct (DB_execute _ _ _ _) as [[rc|e] st2]; simpl; [|reflexivity].
  destruct (fst rc =? 0); [reflexivity|].
  unfold read_back; fold (new_db st2) (after_get_db st2).
  destruct (DB_fetch_one _ _ _ _) as [[r|e] st3]; simpl; [|reflexivity].
  unfold lift; now rewrite as_json_row.
Qed.

Lemma update_log_outcome (log_id : Z) (req : request) (data : value)
  (s : string) (sets : list string) (params : list value) (st st1 : state D) :
  require_json req = (data, None) ->
  validate_log data st = (Ok (inr (s :: sets, params)), st1) ->
  update_log log_id req st =
  match DB_execute (new_db st1) (q_update "temperature_log" (s :: sets) "log_id")
          (params ++ [VInt log_id]) (after_get_db st1) with
  | (Ok rc, st2) =>
      if fst rc =? 0 then (Ok (not_found "log" log_id), st2)
      else read_back q_get_log log_id "log updated" "log"
             (write_failure "Failed to update log") st2
  | (Raise e, st2) => (Ok (write_failure "Failed to update log" e), st2)
  end.
Proof.
  intros Hreq Hvalid.
  unfold update_log; rewrite Hreq.
  unfold bind at 1; rewrite Hvalid.
  unfold try_except, bind, get_db; fold (new_db st1) (after_get_db st1).
  destruct (DB_execute _ _ _ _) as [[rc|e] st2]; simpl.
  - destruct (fst rc =? 0); [reflexivity|].
    unfold read_back; fold (new_db st2) (after_get_db st2).
    destruct (DB_fetch_one _ _ _ _) as [[r|e] st3]; simpl.
    + unfold lift; now rewrite as_json_row.
    + destruct e as [| | | | |[] ? ?|]; reflexivity.
  - destruct e as [| | | | |[] ? ?|]; reflexivity.
Qed.

Lemma get_by_id_outcome (q what : string) (id : Z) (st : state D) :
  (db <- get_db ;;
   r <- DB_fetch_one db q [VInt id] ;;
   if no_row r then ret (not_found what id)
   else j <- lift (as_json (value_of_row r)) ;; ret (jsonify j)) st =
  match DB_fetch_one (new_db st) q [VInt id] (after_get_db st) with
  | (Ok r, st2) =>
      (Ok (if no_row r then not_found what id else jsonify (json_of_row r)),
       st2)
  | (Raise e, st2) => (Raise e, st2)
  end.
Proof.
  unfold bind, get_db; fold (new_db st) (after_get_db st).
  destruct (DB_fetch_one _ _ _ _) as [[r|e] st2]; [|reflexivity].
  destruct (no_row r); [reflexivity|].
  unfold lift; now rewrite as_json_row.
Qed.

Lemma get_sensor_outcome (sensor_id : Z) (st : state D) :
  get_sensor sensor_id st =
  match DB_fetch_one (new_db st) q_get_sensor [VInt sensor_id]
          (after_get_db st) with
  | (Ok r, st2) =>
      (Ok (if no_row r then not_found "Sensor" sensor_id
           else jsonify (json_of_row r)), st2)
  | (Raise e, st2) => (Raise e, st2)
  end.
Proof. apply (get_by_id_outcome q_get_sensor "Sensor"). Qed.

Lemma get_log_outcome (log_id : Z) (st : state D) :
  get_log log_id st =
  match DB_fetch_one (new_db st) q_get_log [VInt log_id] (after_get_db st) with
  | (Ok r, st2) =>
      (Ok (if no_row r then not_found "log" log_id
           else jsonify (json_of_row r)), st2)
  | (Raise e, st2) => (Raise e, st2)
  end.
Proof. apply (get_by_id_outcome q_get_log "log"). Qed.

End HandlerFacts.

(** ** The reference server under [DB.execute] *)

Lemma memdb_delete (self : db) (id : Z) (st : state memdb) :
  idle self st ->
  DB_execute self q_delete_log [VInt id] st =
  (Ok (deleted id (committed (st_world st)), 0),
   mkState (D:=memdb) (at_rest (delete_from id (committed (st_world st))))
     (st_conn st)
     (st_trace st ++
      [returned CConnect; returned (CExecute q_delete_log [VInt id]);
       returned CCommit; returned CClose])).
Proof.
  intros Hidle.
  exact (DB_execute_returns (D:=memdb) self q_delete_log [VInt id] st tt
           _ _ _ _ (Ok tt) _ Hidle eq_refl eq_refl eq_refl eq_refl).
Qed.

Lemma deleted_positive (id : Z) (t : tables) (e : log_entry) :
  In e (temperature_log t) -> log_id e = id -> (deleted id t =? 0) = false.
Proof.
  intros Hin Hid. unfold deleted, select_log.
  destruct (filter _ _) as [|x l] eqn:E; [|reflexivity].
  assert (Hf : In e (filter (fun e => log_id e =? id) (temperature_log t)))
    by (apply filter_In; split; [assumption | now apply Z.eqb_eq]).
  rewrite E in Hf. destruct Hf.
Qed.

Lemma deleted_again (id : Z) (t : tables) : deleted id (delete_from id t) = 0.
Proof.
  unfold deleted, select_log, delete_from; simpl.
  induction (temperature_log t) as [|x l IH]; simpl; [reflexivity|].
  destruct (log_id x =? id) eqn:E; simpl; [assumption|].
  now rewrite E.
Qed.

Lemma status_not_found (what : string) (id : Z) :
  status (not_found what id) = 404.
Proof. reflexivity. Qed.

Lemma read_back_status {D : Driver} q id message key failure (st : state D) :
  (forall e, status (failure e) = 400) ->
  exists resp st', read_back q id message key failure st = (Ok resp, st')
                   /\ status resp <> 404.
Proof.
  intros Hfail. unfold read_back.
  destruct (DB_fetch_one _ _ _ _) as [[r|e] st'].
  - do 2 eexists; split; [reflexivity|]; simpl; lia.
  - do 2 eexists; split; [reflexivity|]. rewrite Hfail; lia.
Qed.

Lemma status_write_failure failed e : status (write_failure failed e) = 400.
Proof. destruct e as [| | | | |[] ? ?|]; reflexivity. Qed.

(** What an update or delete handler answers after [DB.execute] ended with
    [r]: 404 exactly when [r] is a pair whose row count is zero. *)
Lemma answer_404_iff {D : Driver} (r : result (Z * Z)) (st2 : state D)
  (found : state D -> result response * state D)
  (missing : response) (failure : exn -> response) :
  status missing = 404 ->
  (forall e, status (failure e) = 400) ->
  (forall st, exists resp st',
      found st = (Ok resp, st') /\ status resp <> 404) ->
  exists resp st3,
    match r with
    | Ok rc => if fst rc =? 0 then (Ok missing, st2) else found st2
    | Raise e => (Ok (failure e), st2)
    end = (Ok resp, st3)
    /\ (status resp = 404 <-> exists id, r = Ok (0, id)).
Proof.
  intros Hmissing Hfailure Hfound.
  destruct r as [[rc id]|e]; simpl.
  - destruct (rc =? 0) eqn:E.
    + apply Z.eqb_eq in E; subst.
      do 2 eexists; split; [reflexivity|]. split; eauto.
    + apply Z.eqb_neq in E.
      destruct (Hfound st2) as (resp & st' & Hr & Hs).
      exists resp, st'; split; [assumption|]. split; [contradiction|].
      intros [id' H]; inversion H; contradiction.
  - do 2 eexists; split; [reflexivity|]. rewrite Hfailure.
    split; [lia|]. intros [id H]; discriminate.
Qed.

(** C6.  The update and delete handlers answer 404 exactly when the
    statement returned with a row count of zero, and the read handlers
    exactly when the fetch returned no row, an exception playing no part;
    on the reference server, deleting an existing log twice answers 200 and
    then 404. *)
Theorem not_found_exactly_when_nothing_affected :
  (forall (D : Driver) (st : state D) id r st2,
     DB_execute (new_db st) q_delete_log [VInt id] (after_get_db st)
     = (r, st2) ->
     exists resp st3,
       delete_log id st = (Ok resp, st3)
       /\ (status resp = 404 <-> exists gen, r = Ok (0, gen)))
  /\
  (forall (D : Driver) (st : state D) id req data f fields params r st2,
     require_json req = (data, None) ->
     collect_fields sensor_updatable data = Ok (f :: fields, params) ->
     DB_execute (new_db st) (q_update "sensors" (f :: fields) "sensor_id")
       (params ++ [VInt id]) (after_get_db st) = (r, st2) ->
     exists resp st3,
       update_sensor id req st = (Ok resp, st3)
       /\ (status resp = 404 <-> exists gen, r = Ok (0, gen)))
  /\
  (forall (D : Driver) (st st1 : state D) id req data s sets params r st2,
     require_json req = (data, None) ->
     validate_log data st = (Ok (inr (s :: sets, params)), st1) ->
     DB_execute (new_db st1) (q_update "temperature_log" (s :: sets) "log_id")
       (params ++ [VInt id]) (after_get_db st1) = (r, st2) ->
     exists resp st3,
       update_log id req st = (Ok resp, st3)
       /\ (status resp = 404 <-> exists gen, r = Ok (0, gen)))
  /\
  (forall (D : Driver) (st : state D) id r st2,
     r <> Some [] ->
     (DB_fetch_one (new_db st) q_get_sensor [VInt id] (after_get_db st)
      = (Ok r, st2) ->
      exists resp, get_sensor id st = (Ok resp, st2)
                   /\ (status resp = 404 <-> r = None))
     /\
     (DB_fetch_one (new_db st) q_get_log [VInt id] (after_get_db st)
      = (Ok r, st2) ->
      exists resp, get_log id st = (Ok resp, st2)
                   /\ (status resp = 404 <-> r = None)))
  /\
  (forall (st : state memdb) id e,
     In e (temperature_log (committed (st_world st))) ->
     log_id e = id ->
     exists resp1 st1 resp2 st2,
       delete_log id st = (Ok resp1, st1) /\ status resp1 = 200
       /\ delete_log id st1 = (Ok resp2, st2) /\ status resp2 = 404).
Proof.
  split; [|split; [|split; [|split]]].
  - intros D st id r st2 Hexec.
    rewrite delete_log_outcome, Hexec.
    apply (answer_404_iff r st2 (fun st => (Ok _, st))); auto.
    intros st'; do 2 eexists; split; [reflexivity|]; simpl; lia.
  - intros D st id req data f fields params r st2 Hreq Hfields Hexec.
    rewrite (update_sensor_outcome _ _ _ _ _ _ _ Hreq Hfields), Hexec.
    apply (answer_404_iff r st2 (read_back _ _ _ _ _)); auto.
    intros st'; apply read_back_status; auto.
  - intros D st st1 id req data s sets params r st2 Hreq Hvalid Hexec.
    rewrite (update_log_outcome _ _ _ _ _ _ _ _ Hreq Hvalid), Hexec.
    apply (answer_404_iff r st2 (read_back _ _ _ _ _));
      auto using status_write_failure.
    intros st'; apply read_back_status; auto using status_write_failure.
  - intros D st id r st2 Hrow; split; intros Hfetch;
      [rewrite get_sensor_outcome | rewrite get_log_outcome];
      rewrite Hfetch; eexists; (split; [reflexivity|]);
      destruct r as [[|kv r]|]; try contradiction; simpl;
      (split; [intros H; try discriminate H; try reflexivity
              | intros H; try discriminate H; try reflexivity]).
  - intros st id e Hin Hid.
    rewrite delete_log_outcome, (memdb_delete _ _ _ (new_db_idle st)).
    simpl fst. rewrite (deleted_positive _ _ _ Hin Hid).
    eexists _, _, _, _. split; [reflexivity|]. split; [reflexivity|].
    rewrite delete_log_outcome, (memdb_delete _ _ _ (new_db_idle _)).
    cbn [st_world committed at_rest after_get_db fst].
    rewrite deleted_again. split; reflexivity.
Qed.

(** C6 at the table that holds the log 7. *)
Lemma delete_twice_at_one_log :
  In (mkLog 7 noon 1 (S754_zero false) (S754_zero false) (S754_zero false))
    (temperature_log one_log)
  /\ exists resp1 st1 resp2 st2,
       delete_log 7 (on_tables one_log) = (Ok resp1, st1)
       /\ status resp1 = 200
       /\ delete_log 7 st1 = (Ok resp2, st2) /\ status resp2 = 404.
Proof.
  split; [left; reflexivity|].
  exact (proj2 (proj2 (proj2 (proj2 not_found_exactly_when_nothing_affected)))
           (on_tables one_log) 7 _
           (or_introl eq_refl) eq_refl).
Defined.

(** ** Exceptions of the driver at the handlers *)

(** C7 at its failing input: [PUT /api/v1/sensors/1] with the body
    [{"mac_addr": null}], when the statement raises the driver's
    [IntegrityError].  [update_sensor] has no clause for it and answers the
    generic message, without the driver's text; [update_log], on a foreign
    key violation, answers with the text. *)
Theorem update_sensor_hides_integrity_error :
  fst (update_sensor (D:=scripted) 1
         (mkRequest true (VDict [("mac_addr", VNone)]) [])
         (on_script (rejects null_column)))
  = Ok (bad_request "Failed to update sensor" 400)
  /\ fst (update_log (D:=scripted) 1
            (mkRequest true (VDict [("sensor_id", VInt 999)]) [])
            (on_script (rejects fk_error)))
     = Ok (bad_request
             "Integrity error: Cannot add or update a child row: a foreign key constraint fails"
             400).
Proof. split; reflexivity. Qed.

(** C8 at its failing input: the server refuses the connection.  The four
    read handlers have no [try] and the driver's exception leaves them;
    [health] and [delete_log] catch it. *)
Theorem read_handlers_let_driver_exceptions_escape :
  fst (list_sensors (D:=scripted) (on_script server_down))
  = Raise cannot_connect
  /\ fst (get_sensor (D:=scripted) 1 (on_script server_down))
     = Raise cannot_connect
  /\ fst (list_temperatures (D:=scripted) (mkRequest false VNone [])
            (on_script server_down)) = Raise cannot_connect
  /\ fst (get_log (D:=scripted) 1 (on_script server_down))
     = Raise cannot_connect
  /\ fst (health (D:=scripted) (on_script server_down))
     = Ok (mkResponse (VDict [("status", VStr "degraded")]) 503)
  /\ fst (delete_log (D:=scripted) 1 (on_script server_down))
     = Ok (bad_request "Failed to delete log" 400).
Proof. repeat split. Qed.

(** ** The type checks of [update_log] *)

Lemma number_field_raises {D : Driver} (k : string)
  (conv : value -> result value) (message : string) (data : value)
  (acc : gathered) (st : state D) (v : value) (e : exn) :
  py_contains k data = Ok true ->
  py_getitem data k = Ok v ->
  conv v = Raise e ->
  number_field k conv message data acc st =
  (if is_ValueError e then Ok (inl (bad_request message 400)) else Raise e, st).
Proof.
  intros Hin Hget Hconv.
  unfold number_field, bind, lift, try_except.
  rewrite Hin, Hget, Hconv.
  destruct (is_ValueError e); reflexivity.
Qed.

Lemma float_value_raises (v : value) (e : exn) :
  py_float v = Raise e -> float_value v = Raise e.
Proof. unfold float_value; now intros ->. Qed.

(** C10.  Each of the four type checks of [update_log] answers 400 when the
    conversion raises [ValueError] and lets any other exception through; so
    a body whose [temperature_f] is a value [float()] rejects with another
    exception ([null] or a list: [TypeError]) makes that exception leave the
    handler, before any driver call. *)
Theorem update_log_type_checks_catch_only_ValueError
  (D : Driver) (log_id : Z) (st : state D) :
  (forall k conv message data acc v e,
     py_contains k data = Ok true ->
     py_getitem data k = Ok v ->
     conv v = Raise e ->
     number_field k conv message data acc st =
     (if is_ValueError e then Ok (inl (bad_request message 400)) else Raise e,
      st))
  /\
  (forall d a v e,
     assoc "read_time" d = None ->
     assoc "sensor_id" d = None ->
     assoc "temperature_f" d = Some v ->
     py_float v = Raise e ->
     is_ValueError e = false ->
     update_log log_id (mkRequest true (VDict d) a) st = (Raise e, st))
  /\
  py_float VNone = Raise TypeError
  /\
  (forall l, py_float (VList l) = Raise TypeError).
Proof.
  split; [|split; [|split]]; try reflexivity.
  - intros; eapply number_field_raises; eassumption.
  - intros d a v e Hrt Hsid Htf Hfloat Hnot.
    assert (Hd : require_json (mkRequest true (VDict d) a) = (VDict d, None)).
    { destruct d; [discriminate|reflexivity]. }
    unfold update_log; rewrite Hd.
    unfold validate_log, and_then, bind at 1 2 3 4 5.
    unfold read_time_field, bind, lift; simpl.
    unfold has_key; rewrite Hrt; simpl.
    unfold number_field at 1, bind, lift; simpl.
    unfold has_key; rewrite Hsid; simpl.
    rewrite (number_field_raises "temperature_f" float_value _ (VDict d) _ _ v e);
      [ now rewrite Hnot
      | simpl; unfold has_key; now rewrite Htf
      | simpl; now rewrite Htf
      | now apply float_value_raises ].
Qed.

(** C10 at the body [{"temperature_f": null}]. *)
Lemma update_log_at_null_temperature :
  (assoc "read_time" [("temperature_f", VNone)] = None
   /\ assoc "sensor_id" [("temperature_f", VNone)] = None
   /\ assoc "temperature_f" [("temperature_f", VNone)] = Some VNone
   /\ py_float VNone = Raise TypeError
   /\ is_ValueError TypeError = false)
  /\ update_log (D:=scripted) 1
       (mkRequest true (VDict [("temperature_f", VNone)]) [])
       (on_script always_ok)
     = (Raise TypeError, on_script always_ok).
Proof.
  split; [repeat split|].
  exact (proj1 (proj2 (update_log_type_checks_catch_only_ValueError
                          scripted 1 (on_script always_ok)))
           [("temperature_f", VNone)] [] VNone TypeError
           eq_refl eq_refl eq_refl eq_refl eq_refl).
Defined.

(** ** Missing fields *)

Lemma missing_fields_dict (required : list string) (d : list (string * value)) :
  missing_fields required (VDict d)
  = Ok (filter (fun k => negb (has_key k d)) required).
Proof.
  induction required as [|k ks IH]; simpl; [reflexivity|].
  rewrite IH. now destruct (has_key k d).
Qed.

(** C2, as amended.  For a body the membership test accepts (the comprehension
    over the required names returns), a non-empty list of missing names makes
    [create_sensor] and [create_temperature] answer 400 with the names joined
    by [", "], the state untouched: no [DB] object, no driver call.  For an
    object body the names listed are exactly the required names that are no
    key of it, in the order of the required list. *)
Theorem missing_fields_answer_400
  (D : Driver) (st : state D) (utcnow : datetime) (req : request)
  (data : value) :
  require_json req = (data, None) ->
  (forall d, data = VDict d ->
     missing_fields sensor_required data
     = Ok (filter (fun k => negb (has_key k d)) sensor_required)
     /\ missing_fields log_required data
        = Ok (filter (fun k => negb (has_key k d)) log_required))
  /\
  (forall k ks,
     missing_fields sensor_required data = Ok (k :: ks) ->
     create_sensor req st
     = (Ok (bad_request ("Missing fields: " ++ String.concat ", " (k :: ks))
              400), st))
  /\
  (forall k ks,
     missing_fields log_required data = Ok (k :: ks) ->
     create_temperature utcnow req st
     = (Ok (bad_request ("Missing fields: " ++ String.concat ", " (k :: ks))
              400), st)).
Proof.
  intros Hreq; split; [|split].
  - intros d ->; split; apply missing_fields_dict.
  - intros k ks Hmissing.
    unfold create_sensor; rewrite Hreq.
    unfold bind, lift; now rewrite Hmissing.
  - intros k ks Hmissing.
    unfold create_temperature; rewrite Hreq.
    unfold bind, lift; now rewrite Hmissing.
Qed.

(** C2 at a body that holds [mac_addr] only. *)
Lemma create_sensor_at_mac_only :
  require_json post_mac_only
  = (VDict [("mac_addr", VStr "AA:BB:CC:DD:EE:FF")], None)
  /\ create_sensor post_mac_only (on_script always_ok)
     = (Ok (bad_request
              "Missing fields: sensor_id, device_id, device_location" 400),
        on_script always_ok).
Proof.
  split; [reflexivity|].
  exact (proj1 (proj2 (missing_fields_answer_400 scripted
                          (on_script always_ok) noon post_mac_only _ eq_refl))
           "sensor_id" ["device_id"; "device_location"] eq_refl).
Defined.

(** C2 as stated fails for a body that is no container: the JSON document
    [5] has none of the required fields, the membership test raises
    [TypeError] outside any [try] and the exception leaves both handlers. *)
Lemma create_handlers_raise_on_number_body :
  create_sensor (mkRequest true (VInt 5) []) (on_script always_ok)
  = (Raise TypeError, on_script always_ok)
  /\ create_temperature noon (mkRequest true (VInt 5) []) (on_script always_ok)
     = (Raise TypeError, on_script always_ok).
Proof. split; reflexivity. Qed.

(** ** Paging *)

Lemma int_arg_absent (req : request) (k : string) (default : Z) :
  args_get k (args req) = None -> int_arg req k default = Ok default.
Proof. unfold int_arg; now intros ->. Qed.

Lemma int_arg_present (req : request) (k s : string) (default : Z) :
  args_get k (args req) = Some s ->
  int_arg req k default = of_option ValueError (int_of_string s).
Proof. unfold int_arg; now intros ->. Qed.

Lemma int_arg_raises (req : request) (k : string) (default : Z) (e : exn) :
  int_arg req k default = Raise e -> e = ValueError.
Proof.
  unfold int_arg. destruct (args_get k (args req)) as [s|]; simpl.
  - destruct (int_of_string s); simpl; intros H; now inversion H.
  - discriminate.
Qed.

Section Paging.

Context {D : Driver}.

Lemma list_temperatures_invalid (req : request) (st : state D) :
  (exists e, int_arg req "limit" 100 = Raise e)
  \/ (exists e, int_arg req "offset" 0 = Raise e) ->
  list_temperatures req st
  = (Ok (bad_request "limit and offset must be integers" 400), st).
Proof.
  unfold list_temperatures.
  intros [[e H]|[e H]].
  - rewrite H. now rewrite (int_arg_raises _ _ _ _ H).
  - destruct (int_arg req "limit" 100) as [l|e'] eqn:Hl.
    + rewrite H. now rewrite (int_arg_raises _ _ _ _ H).
    + now rewrite (int_arg_raises _ _ _ _ Hl).
Qed.

Lemma list_temperatures_outcome (req : request) (st : state D) (l o : Z) :
  int_arg req "limit" 100 = Ok l ->
  int_arg req "offset" 0 = Ok o ->
  list_temperatures req st =
  match DB_fetch_all (new_db st) q_list_logs [VInt (Z.min l 1000); VInt o]
          (after_get_db st) with
  | (Ok rows, st2) => (Ok (jsonify (VList (map json_row rows))), st2)
  | (Raise e, st2) => (Raise e, st2)
  end.
Proof.
  intros Hl Ho. unfold list_temperatures; rewrite Hl, Ho.
  unfold bind, get_db; fold (new_db st) (after_get_db st).
  destruct (DB_fetch_all _ _ _ _) as [[rows|e] st2]; [|reflexivity].
  unfold lift; now rewrite as_json_rows.
Qed.

End Paging.

Lemma run_statement_list (limit offset : Z) (t : tables) :
  0 <= limit -> 0 <= offset ->
  run_statement q_list_logs [VInt limit; VInt offset] t
  = (Ok (select_cursor (page limit offset t)), t).
Proof.
  intros Hl Ho. unfold run_statement.
  change (String.eqb q_list_logs q_insert_log) with false.
  change (String.eqb q_list_logs q_get_log) with false.
  change (String.eqb q_list_logs q_list_logs) with true.
  cbv iota.
  destruct (Z.ltb_spec limit 0); [lia|].
  destruct (Z.ltb_spec offset 0); [lia|]. reflexivity.
Qed.

Lemma memdb_list (self : db) (limit offset : Z) (st : state memdb) :
  idle self st -> 0 <= limit -> 0 <= offset ->
  DB_fetch_all self q_list_logs [VInt limit; VInt offset] st =
  (Ok (map row_of_log (page limit offset (committed (st_world st)))),
   mkState (D:=memdb) (at_rest (committed (st_world st))) (st_conn st)
     (st_trace st ++
      [returned CConnect;
       returned (CExecute q_list_logs [VInt limit; VInt offset]);
       returned CClose])).
Proof.
  intros Hidle Hl Ho.
  set (t := committed (st_world st)).
  rewrite (DB_fetch_all_returns (D:=memdb) self q_list_logs
             [VInt limit; VInt offset] st tt (mkMem t (Some t))
             (select_cursor (page limit offset t)) (mkMem t (Some t))
             (Ok tt) (at_rest t) Hidle eq_refl).
  - reflexivity.
  - simpl. now rewrite run_statement_list.
  - reflexivity.
Qed.

Lemma insert_desc_In (e x : log_entry) (l : list log_entry) :
  In x (insert_desc e l) <-> x = e \/ In x l.
Proof.
  induction l as [|y l IH]; simpl.
  - intuition.
  - destruct (log_id y <=? log_id e); simpl; [intuition|].
    rewrite IH; intuition.
Qed.

Lemma insert_desc_sorted (e : log_entry) (l : list log_entry) :
  newest_first l -> newest_first (insert_desc e l).
Proof.
  unfold newest_first.
  induction 1 as [|y l Hs IH Hall]; simpl.
  - constructor; constructor.
  - destruct (Z.leb_spec (log_id y) (log_id e)) as [Hle|Hlt].
    + constructor; [now constructor|].
      constructor; [assumption|].
      rewrite Forall_forall in *; intros z Hz.
      specialize (Hall z Hz); simpl in Hall; lia.
    + constructor; [assumption|].
      rewrite Forall_forall in *; intros z Hz.
      apply insert_desc_In in Hz as [->|Hz]; [lia|now apply Hall].
Qed.

Lemma sort_desc_sorted (l : list log_entry) : newest_first (sort_desc l).
Proof.
  induction l as [|e l IH]; simpl; [constructor|].
  now apply insert_desc_sorted.
Qed.

Lemma sort_desc_In (x : log_entry) (l : list log_entry) :
  In x (sort_desc l) <-> In x l.
Proof.
  induction l as [|e l IH]; simpl; [reflexivity|].
  rewrite insert_desc_In, IH; intuition.
Qed.

Lemma newest_first_skipn (n : nat) (l : list log_entry) :
  newest_first l -> newest_first (skipn n l).
Proof.
  unfold newest_first. revert l; induction n as [|n IH]; intros l Hs; simpl.
  - assumption.
  - destruct l as [|x l]; [constructor|].
    apply IH. now inversion Hs.
Qed.

Lemma newest_first_firstn (n : nat) (l : list log_entry) :
  newest_first l -> newest_first (firstn n l).
Proof.
  unfold newest_first. revert l; induction n as [|n IH]; intros l Hs; simpl.
  - constructor.
  - destruct l as [|x l]; [constructor|].
    inversion Hs as [|? ? Hs' Hall]; subst.
    constructor; [now apply IH|].
    rewrite Forall_forall in *; intros z Hz.
    apply Hall. revert Hz. clear. revert l.
    induction n as [|n IH]; intros [|y l]; simpl; try contradiction.
    intros [->|Hz]; [now left|right; now apply IH].
Qed.

Lemma In_firstn {A : Type} (n : nat) (l : list A) (x : A) :
  In x (firstn n l) -> In x l.
Proof.
  revert l; induction n as [|n IH]; intros [|y l]; simpl; try contradiction.
  intros [->|Hx]; [now left|right; now apply IH].
Qed.

Lemma In_skipn {A : Type} (n : nat) (l : list A) (x : A) :
  In x (skipn n l) -> In x l.
Proof.
  revert l; induction n as [|n IH]; intros [|y l]; simpl; auto.
Qed.

Lemma page_spec (limit offset : Z) (t : tables) :
  0 <= limit ->
  Z.of_nat (List.length (page limit offset t)) <= limit
  /\ newest_first (page limit offset t)
  /\ (forall e, In e (page limit offset t) -> In e (temperature_log t)).
Proof.
  intros Hl. unfold page. split; [|split].
  - pose proof (firstn_le_length (Z.to_nat limit)
                  (skipn (Z.to_nat offset) (sort_desc (temperature_log t)))).
    lia.
  - apply newest_first_firstn, newest_first_skipn, sort_desc_sorted.
  - intros e He. apply In_firstn, In_skipn in He. now apply sort_desc_In.
Qed.



(** ** Serialization *)

Lemma digit_char_cases (k : Z) :
  exists r, 0 <= r < 10 /\ k mod 10 = r.
Proof. exists (k mod 10); split; [apply Z.mod_pos_bound; lia|reflexivity]. Qed.

Ltac each_digit r Hr :=
  assert (r = 0 \/ r = 1 \/ r = 2 \/ r = 3 \/ r = 4 \/ r = 5 \/ r = 6
          \/ r = 7 \/ r = 8 \/ r = 9) as Hr by lia;
  repeat (destruct Hr as [Hr|Hr]); subst r.

Lemma is_digit_digit_char (k : Z) : is_digit (digit_char k) = true.
Proof.
  unfold digit_char. destruct (digit_char_cases k) as (r & Hr & ->).
  each_digit r H; reflexivity.
Qed.

Lemma digit_val_digit_char (k : Z) : digit_val (digit_char k) = k mod 10.
Proof.
  unfold digit_char. destruct (digit_char_cases k) as (r & Hr & E).
  rewrite E. clear E. each_digit r H; reflexivity.
Qed.

Lemma pad_2 (n : Z) :
  pad 2 n = String (digit_char (n / 10)) (String (digit_char n) "").
Proof. reflexivity. Qed.

Lemma pad_4 (n : Z) :
  pad 4 n = String (digit_char (n / 10 / 10 / 10))
              (String (digit_char (n / 10 / 10))
                 (String (digit_char (n / 10)) (String (digit_char n) ""))).
Proof. reflexivity. Qed.

Lemma isoformat_seconds_naive (dt : datetime) :
  tzoffset dt = None ->
  isoformat_seconds dt
  = String (digit_char (year dt / 10 / 10 / 10))
      (String (digit_char (year dt / 10 / 10))
      (String (digit_char (year dt / 10))
      (String (digit_char (year dt))
      (String "-"
      (String (digit_char (month dt / 10))
      (String (digit_char (month dt))
      (String "-"
      (String (digit_char (day dt / 10))
      (String (digit_char (day dt))
      (String " "
      (String (digit_char (hour dt / 10))
      (String (digit_char (hour dt))
      (String ":"
      (String (digit_char (minute dt / 10))
      (String (digit_char (minute dt))
      (String ":"
      (String (digit_char (second dt / 10))
      (String (digit_char (second dt)) "")))))))))))))))))).
Proof.
  intros Htz. unfold isoformat_seconds. rewrite Htz, pad_4, !pad_2.
  reflexivity.
Qed.

Lemma isoformat_seconds_is_timestamp (dt : datetime) :
  tzoffset dt = None -> is_timestamp (isoformat_seconds dt) = true.
Proof.
  intros Htz. rewrite (isoformat_seconds_naive _ Htz).
  unfold is_timestamp; cbn [list_ascii_of_string].
  rewrite !is_digit_digit_char. reflexivity.
Qed.

Lemma digit_char_no_sign (k : Z) :
  Ascii.eqb (digit_char k) "+" || Ascii.eqb (digit_char k) "-" = false.
Proof.
  unfold digit_char. destruct (digit_char_cases k) as (r & Hr & ->).
  each_digit r H; reflexivity.
Qed.

Lemma two_digits (n : Z) :
  0 <= n <= 99 -> 10 * (10 * 0 + (n / 10) mod 10) + n mod 10 = n.
Proof. intros H. Z.div_mod_to_equations. lia. Qed.

Lemma four_digits (n : Z) :
  0 <= n <= 9999 ->
  10 * (10 * (10 * (10 * 0 + (n / 10 / 10 / 10) mod 10)
              + (n / 10 / 10) mod 10) + (n / 10) mod 10) + n mod 10 = n.
Proof. intros H. Z.div_mod_to_equations. lia. Qed.

Lemma valid_datetime_bounds (dt : datetime) :
  valid_datetime dt = true ->
  1 <= year dt <= 9999 /\ 1 <= month dt <= 12
  /\ 1 <= day dt <= days_in_month (year dt) (month dt)
  /\ 0 <= hour dt <= 23 /\ 0 <= minute dt <= 59 /\ 0 <= second dt <= 59
  /\ 0 <= microsecond dt <= 999999.
Proof.
  unfold valid_datetime. rewrite !andb_true_iff, !Z.leb_le. tauto.
Qed.

Lemma days_in_month_le (y m : Z) : days_in_month y m <= 31.
Proof.
  unfold days_in_month.
  destruct (m =? 2); [destruct (is_leap y); lia|].
  destruct ((m =? 4) || (m =? 6) || (m =? 9) || (m =? 11)); lia.
Qed.

Lemma valid_to_seconds (dt : datetime) :
  valid_datetime dt = true -> valid_datetime (to_seconds dt) = true.
Proof.
  intros H. pose proof (valid_datetime_bounds dt H) as B.
  unfold valid_datetime in *; simpl.
  rewrite !andb_true_iff in *. rewrite !Z.leb_le in *.
  repeat split; try tauto; lia.
Qed.

Lemma fromisoformat_isoformat_seconds (dt : datetime) :
  valid_datetime dt = true -> tzoffset dt = None ->
  fromisoformat (isoformat_seconds dt) = Some (to_seconds dt).
Proof.
  intros Hvalid Htz. pose proof (valid_datetime_bounds dt Hvalid) as B.
  pose proof (days_in_month_le (year dt) (month dt)) as Hd.
  pose proof (valid_to_seconds dt Hvalid) as Hv.
  rewrite (isoformat_seconds_naive _ Htz).
  unfold fromisoformat, parse_isoformat_date.
  cbn [list_ascii_of_string n_digits].
  rewrite !is_digit_digit_char, !digit_val_digit_char.
  rewrite four_digits, !two_digits by lia.
  cbn [Ascii.eqb Bool.eqb negb].
  unfold parse_isoformat_time. cbn [split_tz].
  rewrite !digit_char_no_sign.
  cbn [Ascii.eqb Bool.eqb orb].
  unfold parse_hh_mm_ss_ff. cbn [n_digits].
  rewrite !is_digit_digit_char, !digit_val_digit_char.
  rewrite !two_digits by lia.
  cbn [Ascii.eqb Bool.eqb negb].
  unfold to_seconds in *. rewrite Htz in Hv. now rewrite Hv, Htz.
Qed.



(** ** Write, then read *)

Lemma run_statement_insert dt sid tf h p (t : tables) :
  is_finite tf && is_finite h && is_finite p = true ->
  existsb (Z.eqb sid) (sensors t) = true ->
  run_statement q_insert_log
    [VDatetime dt; VInt sid; VFloat tf; VFloat h; VFloat p] t
  = (Ok (mkCursor 1 (next_log_id t) []),
     insert_into (inserted dt sid tf h p t) t).
Proof.
  intros Hfinite Hfk. unfold run_statement.
  change (String.eqb q_insert_log q_insert_log) with true.
  cbv iota. now rewrite Hfinite, Hfk.
Qed.

Lemma memdb_insert (self : db) dt sid tf h p (st : state memdb) :
  idle self st ->
  is_finite tf && is_finite h && is_finite p = true ->
  existsb (Z.eqb sid) (sensors (committed (st_world st))) = true ->
  DB_execute self q_insert_log
    [VDatetime dt; VInt sid; VFloat tf; VFloat h; VFloat p] st =
  (Ok (1, next_log_id (committed (st_world st))),
   mkState (D:=memdb)
     (at_rest (insert_into (inserted dt sid tf h p (committed (st_world st)))
                 (committed (st_world st))))
     (st_conn st)
     (st_trace st ++
      [returned CConnect;
       returned (CExecute q_insert_log
                   [VDatetime dt; VInt sid; VFloat tf; VFloat h; VFloat p]);
       returned CCommit; returned CClose])).
Proof.
  intros Hidle Hfinite Hfk.
  set (t := committed (st_world st)).
  set (t' := insert_into (inserted dt sid tf h p t) t).
  rewrite (DB_execute_returns (D:=memdb) self q_insert_log _ st tt
             (mkMem t (Some t)) (mkCursor 1 (next_log_id t) [])
             (mkMem t (Some t')) (mkMem t' (Some t')) (Ok tt) (at_rest t')
             Hidle eq_refl).
  - reflexivity.
  - simpl. now rewrite run_statement_insert.
  - reflexivity.
  - reflexivity.
Qed.

Lemma memdb_get (self : db) (id : Z) (st : state memdb) :
  idle self st ->
  DB_fetch_one self q_get_log [VInt id] st =
  (Ok (hd_error (map row_of_log (select_log id (committed (st_world st))))),
   mkState (D:=memdb) (at_rest (committed (st_world st))) (st_conn st)
     (st_trace st ++
      [returned CConnect; returned (CExecute q_get_log [VInt id]);
       returned CClose])).
Proof.
  intros Hidle.
  exact (DB_fetch_one_returns (D:=memdb) self q_get_log [VInt id] st tt
           _ _ _ (Ok tt) _ Hidle eq_refl eq_refl eq_refl).
Qed.

Lemma select_inserted (e : log_entry) (t : tables) :
  ids_below_next t -> log_id e = next_log_id t ->
  select_log (next_log_id t) (insert_into e t) = [e].
Proof.
  unfold ids_below_next, select_log, insert_into; simpl.
  intros Hbelow He. rewrite filter_app; simpl.
  rewrite He, Z.eqb_refl.
  replace (filter _ (temperature_log t)) with (@nil log_entry); [reflexivity|].
  symmetry. induction Hbelow as [|x l Hx Hl IH]; simpl; [reflexivity|].
  destruct (Z.eqb_spec (log_id x) (next_log_id t)); [lia|assumption].
Qed.

Lemma int_value_ok (v : value) (z : Z) :
  py_int v = Ok z -> int_value v = Ok (VInt z).
Proof. unfold int_value; now intros ->. Qed.

Lemma float_value_ok (v : value) (f : pyfloat) :
  py_float v = Ok f -> float_value v = Ok (VFloat f).
Proof. unfold float_value; now intros ->. Qed.

Lemma create_temperature_on_memdb (utcnow : datetime) (st : state memdb)
  (d : list (string * value)) (a : list (string * string))
  (v1 v2 v3 v4 rt : value) (sid : Z) (tf h p : pyfloat) (dt : datetime) :
  assoc "sensor_id" d = Some v1 -> py_int v1 = Ok sid ->
  assoc "temperature_f" d = Some v2 -> py_float v2 = Ok tf ->
  assoc "humidity" d = Some v3 -> py_float v3 = Ok h ->
  assoc "pressure" d = Some v4 -> py_float v4 = Ok p ->
  assoc "read_time" d = Some rt -> truthy rt = true ->
  parse_read_time rt = Ok dt ->
  is_finite tf && is_finite h && is_finite p = true ->
  existsb (Z.eqb sid) (sensors (committed (st_world st))) = true ->
  ids_below_next (committed (st_world st)) ->
  let t := committed (st_world st) in
  let e := inserted dt sid tf h p t in
  exists st1,
    create_temperature utcnow (mkRequest true (VDict d) a) st
    = (Ok (mkResponse
             (VDict [("message", VStr "log created"); ("log", json_log e)])
             201), st1)
    /\ st_world st1 = at_rest (insert_into e t).
Proof.
  intros Hs Hsid Ht Htf Hh Hhum Hp Hpr Hrt Htruthy Hparse Hfinite Hfk Hbelow.
  intros t e.
  assert (Hd : require_json (mkRequest true (VDict d) a) = (VDict d, None)).
  { destruct d; [discriminate|reflexivity]. }
  unfold create_temperature; rewrite Hd.
  unfold bind at 1, lift at 1. rewrite missing_fields_dict.
  unfold log_required; cbn [filter]. unfold has_key.
  rewrite Hs, Ht, Hh, Hp; cbn [negb].
  unfold bind at 1, lift at 1; cbn [py_get]. rewrite Hrt, Htruthy, Hparse.
  unfold try_except, bind, lift, get_db; cbn [py_getitem of_option].
  rewrite Hs, Ht, Hh, Hp; cbn [of_option].
  rewrite (int_value_ok _ _ Hsid), (float_value_ok _ _ Htf),
    (float_value_ok _ _ Hhum), (float_value_ok _ _ Hpr).
  fold (new_db st) (after_get_db st).
  rewrite (memdb_insert _ _ _ _ _ _ _ (new_db_idle st) Hfinite Hfk).
  cbn [snd].
  match goal with
  | |- context [DB_fetch_one ?n _ _ ?s] =>
      change n with (new_db (D:=memdb)
                       (mkState (D:=memdb) (st_world s)
                          (st_conn (after_get_db st)) (st_trace s)));
      change s with (after_get_db (D:=memdb)
                       (mkState (D:=memdb) (st_world s)
                          (st_conn (after_get_db st)) (st_trace s)))
  end.
  rewrite (memdb_get _ _ _ (new_db_idle _)).
  cbn [st_world committed at_rest after_get_db].
  fold t. fold e.
  rewrite (select_inserted e t Hbelow eq_refl).
  cbn [map hd_error]. rewrite as_json_row.
  eexists; split; reflexivity.
Qed.

(** *** Reading a timestamp and writing it again *)

Lemma is_digit_no_sign (c : ascii) :
  is_digit c = true -> Ascii.eqb c "+" || Ascii.eqb c "-" = false.
Proof.
  destruct c as [[] [] [] [] [] [] [] []]; try discriminate; reflexivity.
Qed.

Lemma digit_char_digit_val (c : ascii) :
  is_digit c = true -> digit_char (digit_val c) = c.
Proof.
  destruct c as [[] [] [] [] [] [] [] []]; try discriminate; reflexivity.
Qed.

Lemma digit_val_bounds (c : ascii) :
  is_digit c = true -> 0 <= digit_val c <= 9.
Proof.
  destruct c as [[] [] [] [] [] [] [] []]; try discriminate;
    intros _; unfold digit_val; simpl; lia.
Qed.

Lemma digit_char_mod (k r : Z) :
  k mod 10 = r mod 10 -> digit_char k = digit_char r.
Proof. unfold digit_char; now intros ->. Qed.

Lemma pad_2_digits (c1 c2 : ascii) :
  is_digit c1 = true -> is_digit c2 = true ->
  pad 2 (10 * (10 * 0 + digit_val c1) + digit_val c2)
  = String c1 (String c2 "").
Proof.
  intros H1 H2. rewrite pad_2.
  pose proof (digit_val_bounds c1 H1). pose proof (digit_val_bounds c2 H2).
  replace (String c1 (String c2 ""))
    with (String (digit_char (digit_val c1))
            (String (digit_char (digit_val c2)) ""))
    by (now rewrite !digit_char_digit_val).
  f_equal; [|f_equal]; apply digit_char_mod; Z.div_mod_to_equations; lia.
Qed.

Lemma pad_4_digits (c1 c2 c3 c4 : ascii) :
  is_digit c1 = true -> is_digit c2 = true ->
  is_digit c3 = true -> is_digit c4 = true ->
  pad 4 (10 * (10 * (10 * (10 * 0 + digit_val c1) + digit_val c2)
               + digit_val c3) + digit_val c4)
  = String c1 (String c2 (String c3 (String c4 ""))).
Proof.
  intros H1 H2 H3 H4. rewrite pad_4.
  pose proof (digit_val_bounds c1 H1). pose proof (digit_val_bounds c2 H2).
  pose proof (digit_val_bounds c3 H3). pose proof (digit_val_bounds c4 H4).
  replace (String c1 (String c2 (String c3 (String c4 ""))))
    with (String (digit_char (digit_val c1))
            (String (digit_char (digit_val c2))
               (String (digit_char (digit_val c3))
                  (String (digit_char (digit_val c4)) ""))))
    by (now rewrite !digit_char_digit_val).
  f_equal; [|f_equal; [|f_equal; [|f_equal]]];
    apply digit_char_mod; Z.div_mod_to_equations; lia.
Qed.

Lemma string_of_list_ascii_inj (s : string) (l : list ascii) :
  list_ascii_of_string s = l -> s = string_of_list_ascii l.
Proof. intros <-. now rewrite string_of_list_ascii_of_string. Qed.

(** A string of the fixed format that [fromisoformat] accepts is what
    [isoformat] writes for the value read. *)
Lemma isoformat_seconds_fromisoformat (s : string) (dt : datetime) :
  is_timestamp s = true -> fromisoformat s = Some dt ->
  isoformat_seconds dt = s.
Proof.
  unfold is_timestamp, fromisoformat.
  destruct (list_ascii_of_string s) as [|y1 [|y2 [|y3 [|y4 [|a [|m1 [|m2 [|b
    [|d1 [|d2 [|sp [|h1 [|h2 [|c [|n1 [|n2 [|c' [|s1 [|s2
    [|x l]]]]]]]]]]]]]]]]]]]]
    eqn:E; try discriminate.
  apply string_of_list_ascii_inj in E. subst s.
  rewrite !andb_true_iff.
  intros [[[[[[[[[[[[[[[[[[Hy1 Hy2] Hy3] Hy4] Ha] Hm1] Hm2] Hb] Hd1] Hd2] Hsp]
    Hh1] Hh2] Hc] Hn1] Hn2] Hc'] Hs1] Hs2].
  apply Ascii.eqb_eq in Ha, Hb, Hsp, Hc, Hc'. subst a b sp c c'.
  unfold parse_isoformat_date. cbn [n_digits].
  rewrite Hy1, Hy2, Hy3, Hy4, Hm1, Hm2, Hd1, Hd2.
  cbn [Ascii.eqb Bool.eqb negb].
  unfold parse_isoformat_time. cbn [split_tz].
  rewrite (is_digit_no_sign _ Hh1), (is_digit_no_sign _ Hh2),
    (is_digit_no_sign _ Hn1), (is_digit_no_sign _ Hn2),
    (is_digit_no_sign _ Hs1), (is_digit_no_sign _ Hs2).
  cbn [Ascii.eqb Bool.eqb orb].
  unfold parse_hh_mm_ss_ff. cbn [n_digits].
  rewrite Hh1, Hh2, Hn1, Hn2, Hs1, Hs2.
  cbn [Ascii.eqb Bool.eqb negb].
  match goal with
  | |- context [mkDatetime ?y ?m ?d ?h ?n ?sec _ _] =>
      remember y as Y eqn:EY; remember m as M eqn:EM;
      remember d as Dd eqn:ED; remember h as H eqn:EH;
      remember n as N eqn:EN; remember sec as S eqn:ES
  end.
  destruct (valid_datetime _); [|discriminate].
  intros [= <-].
  unfold isoformat_seconds; cbn [year month day hour minute second tzoffset].
  subst Y M Dd H N S.
  rewrite pad_4_digits, !pad_2_digits by assumption.
  reflexivity.
Qed.

Lemma get_log_inserted (e : log_entry) (t : tables) (st1 : state memdb) :
  st_world st1 = at_rest (insert_into e t) ->
  ids_below_next t -> log_id e = next_log_id t ->
  exists st2, get_log (next_log_id t) st1 = (Ok (jsonify (json_log e)), st2).
Proof.
  intros Hworld Hbelow He.
  rewrite get_log_outcome, (memdb_get _ _ _ (new_db_idle st1)).
  cbn [after_get_db st_world]. rewrite Hworld. cbn [committed at_rest].
  rewrite (select_inserted e t Hbelow He).
  eexists; reflexivity.
Qed.

(** C5.  On the reference server, with the sensor present: a POST whose
    [read_time] is ["2025-09-24T13:05:00"] answers 201 with the created log,
    whose [read_time] is ["2025-09-24 13:05:00"], and a GET of the created
    id answers the same [read_time].  More generally, whenever the
    [T]-normalized [read_time] has the shape [YYYY-MM-DD HH:MM:SS] and
    parses, serializing the parsed value gives the normalized string back. *)
Theorem read_time_round_trip (utcnow : datetime) (st : state memdb)
  (d : list (string * value)) (a : list (string * string))
  (v1 v2 v3 v4 : value) (sid : Z) (tf h p : pyfloat) :
  assoc "sensor_id" d = Some v1 -> py_int v1 = Ok sid ->
  assoc "temperature_f" d = Some v2 -> py_float v2 = Ok tf ->
  assoc "humidity" d = Some v3 -> py_float v3 = Ok h ->
  assoc "pressure" d = Some v4 -> py_float v4 = Ok p ->
  assoc "read_time" d = Some (VStr "2025-09-24T13:05:00") ->
  is_finite tf && is_finite h && is_finite p = true ->
  existsb (Z.eqb sid) (sensors (committed (st_world st))) = true ->
  ids_below_next (committed (st_world st)) ->
  (exists created st1 fetched st2,
     create_temperature utcnow (mkRequest true (VDict d) a) st
     = (Ok (mkResponse
              (VDict [("message", VStr "log created"); ("log", VDict created)])
              201), st1)
     /\ assoc "read_time" created = Some (VStr "2025-09-24 13:05:00")
     /\ assoc "log_id" created
        = Some (VInt (next_log_id (committed (st_world st))))
     /\ get_log (next_log_id (committed (st_world st))) st1
        = (Ok (jsonify (VDict fetched)), st2)
     /\ assoc "read_time" fetched = Some (VStr "2025-09-24 13:05:00"))
  /\
  (forall s dt,
     is_timestamp (str_replace "T" " " s) = true ->
     parse_read_time (VStr s) = Ok dt ->
     convert_value (VDatetime dt) = VStr (str_replace "T" " " s)).
Proof.
  intros Hs Hsid Ht Htf Hh Hhum Hp Hpr Hrt Hfinite Hfk Hbelow. split.
  - destruct (create_temperature_on_memdb utcnow st d a v1 v2 v3 v4
                (VStr "2025-09-24T13:05:00") sid tf h p noon
                Hs Hsid Ht Htf Hh Hhum Hp Hpr Hrt eq_refl eq_refl
                Hfinite Hfk Hbelow) as (st1 & Hpost & Hworld).
    destruct (get_log_inserted _ _ st1 Hworld Hbelow eq_refl) as (st2 & Hget).
    eexists _, st1, _, st2.
    split; [exact Hpost|]. split; [reflexivity|]. split; [reflexivity|].
    split; [exact Hget|reflexivity].
  - intros s dt Hshape Hparse.
    unfold parse_read_time in Hparse; simpl in Hparse.
    destruct (fromisoformat (str_replace "T" " " s)) as [dt'|] eqn:E;
      [|discriminate].
    inversion Hparse; subst dt'. simpl.
    now rewrite (isoformat_seconds_fromisoformat _ _ Hshape E).
Qed.

(** C5 at the table that holds the sensor 1 and the log 7. *)
Lemma read_time_round_trip_at_one_log :
  (existsb (Z.eqb 1) (sensors one_log) = true /\ ids_below_next one_log)
  /\ exists created st1 fetched st2,
       create_temperature noon (mkRequest true (VDict post_noon) [])
         (on_tables one_log)
       = (Ok (mkResponse
                (VDict [("message", VStr "log created");
                        ("log", VDict created)]) 201), st1)
       /\ assoc "read_time" created = Some (VStr "2025-09-24 13:05:00")
       /\ assoc "log_id" created = Some (VInt 8)
       /\ get_log 8 st1 = (Ok (jsonify (VDict fetched)), st2)
       /\ assoc "read_time" fetched = Some (VStr "2025-09-24 13:05:00").
Proof.
  assert (Hbelow : ids_below_next one_log).
  { repeat constructor. }
  split; [split; [reflexivity|exact Hbelow]|].
  exact (proj1 (read_time_round_trip noon (on_tables one_log) post_noon []
                  (VInt 1) (VStr "72.5") (VStr "44.3") (VInt 995) 1
                  _ _ _ eq_refl eq_refl eq_refl eq_refl eq_refl eq_refl
                  eq_refl eq_refl eq_refl eq_refl eq_refl Hbelow)).
Defined.

(** * Further properties *)

(** ** Wrong content type *)

(** X1.  A request whose content type is not JSON is answered 415 by each of
    the four handlers that read a body, before anything else happens: no
    [DB] object is made, no driver call. *)
Theorem not_json_is_answered_415
  (D : Driver) (utcnow : datetime) (id : Z) (req : request) (st : state D) :
  is_json req = false ->
  let answer :=
    (Ok (bad_request "Content-Type must be application/json" 415), st) in
  create_sensor req st = answer
  /\ update_sensor id req st = answer
  /\ create_temperature utcnow req st = answer
  /\ update_log id req st = answer.
Proof.
  intros Hjson answer.
  unfold create_sensor, update_sensor, create_temperature, update_log,
    require_json.
  rewrite Hjson. repeat split.
Qed.

(** X1 at a request without a JSON content type. *)
Lemma not_json_at_plain_text :
  is_json (mkRequest false VNone []) = false
  /\ create_sensor (mkRequest false VNone []) (on_script always_ok)
     = (Ok (bad_request "Content-Type must be application/json" 415),
        on_script always_ok).
Proof.
  split; [reflexivity|].
  exact (proj1 (not_json_is_answered_415 scripted noon 1
                  (mkRequest false VNone []) (on_script always_ok) eq_refl)).
Defined.

(** ** The discipline of a connection, request after request *)

Lemma follows_app (open : bool) (a b : list event) :
  follows open (a ++ b)
  = match follows open a with
    | Some open' => follows open' b
    | None => None
    end.
Proof.
  revert open; induction a as [|ev a IH]; intros open; simpl; [reflexivity|].
  destruct (ev_call ev), open; auto.
Qed.

Section Keeps.

Context {D : Driver}.

Lemma at_peace_get_db (st : state D) :
  at_peace st ->
  at_peace (mkState (st_world st) (st_conn st ++ [None]) (st_trace st)).
Proof.
  intros [Hidle Hfollows]; split; [|exact Hfollows].
  unfold all_idle in *; simpl.
  apply Forall_app; split; [assumption|]. repeat constructor.
Qed.

Ltac settled_of H Hsettled :=
  inversion H; subst; clear H;
  destruct Hsettled as [[Hall Hfollows] Hle];
  split; [split; [exact Hall|]|exact Hle];
  cbn [st_trace]; rewrite follows_app, Hfollows; reflexivity.

Lemma settled_idle (self : db) (st : state D) :
  settled (S self) st -> idle self st.
Proof.
  intros [[Hall _] Hle]; split; [|lia].
  unfold all_idle in Hall; rewrite Forall_forall in Hall.
  apply Hall, nth_In; lia.
Qed.

Lemma DB_execute_settled self q params (st : state D) r st' :
  settled (S self) st ->
  DB_execute self q params st = (r, st') -> settled (S self) st'.
Proof.
  intros Hsettled H. pose proof (settled_idle _ _ Hsettled) as Hidle.
  destruct (drv_connect D (st_world st)) as [[c|e0] w1] eqn:Hconnect.
  2:{ rewrite (DB_execute_connect_raises _ _ _ _ _ _ Hidle Hconnect) in H.
      settled_of H Hsettled. }
  destruct (drv_execute D c q params w1) as [[cur|e] w2] eqn:Hexec.
  - destruct (drv_commit D c w2) as [[[]|e] w3] eqn:Hcommit.
    + destruct (drv_close D c w3) as [cl w4] eqn:Hclose.
      rewrite (DB_execute_returns _ _ _ _ _ _ _ _ _ _ _
                 Hidle Hconnect Hexec Hcommit Hclose) in H.
      settled_of H Hsettled.
    + destruct (drv_rollback D c w3) as [rb w4] eqn:Hrollback.
      destruct (drv_close D c w4) as [cl w5] eqn:Hclose.
      rewrite (DB_execute_commit_raises _ _ _ _ _ _ _ _ _ _ _ _ _ _
                 Hidle Hconnect Hexec Hcommit Hrollback Hclose) in H.
      settled_of H Hsettled.
  - destruct (drv_rollback D c w2) as [rb w3] eqn:Hrollback.
    destruct (drv_close D c w3) as [cl w4] eqn:Hclose.
    rewrite (DB_execute_statement_raises _ _ _ _ _ _ _ _ _ _ _ _
               Hidle Hconnect Hexec Hrollback Hclose) in H.
    settled_of H Hsettled.
Qed.

Lemma DB_fetch_all_settled self q params (st : state D) r st' :
  settled (S self) st ->
  DB_fetch_all self q params st = (r, st') -> settled (S self) st'.
Proof.
  intros Hsettled H. pose proof (settled_idle _ _ Hsettled) as Hidle.
  destruct (drv_connect D (st_world st)) as [[c|e0] w1] eqn:Hconnect.
  2:{ rewrite (DB_fetch_all_connect_raises _ _ _ _ _ _ Hidle Hconnect) in H.
      settled_of H Hsettled. }
  destruct (drv_execute D c q params w1) as [[cur|e] w2] eqn:Hexec;
    destruct (drv_close D c w2) as [cl w3] eqn:Hclose.
  - rewrite (DB_fetch_all_returns _ _ _ _ _ _ _ _ _ _
               Hidle Hconnect Hexec Hclose) in H.
    settled_of H Hsettled.
  - rewrite (DB_fetch_all_statement_raises _ _ _ _ _ _ _ _ _ _
               Hidle Hconnect Hexec Hclose) in H.
    settled_of H Hsettled.
Qed.

Lemma DB_fetch_one_settled self q params (st : state D) r st' :
  settled (S self) st ->
  DB_fetch_one self q params st = (r, st') -> settled (S self) st'.
Proof.
  intros Hsettled H. pose proof (settled_idle _ _ Hsettled) as Hidle.
  destruct (drv_connect D (st_world st)) as [[c|e0] w1] eqn:Hconnect.
  2:{ rewrite (DB_fetch_one_connect_raises _ _ _ _ _ _ Hidle Hconnect) in H.
      settled_of H Hsettled. }
  destruct (drv_execute D c q params w1) as [[cur|e] w2] eqn:Hexec;
    destruct (drv_close D c w2) as [cl w3] eqn:Hclose.
  - rewrite (DB_fetch_one_returns _ _ _ _ _ _ _ _ _ _
               Hidle Hconnect Hexec Hclose) in H.
    settled_of H Hsettled.
  - rewrite (DB_fetch_one_statement_raises _ _ _ _ _ _ _ _ _ _
               Hidle Hconnect Hexec Hclose) in H.
    settled_of H Hsettled.
Qed.

(** *** The rules of [keeps] *)

Lemma keeps_ret {A : Type} n (a : A) (R : result A -> Prop) :
  R (Ok a) -> keeps (D:=D) n (ret a) R.
Proof. intros HR st; split; [auto|exact HR]. Qed.

Lemma keeps_raise {A : Type} n (e : exn) (R : result A -> Prop) :
  R (Raise e) -> keeps (D:=D) n (raise e) R.
Proof. intros HR st; split; [auto|exact HR]. Qed.

Lemma keeps_lift {A : Type} n (r : result A) (R : result A -> Prop) :
  R r -> keeps (D:=D) n (lift r) R.
Proof. intros HR st; split; [auto|exact HR]. Qed.

Lemma keeps_bind {A B : Type} n (c : M D A) (k : A -> M D B)
  (Rc : result A -> Prop) (R : result B -> Prop) :
  keeps n c Rc ->
  (forall a, Rc (Ok a) -> keeps n (k a) R) ->
  (forall e, Rc (Raise e) -> R (Raise e)) ->
  keeps n (bind c k) R.
Proof.
  intros Hc Hk He st. destruct (Hc st) as [Hs Hr]. unfold bind.
  destruct (c st) as [[a|e] st1]; simpl in *.
  - destruct (Hk a Hr st1) as [Hs1 Hr1]. split; auto.
  - split; auto.
Qed.

Lemma keeps_bind_lift {A B : Type} n (r : result A) (k : A -> M D B)
  (R : result B -> Prop) :
  match r with Ok a => keeps n (k a) R | Raise e => R (Raise e) end ->
  keeps n (bind (lift r) k) R.
Proof.
  intros H st. unfold bind, lift. destruct r as [a|e]; [apply H|].
  split; auto.
Qed.

Lemma keeps_get_db {B : Type} n (k : db -> M D B) (R : result B -> Prop) :
  (forall self, keeps (S self) (k self) R) -> keeps n (bind get_db k) R.
Proof.
  intros Hk st. unfold bind, get_db.
  destruct (Hk (List.length (st_conn st))
              (mkState (st_world st) (st_conn st ++ [None]) (st_trace st)))
    as [Hs Hr].
  split; [|exact Hr].
  intros [Hpeace Hle].
  destruct Hs as [Hpeace' Hle'].
  - split; [apply (at_peace_get_db st Hpeace)|].
    simpl. rewrite length_app. simpl. lia.
  - split; [exact Hpeace'|lia].
Qed.

Lemma keeps_try_except {A : Type} n (body : M D A)
  (handler : exn -> option (M D A)) (Rb R : result A -> Prop) :
  keeps n body Rb ->
  (forall a, Rb (Ok a) -> R (Ok a)) ->
  (forall e, Rb (Raise e) ->
     match handler e with
     | Some h => keeps n h R
     | None => R (Raise e)
     end) ->
  keeps n (try_except body handler) R.
Proof.
  intros Hb Hok Hh st. destruct (Hb st) as [Hs Hr]. unfold try_except.
  destruct (body st) as [[a|e] st1]; simpl in *.
  - split; auto.
  - specialize (Hh e Hr). destruct (handler e) as [h|].
    + destruct (Hh st1) as [Hs1 Hr1]. split; auto.
    + split; auto.
Qed.

Lemma keeps_weaken {A : Type} n (c : M D A) (R R' : result A -> Prop) :
  keeps n c R -> (forall r, R r -> R' r) -> keeps n c R'.
Proof. intros Hc HR st. destruct (Hc st). split; auto. Qed.

Lemma keeps_DB_execute self q params :
  keeps (D:=D) (S self) (DB_execute self q params) anything.
Proof.
  intros st; split; [|exact I]. intros Hs.
  eapply DB_execute_settled; [exact Hs|apply surjective_pairing].
Qed.

Lemma keeps_DB_fetch_one self q params :
  keeps (D:=D) (S self) (DB_fetch_one self q params) anything.
Proof.
  intros st; split; [|exact I]. intros Hs.
  eapply DB_fetch_one_settled; [exact Hs|apply surjective_pairing].
Qed.

Lemma keeps_DB_fetch_all self q params :
  keeps (D:=D) (S self) (DB_fetch_all self q params) anything.
Proof.
  intros st; split; [|exact I]. intros Hs.
  eapply DB_fetch_all_settled; [exact Hs|apply surjective_pairing].
Qed.

End Keeps.

(** ** Every handler, statement by statement *)

Lemma is_answer_bad_request (message : string) (code : Z) :
  code = 400 \/ code = 404 \/ code = 415 ->
  is_error_answer (bad_request message code).
Proof. intros H; exists message, code; split; [reflexivity|exact H]. Qed.

Lemma is_error_answer_is_answer (resp : response) :
  is_error_answer resp -> is_answer resp.
Proof. intros H; right; right; left; exact H. Qed.

Ltac innermost x :=
  lazymatch x with
  | context [match ?y with _ => _ end] => innermost y
  | _ => x
  end.

Create HintDb shape.

#[local] Hint Resolve is_answer_bad_request is_error_answer_is_answer : shape.

Ltac shape :=
  lazymatch goal with
  | |- anything _ => exact I
  | |- answers (Raise _) => exact I
  | |- validates (Raise _) => exact I
  | |- validates (Ok (inr _)) => exact I
  | |- validates (Ok (inl _)) =>
      apply is_answer_bad_request; auto
  | |- returns (Ok _) =>
      eexists; split; [reflexivity|]; shape
  | |- answers (Ok _) => cbn [answers]; shape
  | |- is_answer (bad_request _ _) =>
      apply is_error_answer_is_answer, is_answer_bad_request; auto
  | |- is_answer (jsonify _) => left; reflexivity
  | |- is_answer (mkResponse _ 201) => right; left; reflexivity
  | |- is_answer (mkResponse _ 503) => right; right; right; reflexivity
  | |- is_answer _ => auto with shape
  end.

Ltac handled :=
  unfold first_of, on_integrity_error, on_exception;
  repeat match goal with
         | |- context [match ?x with _ => _ end] =>
             lazymatch goal with
             | |- keeps _ _ _ => fail
             | _ => let y := innermost x in destruct y
             end
         end.

Ltac keep :=
  cbv beta iota zeta;
  lazymatch goal with
  | |- keeps _ (ret _) _ => apply keeps_ret; shape
  | |- keeps _ (raise _) _ => apply keeps_raise; shape
  | |- keeps _ (bind get_db _) _ => apply keeps_get_db; intros ?; keep
  | |- keeps _ (bind (lift (Ok _)) _) _ => apply keeps_bind_lift; keep
  | |- keeps _ (bind (lift (Raise _)) _) _ => apply keeps_bind_lift; shape
  | |- keeps _ (bind (lift ?r) _) _ =>
      apply keeps_bind_lift; destruct r eqn:?; [keep|shape]
  | |- keeps _ (bind (DB_execute _ _ _) _) _ =>
      eapply keeps_bind;
      [apply keeps_DB_execute|intros ? _; keep|intros ? _; shape]
  | |- keeps _ (bind (DB_fetch_one _ _ _) _) _ =>
      eapply keeps_bind;
      [apply keeps_DB_fetch_one|intros ? _; keep|intros ? _; shape]
  | |- keeps _ (bind (DB_fetch_all _ _ _) _) _ =>
      eapply keeps_bind;
      [apply keeps_DB_fetch_all|intros ? _; keep|intros ? _; shape]
  | |- keeps _ (try_except _ _) validates =>
      apply keeps_try_except with (Rb := validates);
      [keep|intros ? ?; assumption|intros ? _; handled; first [keep|shape]]
  | |- keeps _ (try_except _ _) ?R =>
      apply keeps_try_except with (Rb := answers);
      [keep
      |intros ? ?;
       first [assumption|eexists; split; [reflexivity|assumption]]
      |intros ? _; handled; first [keep|shape]]
  | |- keeps _ (match ?x with _ => _ end) _ =>
      let y := innermost x in destruct y eqn:?; keep
  end.

Section Service.

Context {D : Driver}.

Lemma keeps_home n : keeps (D:=D) n home returns.
Proof. unfold home. keep. Qed.

Lemma keeps_health n : keeps (D:=D) n health returns.
Proof. unfold health. keep. Qed.

Lemma keeps_delete_log n log_id : keeps (D:=D) n (delete_log log_id) returns.
Proof. unfold delete_log. keep. Qed.

Lemma keeps_list_sensors n : keeps (D:=D) n list_sensors answers.
Proof. unfold list_sensors. keep. Qed.

Lemma keeps_get_sensor n sensor_id :
  keeps (D:=D) n (get_sensor sensor_id) answers.
Proof. unfold get_sensor. keep. Qed.

Lemma keeps_get_log n log_id : keeps (D:=D) n (get_log log_id) answers.
Proof. unfold get_log. keep. Qed.

Lemma keeps_list_temperatures n req :
  keeps (D:=D) n (list_temperatures req) answers.
Proof. unfold list_temperatures. keep. Qed.

Lemma keeps_create_sensor n req :
  keeps (D:=D) n (create_sensor req) answers.
Proof. unfold create_sensor, require_json. keep. Qed.

Lemma keeps_update_sensor n sensor_id req :
  keeps (D:=D) n (update_sensor sensor_id req) answers.
Proof. unfold update_sensor, require_json. keep. Qed.

Lemma keeps_create_temperature n utcnow req :
  keeps (D:=D) n (create_temperature utcnow req) answers.
Proof. unfold create_temperature, require_json. keep. Qed.

Lemma keeps_read_time_field n data acc :
  keeps (D:=D) n (read_time_field data acc) validates.
Proof. unfold read_time_field. keep. Qed.

Lemma keeps_number_field n k conv message data acc :
  keeps (D:=D) n (number_field k conv message data acc) validates.
Proof. unfold number_field. keep. Qed.

Lemma keeps_and_then {X Y : Type} n (c : M D (response + X))
  (k : X -> M D (response + Y)) :
  keeps n c validates -> (forall x, keeps n (k x) validates) ->
  keeps n (and_then c k) validates.
Proof.
  intros Hc Hk. unfold and_then.
  apply keeps_bind with (Rc := validates); [exact Hc| |intros ? _; exact I].
  intros [resp|x] H; [apply keeps_ret; exact H|apply Hk].
Qed.

Lemma keeps_validate_log n data :
  keeps (D:=D) n (validate_log data) validates.
Proof.
  unfold validate_log.
  repeat (apply keeps_and_then; [|intros ?]);
    first [apply keeps_read_time_field|apply keeps_number_field].
Qed.

Lemma keeps_update_log n log_id req :
  keeps (D:=D) n (update_log log_id req) answers.
Proof.
  unfold update_log, require_json.
  destruct (negb (is_json req)); [keep|].
  apply keeps_bind with (Rc := validates);
    [apply keeps_validate_log| |intros ? _; exact I].
  intros [resp|[sets params]] H.
  - apply keeps_ret, is_error_answer_is_answer, H.
  - keep.
Qed.

(** What every handler keeps. *)
Lemma keeps_handle n utcnow r : keeps (D:=D) n (handle utcnow r) answers.
Proof.
  assert (Hreturns : forall c : M D response,
             keeps n c returns -> keeps n c answers).
  { intros c Hc. apply (keeps_weaken _ _ _ _ Hc).
    intros ? [resp [-> Hresp]]. exact Hresp. }
  destruct r; simpl.
  - apply Hreturns, keeps_home.
  - apply Hreturns, keeps_health.
  - apply keeps_list_sensors.
  - apply keeps_get_sensor.
  - apply keeps_create_sensor.
  - apply keeps_update_sensor.
  - apply keeps_create_temperature.
  - apply keeps_list_temperatures.
  - apply keeps_get_log.
  - apply keeps_update_log.
  - apply Hreturns, keeps_delete_log.
Qed.

Lemma at_peace_handle utcnow r (st : state D) :
  at_peace st -> at_peace (snd (handle utcnow r st)).
Proof.
  intros H. apply (proj1 (keeps_handle 0 utcnow r st)). split; [exact H|lia].
Qed.

Lemma at_peace_serve requests (st : state D) :
  at_peace st -> at_peace (serve requests st).
Proof.
  revert st; induction requests as [|[utcnow r] requests IH]; intros st H;
    simpl; [exact H|].
  apply IH, at_peace_handle, H.
Qed.

End Service.

(** X2.  Whatever the clients ask and whatever the driver answers, the
    service follows the discipline of a connection: starting from nothing,
    after any sequence of requests no [DB] object holds a connection, and in
    the whole trace [connect] was only called while no connection was
    open, every statement, [commit] and [rollback] went to the open one,
    every connection that opened was closed, and [ping] was never called. *)
Theorem service_follows_the_discipline
  (D : Driver) (w : world D) (requests : list (datetime * route)) :
  at_peace (serve requests (initial w)).
Proof. apply at_peace_serve. split; [constructor|reflexivity]. Qed.

(** X3.  Whatever a handler returns is an answer of one of four shapes: a
    200, a 201, an error body [{"error": {"code": c, "message": m}}] whose
    code is the status and one of 400, 404 and 415, or the 503 of
    [health]. *)
Theorem every_answer_has_a_shape
  (D : Driver) (utcnow : datetime) (r : route) (st : state D) :
  answers (fst (handle utcnow r st)).
Proof. apply (proj2 (keeps_handle 0 utcnow r st)). Qed.

(** ** What never leaves a handler *)

Lemma has_key_field (k : string) (d : list (string * value)) :
  has_key k d = true -> assoc k d = Some (field d k).
Proof.
  unfold has_key, field. destruct (assoc k d); [reflexivity|discriminate].
Qed.

Lemma collect_fields_dict (keys : list string) (d : list (string * value)) :
  collect_fields keys (VDict d)
  = Ok (map set_item (filter (fun k => has_key k d) keys),
        map (field d) (filter (fun k => has_key k d) keys)).
Proof.
  induction keys as [|k ks IH]; [reflexivity|].
  cbn [collect_fields py_contains py_getitem filter].
  destruct (has_key k d) eqn:Hk.
  - rewrite (has_key_field _ _ Hk), IH. reflexivity.
  - exact IH.
Qed.

Section NoEscape.

Context {D : Driver}.

Lemma create_sensor_returns n req :
  object_body req -> keeps (D:=D) n (create_sensor req) returns.
Proof.
  intros [d Hd]. unfold create_sensor, require_json.
  destruct (negb (is_json req)); [keep|].
  rewrite Hd, missing_fields_dict. keep.
Qed.

Lemma update_sensor_returns n sensor_id req :
  object_body req -> keeps (D:=D) n (update_sensor sensor_id req) returns.
Proof.
  intros [d Hd]. unfold update_sensor, require_json.
  destruct (negb (is_json req)); [keep|].
  rewrite Hd, collect_fields_dict. keep.
Qed.

Lemma create_temperature_returns n utcnow req :
  object_body req ->
  keeps (D:=D) n (create_temperature utcnow req) returns.
Proof.
  intros [d Hd]. unfold create_temperature, require_json.
  destruct (negb (is_json req)); [keep|].
  rewrite Hd, missing_fields_dict. cbn [py_get]. keep.
Qed.

End NoEscape.

(** X4.  With a JSON object as body (or none: an absent, unparseable or
    falsy body stands for the empty object), [create_sensor],
    [update_sensor] and [create_temperature] raise nothing, whatever the
    fields hold and whatever the driver does: each returns an answer. *)
Theorem object_bodies_are_always_answered
  (D : Driver) (utcnow : datetime) (id : Z) (req : request) (st : state D) :
  object_body req ->
  returns (fst (create_sensor req st))
  /\ returns (fst (update_sensor id req st))
  /\ returns (fst (create_temperature utcnow req st)).
Proof.
  intros Hbody. split; [|split].
  - apply (proj2 (create_sensor_returns 0 req Hbody st)).
  - apply (proj2 (update_sensor_returns 0 id req Hbody st)).
  - apply (proj2 (create_temperature_returns 0 utcnow req Hbody st)).
Qed.

(** X4 at a body whose [sensor_id] is a list. *)
Lemma object_bodies_at_list_id :
  object_body (mkRequest true (VDict post_list_id) [])
  /\ returns (fst (create_sensor (mkRequest true (VDict post_list_id) [])
                     (on_script always_ok))).
Proof.
  assert (H : object_body (mkRequest true (VDict post_list_id) []))
    by (eexists; reflexivity).
  split; [exact H|].
  exact (proj1 (object_bodies_are_always_answered scripted noon 1 _
                  (on_script always_ok) H)).
Defined.

(** ** Reads *)

Section Reads.

Context {D : Driver}.

Ltac read_facts :=
  cbn [fst snd st_trace];
  eexists; split; [reflexivity|];
  split; [first [right; reflexivity|left; split; reflexivity]|];
  split.

Lemma after_finally_raised {A B : Type} (a : A) (cl : result B) (e : exn) :
  after_finally a cl = Raise e -> raised cl = Some e.
Proof. destruct cl; simpl; [discriminate|]. now intros [= ->]. Qed.

Lemma surviving_raised {B : Type} (e : exn) (cl : result B) :
  surviving e (Ok tt) cl = e /\ raised cl = None
  \/ raised cl = Some (surviving e (Ok tt) cl).
Proof. destruct cl; simpl; auto. Qed.

Lemma DB_fetch_one_reads self q params (st : state D) :
  idle self st -> reads q params st (DB_fetch_one self q params st).
Proof.
  intros Hidle.
  destruct (drv_connect D (st_world st)) as [[c|e0] w1] eqn:Hconnect.
  2:{ rewrite (DB_fetch_one_connect_raises _ _ _ _ _ _ Hidle Hconnect).
      read_facts.
      - intros e [= ->]. left; reflexivity.
      - split; [intros [a H]; discriminate|discriminate]. }
  destruct (drv_execute D c q params w1) as [[cur|e] w2] eqn:Hexec;
    destruct (drv_close D c w2) as [cl w3] eqn:Hclose.
  - rewrite (DB_fetch_one_returns _ _ _ _ _ _ _ _ _ _
               Hidle Hconnect Hexec Hclose).
    read_facts.
    + intros e H. apply after_finally_raised in H. simpl. auto.
    + unfold all_returned; destruct cl as [[]|e]; simpl; split;
        eauto; try discriminate.
      intros [a H]; discriminate.
  - rewrite (DB_fetch_one_statement_raises _ _ _ _ _ _ _ _ _ _
               Hidle Hconnect Hexec Hclose).
    read_facts.
    + intros e' [= <-]. simpl.
      destruct (surviving_raised e cl) as [[-> _]| ->]; auto.
    + split; [intros [a H]; discriminate|discriminate].
Qed.

Lemma DB_fetch_all_reads self q params (st : state D) :
  idle self st -> reads q params st (DB_fetch_all self q params st).
Proof.
  intros Hidle.
  destruct (drv_connect D (st_world st)) as [[c|e0] w1] eqn:Hconnect.
  2:{ rewrite (DB_fetch_all_connect_raises _ _ _ _ _ _ Hidle Hconnect).
      read_facts.
      - intros e [= ->]. left; reflexivity.
      - split; [intros [a H]; discriminate|discriminate]. }
  destruct (drv_execute D c q params w1) as [[cur|e] w2] eqn:Hexec;
    destruct (drv_close D c w2) as [cl w3] eqn:Hclose.
  - rewrite (DB_fetch_all_returns _ _ _ _ _ _ _ _ _ _
               Hidle Hconnect Hexec Hclose).
    read_facts.
    + intros e H. apply after_finally_raised in H. simpl. auto.
    + unfold all_returned; destruct cl as [[]|e]; simpl; split;
        eauto; try discriminate.
      intros [a H]; discriminate.
  - rewrite (DB_fetch_all_statement_raises _ _ _ _ _ _ _ _ _ _
               Hidle Hconnect Hexec Hclose).
    read_facts.
    + intros e' [= <-]. simpl.
      destruct (surviving_raised e cl) as [[-> _]| ->]; auto.
    + split; [intros [a H]; discriminate|discriminate].
Qed.

(** A handler that hands on what its read raised and answers what it
    returned does one read. *)
Lemma reads_then {A B : Type} q params (st : state D)
  (out : result A * state D) (f : A -> B) :
  reads q params (after_get_db st) out ->
  reads q params st
    (match out with
     | (Ok a, st2) => (Ok (f a), st2)
     | (Raise e, st2) => (Raise e, st2)
     end).
Proof.
  intros [evs (Htrace & Hread & Hraise & Hok)].
  exists evs. destruct out as [[a|e] st2]; cbn [fst snd] in *.
  - split; [exact Htrace|]. split; [exact Hread|]. split; [discriminate|].
    split; [intros _; apply Hok; eauto|eauto].
  - split; [exact Htrace|]. split; [exact Hread|].
    split; [intros e' [= <-]; now apply Hraise|].
    split; [intros [b H]; discriminate|].
    intros H. apply Hok in H. destruct H; discriminate.
Qed.

Lemma get_sensor_reads sensor_id (st : state D) :
  reads q_get_sensor [VInt sensor_id] st (get_sensor sensor_id st).
Proof.
  rewrite get_sensor_outcome.
  apply (reads_then _ _ _ _
           (fun r => if no_row r then not_found "Sensor" sensor_id
                     else jsonify (json_of_row r))).
  apply DB_fetch_one_reads, new_db_idle.
Qed.

Lemma get_log_reads log_id (st : state D) :
  reads q_get_log [VInt log_id] st (get_log log_id st).
Proof.
  rewrite get_log_outcome.
  apply (reads_then _ _ _ _
           (fun r => if no_row r then not_found "log" log_id
                     else jsonify (json_of_row r))).
  apply DB_fetch_one_reads, new_db_idle.
Qed.

Lemma list_sensors_outcome (st : state D) :
  list_sensors st =
  match DB_fetch_all (new_db st) q_list_sensors [] (after_get_db st) with
  | (Ok rows, st2) => (Ok (jsonify (VList (map json_row rows))), st2)
  | (Raise e, st2) => (Raise e, st2)
  end.
Proof.
  unfold list_sensors, bind, get_db; fold (new_db st) (after_get_db st).
  destruct (DB_fetch_all _ _ _ _) as [[rows|e] st2]; [|reflexivity].
  unfold lift; now rewrite as_json_rows.
Qed.

Lemma list_sensors_reads (st : state D) :
  reads q_list_sensors [] st (list_sensors st).
Proof.
  rewrite list_sensors_outcome.
  apply (reads_then _ _ _ _ (fun rows => jsonify (VList (map json_row rows)))).
  apply DB_fetch_all_reads, new_db_idle.
Qed.

Lemma list_temperatures_reads req l o (st : state D) :
  int_arg req "limit" 100 = Ok l ->
  int_arg req "offset" 0 = Ok o ->
  reads q_list_logs [VInt (Z.min l 1000); VInt o] st
    (list_temperatures req st).
Proof.
  intros Hl Ho. rewrite (list_temperatures_outcome _ _ _ _ Hl Ho).
  apply (reads_then _ _ _ _ (fun rows => jsonify (VList (map json_row rows)))).
  apply DB_fetch_all_reads, new_db_idle.
Qed.

End Reads.


(** X7.  [health] raises nothing.  It probes the database with one read of
    [SELECT 1 as ok] and answers 200 with [{"status": "ok"}] exactly when
    [connect], the statement and [close] all returned, and 503 with
    [{"status": "degraded"}] as soon as one of them raised. *)
Theorem health_is_ok_iff_the_probe_returned (D : Driver) (st : state D) :
  exists evs,
    st_trace (snd (health st)) = st_trace st ++ evs
    /\ one_read q_health [] evs
    /\ fst (health st)
       = Ok (if all_returned evs
             then jsonify (VDict [("status", VStr "ok")])
             else degraded).
Proof.
  destruct (DB_fetch_one_reads (new_db st) q_health [] (after_get_db st)
              (new_db_idle st)) as [evs (Htrace & Hread & Hraise & Hok)].
  exists evs.
  unfold health, try_except, bind, get_db, ret.
  fold (new_db st) (after_get_db st).
  destruct (DB_fetch_one _ _ _ _) as [[r|e] st2]; cbn [fst snd] in *.
  - split; [exact Htrace|]. split; [exact Hread|].
    rewrite (proj1 Hok) by eauto. reflexivity.
  - split; [exact Htrace|]. split; [exact Hread|].
    destruct (all_returned evs); [|reflexivity].
    destruct (proj2 Hok eq_refl); discriminate.
Qed.

(** ** Writes *)

Lemma all_returned_app (a b : list event) :
  all_returned (a ++ b) = all_returned a && all_returned b.
Proof. apply forallb_app. Qed.

Lemma calls_app (a b : list event) : calls (a ++ b) = calls a ++ calls b.
Proof. apply map_app. Qed.

(** A write that went through made the four calls. *)
Lemma one_write_returned q params evs :
  one_write q params evs -> all_returned evs = true ->
  calls evs = [CConnect; CExecute q params; CCommit; CClose].
Proof. intros [[_ H]|[H|[[_ H]|[_ H]]]] Hall; congruence. Qed.

Lemma one_read_returned q params evs :
  one_read q params evs -> all_returned evs = true ->
  calls evs = [CConnect; CExecute q params; CClose].
Proof. intros [[_ H]|H] Hall; congruence. Qed.

Section Writes.

Context {D : Driver}.

Ltac write_facts :=
  cbn [fst snd st_trace];
  eexists; split; [reflexivity|];
  split;
  [first [right; left; reflexivity
         |left; split; reflexivity
         |right; right; left; split; reflexivity
         |right; right; right; split; reflexivity]|];
  split.

Lemma surviving_among {A B : Type} (e : exn) (rb : result A) (cl : result B) :
  surviving e rb cl = e
  \/ raised rb = Some (surviving e rb cl)
  \/ raised cl = Some (surviving e rb cl).
Proof. destruct rb, cl; simpl; auto. Qed.

Lemma DB_execute_writes self q params (st : state D) :
  idle self st -> writes q params st (DB_execute self q params st).
Proof.
  intros Hidle.
  destruct (drv_connect D (st_world st)) as [[c|e0] w1] eqn:Hconnect.
  2:{ rewrite (DB_execute_connect_raises _ _ _ _ _ _ Hidle Hconnect).
      write_facts.
      - intros e [= ->]. left; reflexivity.
      - split; [intros [a H]; discriminate|discriminate]. }
  destruct (drv_execute D c q params w1) as [[cur|e] w2] eqn:Hexec.
  - destruct (drv_commit D c w2) as [[[]|e] w3] eqn:Hcommit.
    + destruct (drv_close D c w3) as [cl w4] eqn:Hclose.
      rewrite (DB_execute_returns _ _ _ _ _ _ _ _ _ _ _
                 Hidle Hconnect Hexec Hcommit Hclose).
      write_facts.
      * intros e H. apply after_finally_raised in H. simpl. auto.
      * unfold all_returned; destruct cl as [[]|e]; simpl; split;
          eauto; try discriminate.
        intros [a H]; discriminate.
    + destruct (drv_rollback D c w3) as [rb w4] eqn:Hrollback.
      destruct (drv_close D c w4) as [cl w5] eqn:Hclose.
      rewrite (DB_execute_commit_raises _ _ _ _ _ _ _ _ _ _ _ _ _ _
                 Hidle Hconnect Hexec Hcommit Hrollback Hclose).
      write_facts.
      * intros e' [= <-]. simpl.
        destruct (surviving_among e rb cl) as [-> |[<- | <-]]; auto 10.
      * split; [intros [a H]; discriminate|discriminate].
  - destruct (drv_rollback D c w2) as [rb w3] eqn:Hrollback.
    destruct (drv_close D c w3) as [cl w4] eqn:Hclose.
    rewrite (DB_execute_statement_raises _ _ _ _ _ _ _ _ _ _ _ _
               Hidle Hconnect Hexec Hrollback Hclose).
    write_facts.
    + intros e' [= <-]. simpl.
      destruct (surviving_among e rb cl) as [-> |[<- | <-]]; auto 10.
    + split; [intros [a H]; discriminate|discriminate].
Qed.

(** A handler after its checks: the write, then the read-back unless the
    write tells to skip it. *)
Lemma write_then_read_outcome q params q' (params' : Z * Z -> list value)
  (skip : Z * Z -> option response) (ok : option row -> response)
  (failure failure' : exn -> response) (code : Z) (st : state D) :
  (forall rc nf, skip rc = Some nf -> status nf <> code) ->
  (forall r, status (ok r) = code) ->
  (forall e, status (failure e) <> code) ->
  (forall e, status (failure' e) <> code) ->
  let out :=
    match DB_execute (new_db st) q params (after_get_db st) with
    | (Ok rc, st2) =>
        match skip rc with
        | Some nf => (Ok nf, st2)
        | None =>
            match DB_fetch_one (new_db st2) q' (params' rc)
                    (after_get_db st2) with
            | (Ok r, st3) => (Ok (ok r), st3)
            | (Raise e, st3) => (Ok (failure e), st3)
            end
        end
    | (Raise e, st2) => (Ok (failure' e), st2)
    end in
  exists resp evs rc,
    answered st out resp evs
    /\ write_then_read q params q' (params' rc) evs
    /\ (status resp = code <->
        committed_and_read q params q' (params' rc) evs).
Proof.
  intros Hskip Hcode Hfailure Hfailure' out; subst out.
  destruct (DB_execute_writes (new_db st) q params (after_get_db st)
              (new_db_idle st)) as [w (Htrace & Hwrite & _ & Hok)].
  destruct (DB_execute _ _ _ _) as [[rc|e] st2]; cbn [fst snd] in *.
  - assert (Hall : all_returned w = true) by (apply Hok; eauto).
    pose proof (one_write_returned _ _ _ Hwrite Hall) as Hcalls.
    destruct (skip rc) as [nf|] eqn:Hrc.
    + exists nf, w, rc. split; [split; [reflexivity|exact Htrace]|].
      split.
      * exists w, []. rewrite app_nil_r. auto.
      * split; [intros H; now apply Hskip in Hrc|].
        intros [H _]. rewrite Hcalls in H. discriminate.
    + destruct (DB_fetch_one_reads (new_db st2) q' (params' rc)
                  (after_get_db st2) (new_db_idle st2))
        as [r (Htrace' & Hread & _ & Hok')].
      cbn [after_get_db st_trace] in Htrace'.
      destruct (DB_fetch_one _ _ _ _) as [[row|e] st3]; cbn [fst snd] in *.
      * assert (Hall' : all_returned r = true) by (apply Hok'; eauto).
        eexists _, (w ++ r), rc. split; [split; [reflexivity|]|].
        { cbn [fst snd]. rewrite Htrace', Htrace, app_assoc. reflexivity. }
        split; [exists w, r; auto|].
        split; [intros _|intros _; apply Hcode].
        split; [|rewrite all_returned_app, Hall, Hall'; reflexivity].
        rewrite calls_app, Hcalls, (one_read_returned _ _ _ Hread Hall').
        reflexivity.
      * assert (Hall' : all_returned r = false).
        { destruct (all_returned r); [|reflexivity].
          destruct (proj2 Hok' eq_refl); discriminate. }
        eexists _, (w ++ r), rc. split; [split; [reflexivity|]|].
        { cbn [fst snd]. rewrite Htrace', Htrace, app_assoc. reflexivity. }
        split; [exists w, r; auto|].
        split; [intros H; now apply Hfailure in H|].
        intros [_ H]. rewrite all_returned_app, Hall' in H.
        destruct (all_returned w); discriminate.
  - assert (Hall : all_returned w = false).
    { destruct (all_returned w); [|reflexivity].
      destruct (proj2 Hok eq_refl); discriminate. }
    eexists _, w, (0, 0). split; [split; [reflexivity|exact Htrace]|].
    split.
    + exists w, []. rewrite app_nil_r. auto.
    + split; [intros H; now apply Hfailure' in H|].
      intros [_ H]. congruence.
Qed.

(** An update handler after its checks: the write, then the read-back
    when a row was affected. *)
Lemma write_then_read_back q params q' id message key nf
  (failure failure' : exn -> response) (st : state D) :
  status nf = 404 ->
  (forall e, status (failure e) = 400) ->
  (forall e, status (failure' e) = 400) ->
  let out :=
    match DB_execute (new_db st) q params (after_get_db st) with
    | (Ok rc, st2) =>
        if fst rc =? 0 then (Ok nf, st2)
        else read_back q' id message key failure st2
    | (Raise e, st2) => (Ok (failure' e), st2)
    end in
  exists resp evs,
    answered st out resp evs
    /\ write_then_read q params q' [VInt id] evs
    /\ (status resp = 200 <-> committed_and_read q params q' [VInt id] evs).
Proof.
  intros Hnf Hfailure Hfailure' out.
  destruct (write_then_read_outcome q params q' (fun _ => [VInt id])
              (fun rc => if fst rc =? 0 then Some nf else None)
              (fun r => jsonify (VDict [("message", VStr message);
                                        (key, json_of_row r)]))
              failure failure' 200 st) as (resp & evs & _ & H).
  - intros rc nf'. destruct (fst rc =? 0); [|discriminate].
    intros [= <-]. rewrite Hnf. discriminate.
  - reflexivity.
  - intros e. rewrite Hfailure. discriminate.
  - intros e. rewrite Hfailure'. discriminate.
  - exists resp, evs. subst out. unfold read_back.
    destruct (DB_execute _ _ _ _) as [[rc|e] st2]; [|exact H].
    destruct (fst rc =? 0); exact H.
Qed.

End Writes.




(** ** The fields of [update_log] *)

Lemma filter_cons_app {A : Type} (f : A -> bool) (a : A) (l : list A) :
  filter f (a :: l) = filter f [a] ++ filter f l.
Proof. simpl. destruct (f a); reflexivity. Qed.

Section UpdateLog.

Context {D : Driver}.

Lemma number_field_dict k conv message d acc (st : state D) :
  number_field k conv message (VDict d) acc st =
  if has_key k d then
    match conv (field d k) with
    | Ok x =>
        (Ok (inr (fst acc ++ [set_item k], snd acc ++ [x])), st)
    | Raise e =>
        (if is_ValueError e then Ok (inl (bad_request message 400))
         else Raise e, st)
    end
  else (Ok (inr acc), st).
Proof.
  unfold number_field, bind, lift, try_except, ret.
  cbn [py_contains py_getitem].
  destruct (has_key k d) eqn:Hk; [|reflexivity].
  rewrite (has_key_field _ _ Hk). cbn [of_option].
  destruct (conv (field d k)) as [x|e]; [reflexivity|].
  destruct (is_ValueError e); reflexivity.
Qed.

Lemma read_time_field_dict d acc (st : state D) :
  read_time_field (VDict d) acc st =
  if has_key "read_time" d then
    match parse_read_time (field d "read_time") with
    | Ok dt =>
        (Ok (inr (fst acc ++ [set_item "read_time"],
                  snd acc ++ [VDatetime dt])), st)
    | Raise e => (Ok (inl (bad_request read_time_message 400)), st)
    end
  else (Ok (inr acc), st).
Proof.
  unfold read_time_field, bind, lift, try_except, ret.
  cbn [py_contains py_getitem].
  destruct (has_key "read_time" d) eqn:Hk; [|reflexivity].
  rewrite (has_key_field _ _ Hk). cbn [of_option].
  destruct (parse_read_time (field d "read_time")); reflexivity.
Qed.

(** A field that converts adds its item and its value, an absent one
    nothing. *)
Lemma number_field_converts k conv message d acc xs (st : state D) :
  (forall v, convert_log_field k v = conv v) ->
  Forall2 (fun k x => convert_log_field k (field d k) = Ok x)
    (filter (fun k => has_key k d) [k]) xs ->
  number_field k conv message (VDict d) acc st
  = (Ok (inr (fst acc ++ map set_item (filter (fun k => has_key k d) [k]),
              snd acc ++ xs)), st).
Proof.
  intros Hconv H. rewrite number_field_dict. cbn [filter] in *.
  destruct (has_key k d).
  - inversion H as [|? x ? xs' Hx Hnil]; subst.
    inversion Hnil; subst. rewrite Hconv in Hx. rewrite Hx. reflexivity.
  - inversion H; subst. cbn [map]. rewrite !app_nil_r.
    destruct acc; reflexivity.
Qed.

Lemma read_time_field_converts d acc xs (st : state D) :
  Forall2 (fun k x => convert_log_field k (field d k) = Ok x)
    (filter (fun k => has_key k d) ["read_time"]) xs ->
  read_time_field (VDict d) acc st
  = (Ok (inr (fst acc
              ++ map set_item (filter (fun k => has_key k d) ["read_time"]),
              snd acc ++ xs)), st).
Proof.
  intros H. rewrite read_time_field_dict. cbn [filter] in *.
  destruct (has_key "read_time" d).
  - inversion H as [|? x ? xs' Hx Hnil]; subst.
    inversion Hnil; subst. unfold convert_log_field in Hx. cbn in Hx.
    destruct (parse_read_time (field d "read_time")); [|discriminate].
    injection Hx as <-. reflexivity.
  - inversion H; subst. cbn [map]. rewrite !app_nil_r.
    destruct acc; reflexivity.
Qed.

Lemma validate_log_converts d xs (st : state D) :
  Forall2 (fun k x => convert_log_field k (field d k) = Ok x)
    (filter (fun k => has_key k d) log_updatable) xs ->
  validate_log (VDict d) st
  = (Ok (inr (map set_item (filter (fun k => has_key k d) log_updatable),
              xs)), st).
Proof.
  unfold log_updatable. intros H.
  rewrite filter_cons_app in H.
  apply Forall2_app_inv_l in H as (x1 & xs1 & H1 & H & ->).
  rewrite filter_cons_app in H.
  apply Forall2_app_inv_l in H as (x2 & xs2 & H2 & H & ->).
  rewrite filter_cons_app in H.
  apply Forall2_app_inv_l in H as (x3 & xs3 & H3 & H & ->).
  rewrite filter_cons_app in H.
  apply Forall2_app_inv_l in H as (x4 & x5 & H4 & H5 & ->).
  unfold validate_log, and_then, bind.
  rewrite (read_time_field_converts _ _ _ _ H1).
  rewrite (number_field_converts _ _ _ _ _ _ _ (fun _ => eq_refl) H2).
  rewrite (number_field_converts _ _ _ _ _ _ _ (fun _ => eq_refl) H3).
  rewrite (number_field_converts _ _ _ _ _ _ _ (fun _ => eq_refl) H4).
  rewrite (number_field_converts _ _ _ _ _ _ _ (fun _ => eq_refl) H5).
  cbn [fst snd app].
  rewrite <- !map_app, <- !app_assoc. do 4 f_equal.
  cbn [filter app]. repeat destruct (has_key _ d); reflexivity.
Qed.

End UpdateLog.



(** ** Creation *)

Lemma py_int_raises (v : value) (e : exn) :
  py_int v = Raise e -> e = ValueError \/ e = TypeError \/ e = OverflowError.
Proof.
  destruct v as [| | |f|s| | | |]; simpl; try discriminate;
    try (intros [= <-]; auto).
  - destruct f; simpl; try discriminate; intros [= <-]; auto.
  - destruct (int_of_string s); simpl; [discriminate|]. intros [= <-]; auto.
Qed.

Lemma float_of_Z_raises (z : Z) (e : exn) :
  float_of_Z z = Raise e -> e = OverflowError.
Proof.
  unfold float_of_Z.
  destruct (binary_normalize _ _ _ _ _); try discriminate.
  now intros [= <-].
Qed.

Lemma py_float_raises (v : value) (e : exn) :
  py_float v = Raise e -> e = ValueError \/ e = TypeError \/ e = OverflowError.
Proof.
  destruct v as [| |z| |s| | | |]; simpl; try discriminate;
    try (intros [= <-]; auto).
  - intros H. apply float_of_Z_raises in H. auto.
  - intros H. apply float_of_Z_raises in H. auto.
  - destruct (float_of_string s); simpl; [discriminate|]. intros [= <-]; auto.
Qed.

Lemma int_value_raises (v : value) (e : exn) :
  int_value v = Raise e -> e = ValueError \/ e = TypeError \/ e = OverflowError.
Proof.
  unfold int_value. destruct (py_int v) eqn:H; [discriminate|].
  intros [= <-]. now apply py_int_raises in H.
Qed.

Lemma float_value_raises_one_of (v : value) (e : exn) :
  float_value v = Raise e ->
  e = ValueError \/ e = TypeError \/ e = OverflowError.
Proof.
  unfold float_value. destruct (py_float v) eqn:H; [discriminate|].
  intros [= <-]. now apply py_float_raises in H.
Qed.

(** A conversion never raises what the integrity clause catches. *)
Lemma write_failure_conversion failed e :
  e = ValueError \/ e = TypeError \/ e = OverflowError ->
  write_failure failed e = bad_request failed 400.
Proof. intros [-> |[-> | ->]]; reflexivity. Qed.

Lemma has_all_missing required d :
  has_all required d = true ->
  missing_fields required (VDict d) = Ok [].
Proof.
  intros H. rewrite missing_fields_dict. f_equal.
  induction required as [|k ks IH]; [reflexivity|].
  simpl in *. apply andb_prop in H as [-> H]. simpl. auto.
Qed.

Lemma has_all_In required d k :
  has_all required d = true -> In k required -> has_key k d = true.
Proof.
  unfold has_all. rewrite forallb_forall. auto.
Qed.

Section Creation.

Context {D : Driver}.

Lemma create_sensor_outcome req d sid (st : state D) :
  require_json req = (VDict d, None) ->
  has_all sensor_required d = true ->
  py_int (field d "sensor_id") = Ok sid ->
  create_sensor req st =
  match DB_execute (new_db st) q_insert_sensor
          [VInt sid; field d "mac_addr"; field d "device_id";
           field d "device_location"] (after_get_db st) with
  | (Ok rc, st2) =>
      match DB_fetch_one (new_db st2) q_get_sensor [VInt sid]
              (after_get_db st2) with
      | (Ok r, st3) =>
          (Ok (mkResponse (VDict [("message", VStr "sensor created");
                                  ("sensor", json_of_row r)]) 201), st3)
      | (Raise e, st3) =>
          (Ok (write_failure "Failed to create sensor" e), st3)
      end
  | (Raise e, st2) => (Ok (write_failure "Failed to create sensor" e), st2)
  end.
Proof.
  intros Hreq Hall Hsid.
  unfold create_sensor. rewrite Hreq.
  unfold bind at 1, lift at 1. rewrite (has_all_missing _ _ Hall).
  unfold try_except, bind, get_db, lift, ret.
  fold (new_db st) (after_get_db st).
  cbn [py_getitem].
  rewrite !(has_key_field _ d) by (apply (has_all_In _ _ _ Hall); simpl; auto).
  cbn [of_option]. rewrite Hsid.
  destruct (DB_execute _ _ _ _) as [[rc|e] st2].
  - fold (new_db st2) (after_get_db st2).
    destruct (DB_fetch_one _ _ _ _) as [[r|e] st3].
    + rewrite as_json_row. reflexivity.
    + destruct e as [| | | | |[] ? ?|]; reflexivity.
  - destruct e as [| | | | |[] ? ?|]; reflexivity.
Qed.

Lemma create_sensor_rejects req d e (st : state D) :
  require_json req = (VDict d, None) ->
  has_all sensor_required d = true ->
  py_int (field d "sensor_id") = Raise e ->
  create_sensor req st
  = (Ok (bad_request "Failed to create sensor" 400), after_get_db st).
Proof.
  intros Hreq Hall Hsid.
  unfold create_sensor. rewrite Hreq.
  unfold bind at 1, lift at 1. rewrite (has_all_missing _ _ Hall).
  unfold try_except, bind, get_db, lift, ret.
  fold (new_db st) (after_get_db st).
  cbn [py_getitem].
  rewrite !(has_key_field _ d) by (apply (has_all_In _ _ _ Hall); simpl; auto).
  cbn [of_option]. rewrite Hsid.
  apply py_int_raises in Hsid. destruct Hsid as [-> |[-> | ->]]; reflexivity.
Qed.

End Creation.



Section LogCreation.

Context {D : Driver}.

Lemma create_temperature_checked utcnow req d (st : state D) :
  require_json req = (VDict d, None) ->
  has_all log_required d = true ->
  create_temperature utcnow req st =
  match log_time utcnow d with
  | Raise _ => (Ok (bad_request read_time_message 400), st)
  | Ok dt =>
      match log_values d with
      | Raise _ =>
          (Ok (bad_request "Failed to create log" 400), after_get_db st)
      | Ok values =>
          match DB_execute (new_db st) q_insert_log (VDatetime dt :: values)
                  (after_get_db st) with
          | (Ok rc, st2) =>
              match DB_fetch_one (new_db st2) q_get_log [VInt (snd rc)]
                      (after_get_db st2) with
              | (Ok r, st3) =>
                  (Ok (mkResponse (VDict [("message", VStr "log created");
                                          ("log", json_of_row r)]) 201), st3)
              | (Raise e, st3) =>
                  (Ok (write_failure "Failed to create log" e), st3)
              end
          | (Raise e, st2) =>
              (Ok (write_failure "Failed to create log" e), st2)
          end
      end
  end.
Proof.
  intros Hreq Hall.
  unfold create_temperature. rewrite Hreq.
  unfold bind at 1, lift at 1. rewrite (has_all_missing _ _ Hall).
  unfold bind at 1, lift at 1. cbn [py_get]. fold (field d "read_time").
  assert (Hinsert : forall dt,
    try_except
      (db <- get_db ;;
       v1 <- lift (py_getitem (VDict d) "sensor_id") ;;
       sid <- lift (int_value v1) ;;
       v2 <- lift (py_getitem (VDict d) "temperature_f") ;;
       t <- lift (float_value v2) ;;
       v3 <- lift (py_getitem (VDict d) "humidity") ;;
       h <- lift (float_value v3) ;;
       v4 <- lift (py_getitem (VDict d) "pressure") ;;
       p <- lift (float_value v4) ;;
       rc <- DB_execute db q_insert_log [VDatetime dt; sid; t; h; p] ;;
       db' <- get_db ;;
       created <- DB_fetch_one db' q_get_log [VInt (snd rc)] ;;
       j <- lift (as_json (value_of_row created)) ;;
       ret (mkResponse (VDict [("message", VStr "log created"); ("log", j)])
              201))
      (first_of on_integrity_error (on_exception "Failed to create log")) st
    = match log_values d with
      | Raise _ =>
          (Ok (bad_request "Failed to create log" 400), after_get_db st)
      | Ok values =>
          match DB_execute (new_db st) q_insert_log (VDatetime dt :: values)
                  (after_get_db st) with
          | (Ok rc, st2) =>
              match DB_fetch_one (new_db st2) q_get_log [VInt (snd rc)]
                      (after_get_db st2) with
              | (Ok r, st3) =>
                  (Ok (mkResponse (VDict [("message", VStr "log created");
                                          ("log", json_of_row r)]) 201), st3)
              | (Raise e, st3) =>
                  (Ok (write_failure "Failed to create log" e), st3)
              end
          | (Raise e, st2) =>
              (Ok (write_failure "Failed to create log" e), st2)
          end
      end).
  { intros dt.
    unfold try_except, bind, get_db, lift, ret.
    fold (new_db st) (after_get_db st).
    cbn [py_getitem].
    rewrite !(has_key_field _ d)
      by (apply (has_all_In _ _ _ Hall); simpl; auto).
    cbn [of_option]. unfold log_values.
    destruct (int_value (field d "sensor_id")) as [sid|e] eqn:H1.
    2:{ apply int_value_raises in H1.
        destruct H1 as [-> |[-> | ->]]; reflexivity. }
    destruct (float_value (field d "temperature_f")) as [t|e] eqn:H2.
    2:{ apply float_value_raises_one_of in H2.
        destruct H2 as [-> |[-> | ->]]; reflexivity. }
    destruct (float_value (field d "humidity")) as [h|e] eqn:H3.
    2:{ apply float_value_raises_one_of in H3.
        destruct H3 as [-> |[-> | ->]]; reflexivity. }
    destruct (float_value (field d "pressure")) as [p|e] eqn:H4.
    2:{ apply float_value_raises_one_of in H4.
        destruct H4 as [-> |[-> | ->]]; reflexivity. }
    destruct (DB_execute _ _ _ _) as [[rc|e] st2].
    - fold (new_db st2) (after_get_db st2).
      destruct (DB_fetch_one _ _ _ _) as [[r|e] st3].
      + rewrite as_json_row. reflexivity.
      + destruct e as [| | | | |[] ? ?|]; reflexivity.
    - destruct e as [| | | | |[] ? ?|]; reflexivity. }
  unfold log_time.
  destruct (truthy (field d "read_time")).
  - destruct (parse_read_time (field d "read_time")) as [dt|e];
      [apply Hinsert|reflexivity].
  - apply Hinsert.
Qed.

End LogCreation.



(** ** What leaves [update_log] *)

Section UpdateLogRaises.

Context {D : Driver}.

Lemma not_ValueError (e : exn) :
  e = ValueError \/ e = TypeError \/ e = OverflowError ->
  is_ValueError e = false -> e = TypeError \/ e = OverflowError.
Proof. intros [-> |[-> | ->]]; simpl; auto. discriminate. Qed.

Ltac validation_step :=
  first [rewrite read_time_field_dict|rewrite number_field_dict];
  repeat match goal with
         | |- context [match ?x with _ => _ end] =>
             let y := innermost x in
             lazymatch y with
             | context [number_field] => fail
             | _ => destruct y eqn:?
             end
         end.

Lemma validate_log_dict d (st : state D) :
  snd (validate_log (VDict d) st) = st
  /\ forall e, fst (validate_log (VDict d) st) = Raise e ->
       e = TypeError \/ e = OverflowError.
Proof.
  unfold validate_log, and_then, bind, ret.
  repeat validation_step;
    cbn [fst snd]; (split; [reflexivity|]); intros e' [= <-];
    match goal with
    | H : int_value _ = Raise ?e, H' : is_ValueError ?e = false |- _ =>
        exact (not_ValueError _ (int_value_raises _ _ H) H')
    | H : float_value _ = Raise ?e, H' : is_ValueError ?e = false |- _ =>
        exact (not_ValueError _ (float_value_raises_one_of _ _ H) H')
    end.
Qed.

Lemma update_log_after_validation n log_id s sets params :
  keeps (D:=D) n
    (try_except
       (db <- get_db ;;
        rc <- DB_execute db (q_update "temperature_log" (s :: sets) "log_id")
                (params ++ [VInt log_id]) ;;
        if fst rc =? 0
        then ret (bad_request ("log " ++ str_of_Z log_id ++ " not found") 404)
        else
          db' <- get_db ;;
          updated <- DB_fetch_one db' q_get_log [VInt log_id] ;;
          j <- lift (as_json (value_of_row updated)) ;;
          ret (jsonify (VDict [("message", VStr "log updated"); ("log", j)])))
       (first_of on_integrity_error (on_exception "Failed to update log")))
    returns.
Proof. keep. Qed.

End UpdateLogRaises.

(** X12.  What leaves [update_log] on a JSON object is a [TypeError] or an
    [OverflowError] of [int] or [float] on one of its four numbers, raised
    during the validation: nothing was made or called by then, and no
    exception of the driver, no [KeyError] and no [ValueError] ever leaves
    it. *)
Theorem update_log_raises_only_from_its_conversions
  (D : Driver) (log_id : Z) (req : request) (d : list (string * value))
  (st : state D) (e : exn) :
  is_json req = true ->
  py_or (get_json req) (VDict []) = VDict d ->
  fst (update_log log_id req st) = Raise e ->
  (e = TypeError \/ e = OverflowError)
  /\ snd (update_log log_id req st) = st.
Proof.
  intros Hjson Hbody.
  assert (Hreq : require_json req = (VDict d, None)).
  { unfold require_json. rewrite Hjson, Hbody. reflexivity. }
  destruct (update_log log_id req st) as [r st'] eqn:Hout.
  unfold update_log in Hout. rewrite Hreq in Hout. unfold bind at 1 in Hout.
  destruct (validate_log_dict d st) as [Hst Hraise].
  destruct (validate_log (VDict d) st) as [[[resp|[[|s sets] params]]|e'] st1];
    cbn [fst snd] in *; try (injection Hout as <- <-; discriminate).
  - destruct (proj2 (update_log_after_validation 0 log_id s sets params st1))
      as [resp [Hresp _]].
    rewrite Hout in Hresp. cbn [fst] in Hresp. rewrite Hresp. discriminate.
  - injection Hout as <- <-. intros [= <-].
    split; [now apply Hraise|exact Hst].
Qed.

(** X12 at a body whose humidity is [null]. *)
Lemma update_log_at_null_humidity :
  fst (update_log 1 (mkRequest true (VDict [("humidity", VNone)]) [])
         (on_script always_ok)) = Raise TypeError
  /\ (TypeError = TypeError \/ TypeError = OverflowError)
  /\ snd (update_log 1 (mkRequest true (VDict [("humidity", VNone)]) [])
            (on_script always_ok)) = on_script always_ok.
Proof.
  split; [reflexivity|].
  exact (update_log_raises_only_from_its_conversions scripted 1
           (mkRequest true (VDict [("humidity", VNone)]) [])
           [("humidity", VNone)] (on_script always_ok) TypeError
           eq_refl eq_refl eq_refl).
Defined.

(** ** [as_json], twice *)

Lemma convert_value_twice (v : value) :
  convert_value (convert_value v) = convert_value v.
Proof. destruct v; reflexivity. Qed.

Lemma convert_row_twice (r r' : value) :
  convert_row r = Ok r' -> convert_row r' = Ok r'.
Proof.
  destruct r; simpl; try discriminate. intros [= <-]. simpl.
  rewrite map_map. do 2 f_equal. apply map_ext. intros [k v]; simpl.
  now rewrite convert_value_twice.
Qed.

Lemma convert_rows_twice (l l' : list value) :
  convert_rows l = Ok l' -> convert_rows l' = Ok l'.
Proof.
  revert l'; induction l as [|r l IH]; intros l'; simpl.
  - now intros [= <-].
  - destruct (convert_row r) as [r'|] eqn:Hr; [|discriminate].
    destruct (convert_rows l) as [l''|] eqn:Hl; [|discriminate].
    intros [= <-]. simpl.
    now rewrite (convert_row_twice _ _ Hr), (IH _ eq_refl).
Qed.

Lemma convert_value_ready (v : value) : json_ready (convert_value v) = true.
Proof. destruct v; reflexivity. Qed.

Lemma convert_row_ready (r r' : value) :
  convert_row r = Ok r' -> ready_row r' = true.
Proof.
  destruct r; simpl; try discriminate. intros [= <-]. simpl.
  rewrite forallb_forall. intros kv Hin.
  apply in_map_iff in Hin as ([k v] & <- & _). apply convert_value_ready.
Qed.

Lemma convert_rows_ready (l l' : list value) :
  convert_rows l = Ok l' -> forallb ready_row l' = true.
Proof.
  revert l'; induction l as [|r l IH]; intros l'; simpl.
  - now intros [= <-].
  - destruct (convert_row r) as [r'|] eqn:Hr; [|discriminate].
    destruct (convert_rows l) as [l''|] eqn:Hl; [|discriminate].
    intros [= <-]. simpl.
    now rewrite (convert_row_ready _ _ Hr), (IH _ eq_refl).
Qed.

(** X13.  Whatever [as_json] returns is ready for [jsonify]: [None], or a
    row or rows none of whose values is a [Decimal] or a [datetime]; and
    [as_json] is idempotent: given its own result it returns it unchanged,
    so converting a converted row again does no harm. *)
Theorem as_json_is_idempotent (v v' : value) :
  as_json v = Ok v' -> ready v' = true /\ as_json v' = Ok v'.
Proof.
  destruct v; simpl;
    try discriminate; try (intros [= <-]; split; reflexivity).
  - destruct (convert_rows l) as [l'|] eqn:Hl; [|discriminate].
    intros [= <-]. simpl.
    now rewrite (convert_rows_ready _ _ Hl), (convert_rows_twice _ _ Hl).
  - intros [= <-]. split.
    + simpl. rewrite forallb_forall. intros kv Hin.
      apply in_map_iff in Hin as ([k x] & <- & _). apply convert_value_ready.
    + simpl. rewrite map_map. do 2 f_equal. apply map_ext.
      intros [k x]; simpl. now rewrite convert_value_twice.
Qed.

(** X13 at a row that holds a [datetime]. *)
Lemma as_json_twice_at_noon :
  as_json (VDict [("read_time", VDatetime noon)])
  = Ok (VDict [("read_time", VStr "2025-09-24 13:05:00")])
  /\ ready (VDict [("read_time", VStr "2025-09-24 13:05:00")]) = true
  /\ as_json (VDict [("read_time", VStr "2025-09-24 13:05:00")])
     = Ok (VDict [("read_time", VStr "2025-09-24 13:05:00")]).
Proof.
  split; [reflexivity|].
  exact (as_json_is_idempotent (VDict [("read_time", VDatetime noon)]) _
           eq_refl).
Defined.

(** ** A [DB] object that holds a connection *)

Section Held.

Context {D : Driver}.

Lemma held_in_range (self : db) (st : state D) (c : connection D) :
  nth self (st_conn st) None = Some c -> (self < List.length (st_conn st))%nat.
Proof.
  intros H. destruct (Nat.lt_ge_cases self (List.length (st_conn st)));
    [assumption|].
  rewrite nth_overflow in H by assumption. discriminate.
Qed.

Lemma DB_connect_held (self : db) (st : state D) (c : connection D) :
  nth self (st_conn st) None = Some c ->
  drv_open D c (st_world st) = true ->
  DB_connect self st =
  let (r, w) := drv_ping D c (st_world st) in
  (r, mkState w (st_conn st) (st_trace st ++ [mkEvent CPing (raised r)])).
Proof.
  intros Hc Hopen.
  unfold DB_connect, try_except, bind, get_conn, driver_call.
  rewrite Hc, Hopen. cbn [negb].
  destruct (drv_ping D c (st_world st)) as [[[]|e] w]; [reflexivity|].
  destruct (is_pymysql_Error e); reflexivity.
Qed.

Lemma idle_after_close (self : db) (w : world D) (st : state D) evs :
  (self < List.length (st_conn st))%nat ->
  idle self (mkState w (set_nth self None (st_conn st)) evs).
Proof.
  intros Hlt. unfold idle; cbn [st_conn].
  assert (Hlen : forall (l : list (option (connection D))) n x,
             List.length (set_nth n x l) = List.length l).
  { induction l as [|a l IH]; intros [|n] x; simpl; auto. }
  split; [apply nth_set_nth; exact Hlt|rewrite Hlen; exact Hlt].
Qed.

Ltac held :=
  repeat (cbn [fst snd st_conn st_world st_trace raised];
          cbn beta iota;
          match goal with
          | H : nth ?self (st_conn ?st) None = Some _ |- _ =>
              progress rewrite H
          end);
  cbn [fst snd st_conn st_world st_trace raised]; cbn beta iota.

Lemma DB_fetch_one_held self q params (st : state D) c w1 :
  nth self (st_conn st) None = Some c ->
  drv_open D c (st_world st) = true ->
  drv_ping D c (st_world st) = (Ok tt, w1) ->
  on_held_connection q params self st (DB_fetch_one self q params st).
Proof.
  intros Hc Hopen Hping. pose proof (held_in_range _ _ _ Hc) as Hlt.
  unfold DB_fetch_one, bind. rewrite (DB_connect_held _ _ _ Hc Hopen), Hping.
  unfold DB_disconnect, try_finally, cur_execute, with_conn, bind, get_conn,
    driver_call, set_conn, ret.
  held.
  destruct (drv_execute D c q params w1) as [[cur|e] w2]; held;
    destruct (drv_close D c w2) as [[[]|e'] w3]; held;
    eexists _, [], _; rewrite <- !app_assoc;
    (split; [reflexivity|]); (split; [constructor|]);
    now apply idle_after_close.
Qed.

Lemma DB_fetch_all_held self q params (st : state D) c w1 :
  nth self (st_conn st) None = Some c ->
  drv_open D c (st_world st) = true ->
  drv_ping D c (st_world st) = (Ok tt, w1) ->
  on_held_connection q params self st (DB_fetch_all self q params st).
Proof.
  intros Hc Hopen Hping. pose proof (held_in_range _ _ _ Hc) as Hlt.
  unfold DB_fetch_all, bind. rewrite (DB_connect_held _ _ _ Hc Hopen), Hping.
  unfold DB_disconnect, try_finally, cur_execute, with_conn, bind, get_conn,
    driver_call, set_conn, ret.
  held.
  destruct (drv_execute D c q params w1) as [[cur|e] w2]; held;
    destruct (drv_close D c w2) as [[[]|e'] w3]; held;
    eexists _, [], _; rewrite <- !app_assoc;
    (split; [reflexivity|]); (split; [constructor|]);
    now apply idle_after_close.
Qed.

Lemma DB_execute_held self q params (st : state D) c w1 :
  nth self (st_conn st) None = Some c ->
  drv_open D c (st_world st) = true ->
  drv_ping D c (st_world st) = (Ok tt, w1) ->
  on_held_connection q params self st (DB_execute self q params st).
Proof.
  intros Hc Hopen Hping. pose proof (held_in_range _ _ _ Hc) as Hlt.
  unfold DB_execute, bind. rewrite (DB_connect_held _ _ _ Hc Hopen), Hping.
  unfold DB_disconnect, try_finally, try_except, cur_execute, with_conn,
    bind, get_conn, driver_call, set_conn, ret, raise.
  held.
  destruct (drv_execute D c q params w1) as [[cur|e] w2]; held.
  - destruct (drv_commit D c w2) as [[[]|e] w3]; held.
    + destruct (drv_close D c w3) as [[[]|e'] w4]; held;
        eexists _, [_], _; rewrite <- !app_assoc;
        (split; [reflexivity|]);
        (split; [repeat constructor; auto|]);
        now apply idle_after_close.
    + destruct (drv_rollback D c w3) as [[[]|e2] w4]; held;
        destruct (drv_close D c w4) as [[[]|e'] w5]; held;
        eexists _, [_; _], _; rewrite <- !app_assoc;
        (split; [reflexivity|]);
        (split; [repeat constructor; auto|]);
        now apply idle_after_close.
  - destruct (drv_rollback D c w2) as [[[]|e2] w3]; held;
      destruct (drv_close D c w3) as [[[]|e'] w4]; held;
      eexists _, [_], _; rewrite <- !app_assoc;
      (split; [reflexivity|]);
      (split; [repeat constructor; auto|]);
      now apply idle_after_close.
Qed.

End Held.

(** X14.  A [DB] object that still holds an open connection does not
    connect again: each method pings the connection it holds.  When the
    ping returns, the statement runs on that connection, which is closed at
    the end, leaving the object idle.  When the ping raises, the method
    raises that exception at once: the statement is not run, and, the
    [try] not being entered, [close] is not called and the object keeps
    the connection. *)
Theorem a_held_connection_is_pinged
  (D : Driver) (self : db) (q : string) (params : list value)
  (st : state D) (c : connection D) :
  nth self (st_conn st) None = Some c ->
  drv_open D c (st_world st) = true ->
  match drv_ping D c (st_world st) with
  | (Ok _, _) =>
      on_held_connection q params self st (DB_fetch_all self q params st)
      /\ on_held_connection q params self st (DB_fetch_one self q params st)
      /\ on_held_connection q params self st (DB_execute self q params st)
  | (Raise e, w) =>
      let st' :=
        mkState w (st_conn st) (st_trace st ++ [mkEvent CPing (Some e)]) in
      DB_fetch_all self q params st = (Raise e, st')
      /\ DB_fetch_one self q params st = (Raise e, st')
      /\ DB_execute self q params st = (Raise e, st')
  end.
Proof.
  intros Hc Hopen.
  destruct (drv_ping D c (st_world st)) as [[[]|e] w] eqn:Hping.
  - split; [|split].
    + now apply DB_fetch_all_held with (c := c) (w1 := w).
    + now apply DB_fetch_one_held with (c := c) (w1 := w).
    + now apply DB_execute_held with (c := c) (w1 := w).
  - unfold DB_fetch_all, DB_fetch_one, DB_execute, bind.
    rewrite (DB_connect_held _ _ _ Hc Hopen), Hping.
    repeat split.
Qed.

(** X14 at an object of the scripted driver that holds a connection. *)
Lemma held_connection_at_holding :
  nth 0 (st_conn (holding always_ok)) None = Some tt
  /\ on_held_connection q_health [] 0%nat (holding always_ok)
       (DB_fetch_one 0%nat q_health [] (holding always_ok)).
Proof.
  split; [reflexivity|].
  exact (proj1 (proj2 (a_held_connection_is_pinged scripted 0%nat q_health []
                         (holding always_ok) tt eq_refl eq_refl))).
Defined.
